(** * barcode-pro: the label generator of [script.js]

    A shallow embedding of the page script and the properties of its
    sequence generator, its text-parameter processor, its page layouts, its
    exports and its start-up.

    Conventions of the embedding.
    - A string is a sequence of code units; the development works with code
      units below 256 (Latin-1), one [ascii] each.
    - A number is [NaN], an infinity, or a rational kept in lowest terms.
      [Num] and [Conv] compute with exact rationals; [Double] rounds every
      result to the nearest double, as the engine does, and gives the two
      generators as the engine runs them.  The two arithmetics agree on
      integers of magnitude up to 2^53.  How many codes a generator returns
      and whether its loop ends depend on the arithmetic: these properties
      are stated for the engine's, within the bounds that keep its values
      exact, and the places where the rounding shows are given as
      counterexamples.  Signed zero is not distinguished, and [String] of a
      number prints its exact decimal expansion, which is the engine's for
      integers of magnitude up to 2^53.
    - Calls to the browser and to the three libraries are recorded, in the
      order in which they happen, as a list of [event]s, with the points at
      which a handler waits for a drawing; what a document holds is read
      off these calls.
    - The [for] loops whose bounds come from user input run on fuel; a run
      that exhausts it is [Diverged]. *)

From Stdlib Require Import String Ascii ZArith QArith Qreduction Qround List Lia DecimalString.
From Stdlib Require Import Lqa.
From Stdlib Require DecimalFacts DecimalPos DecimalZ.
From stdpp Require Import gmap strings.

Local Open Scope string_scope.
Local Open Scope list_scope.
Local Open Scope Z_scope.

(** ** Strings *)

Module Str.

Definition code (c : ascii) : N := N_of_ascii c.

(** WhiteSpace and LineTerminator code units below 256. *)
Definition isWhiteSpace (c : ascii) : bool :=
  let n := code c in
  ((9 <=? n) && (n <=? 13) || (n =? 32) || (n =? 160))%N.

Definition isDigit (c : ascii) : bool :=
  let n := code c in ((48 <=? n) && (n <=? 57))%N.

Fixpoint trimStart (s : string) : string :=
  match s with
  | String c s' => if isWhiteSpace c then trimStart s' else s
  | EmptyString => EmptyString
  end.

Definition trimEnd (s : string) : string :=
  String.rev (trimStart (String.rev s)).

Definition trim (s : string) : string := trimEnd (trimStart s).

(** [s.split(sep)] for a one-character separator. *)
Fixpoint split (sep : ascii) (s : string) : list string :=
  match s with
  | EmptyString => [EmptyString]
  | String c s' =>
      if Ascii.eqb c sep then EmptyString :: split sep s'
      else match split sep s' with
           | piece :: pieces => String c piece :: pieces
           | [] => [String c EmptyString]
           end
  end.

(** [parts.join(sep)]. *)
Definition join (sep : string) (parts : list string) : string :=
  String.concat sep parts.

Definition lowerChar (c : ascii) : ascii :=
  let n := code c in
  if ((65 <=? n) && (n <=? 90) ||
      (192 <=? n) && (n <=? 222) && negb (n =? 215))%N
  then ascii_of_N (n + 32) else c.

Fixpoint toLowerCase (s : string) : string :=
  match s with
  | String c s' => String (lowerChar c) (toLowerCase s')
  | EmptyString => EmptyString
  end.

Fixpoint repeat (c : ascii) (n : nat) : string :=
  match n with
  | O => EmptyString
  | S n' => String c (repeat c n')
  end.

(** [s.padStart(targetLength, fill)] for a one-character fill string. *)
Definition padStart (s : string) (targetLength : Z) (fill : ascii) : string :=
  repeat fill (Z.to_nat (targetLength - Z.of_nat (String.length s))) +:+ s.

(** A string is truthy when it is not empty. *)
Definition truthy (s : string) : bool :=
  match s with EmptyString => false | _ => true end.

(** [s.replace(/[^a-z0-9]/gi, '_')]. *)
Definition isAlnum (c : ascii) : bool :=
  let n := code c in
  ((48 <=? n) && (n <=? 57) || (65 <=? n) && (n <=? 90) ||
   (97 <=? n) && (n <=? 122))%N.

Fixpoint sanitize (s : string) : string :=
  match s with
  | String c s' => String (if isAlnum c then c else "_"%char) (sanitize s')
  | EmptyString => EmptyString
  end.

End Str.

(** ** Numbers *)

(** A number of the script: not a number, a finite value, or an infinity
    with its sign.  The operations of [Num] and the conversions of [Conv]
    give the exact results; the engine's rounded ones are in [Double]. *)
Inductive number : Type :=
| NaN
| Fin (q : Q)
| Inf (negative : bool).

Definition ofZ (z : Z) : number := Fin (inject_Z z).
Definition ofNat (n : nat) : number := ofZ (Z.of_nat n).

Module Num.

Definition isNaN (x : number) : bool :=
  match x with NaN => true | _ => false end.

Definition isZero (q : Q) : bool := Qeq_bool q 0.
Definition isNeg (q : Q) : bool := negb (Qle_bool 0 q).

Definition neg (x : number) : number :=
  match x with
  | NaN => NaN
  | Fin q => Fin (- q)
  | Inf s => Inf (negb s)
  end.

Definition add (x y : number) : number :=
  match x, y with
  | NaN, _ | _, NaN => NaN
  | Fin a, Fin b => Fin (Qplus' a b)
  | Inf s, Inf t => if Bool.eqb s t then Inf s else NaN
  | Inf s, Fin _ | Fin _, Inf s => Inf s
  end.

Definition sub (x y : number) : number := add x (neg y).

Definition mul (x y : number) : number :=
  match x, y with
  | NaN, _ | _, NaN => NaN
  | Fin a, Fin b => Fin (Qmult' a b)
  | Inf s, Inf t => Inf (xorb s t)
  | Inf s, Fin q | Fin q, Inf s =>
      if isZero q then NaN else Inf (xorb s (isNeg q))
  end.

Definition div (x y : number) : number :=
  match x, y with
  | NaN, _ | _, NaN => NaN
  | Fin a, Fin b =>
      if isZero b then (if isZero a then NaN else Inf (isNeg a))
      else Fin (Qred (a / b))
  | Inf _, Inf _ => NaN
  | Inf s, Fin q => Inf (xorb s (isNeg q))
  | Fin _, Inf _ => Fin 0
  end.

(** [x <= y]; every comparison with [NaN] is false. *)
Definition le (x y : number) : bool :=
  match x, y with
  | NaN, _ | _, NaN => false
  | Fin a, Fin b => Qle_bool a b
  | Inf true, _ => true
  | _, Inf false => true
  | Inf false, _ => false
  | _, Inf true => false
  end.

Definition lt (x y : number) : bool :=
  match x, y with
  | NaN, _ | _, NaN => false
  | _, _ => negb (le y x)
  end.

Definition gt (x y : number) : bool := lt y x.

(** [x === y] on numbers. *)
Definition eqb (x y : number) : bool :=
  match x, y with
  | Fin a, Fin b => Qeq_bool a b
  | Inf s, Inf t => Bool.eqb s t
  | _, _ => false
  end.

(** Truthiness of a number: everything but [NaN] and zero. *)
Definition truthy (x : number) : bool :=
  match x with
  | NaN => false
  | Fin q => negb (isZero q)
  | Inf _ => true
  end.

(** [x || y] on numbers. *)
Definition or (x y : number) : number := if truthy x then x else y.

Definition floor (x : number) : number :=
  match x with Fin q => ofZ (Qfloor q) | _ => x end.

Definition ceil (x : number) : number :=
  match x with Fin q => ofZ (Qceiling q) | _ => x end.

(** ToLength, the conversion of a length argument.  Lengths are unbounded
    here: the cap at 2^53 - 1 only shows for an infinite argument. *)
Definition toLength (x : number) : Z :=
  match x with
  | NaN | Inf true => 0
  | Inf false => 2 ^ 53 - 1
  | Fin q => Z.max 0 (if isNeg q then Qceiling q else Qfloor q)
  end.

(** [x % y]: the remainder of the division truncated towards zero. *)
Definition rem (x y : number) : number :=
  match x, y with
  | Fin a, Fin b =>
      if isZero b then NaN
      else let t := (a / b)%Q in
           Fin (Qred (a - b * inject_Z (if isNeg t then Qceiling t else Qfloor t)))
  | Fin a, Inf _ => Fin a
  | _, _ => NaN
  end.

End Num.

(** ** Conversions between strings and numbers *)

Module Conv.
Import Str.

Definition digitVal (c : ascii) : Z := Z.of_N (code c) - 48.

(** The longest run of decimal digits at the head of [s]: its value (on top
    of [acc]), the number of digits read and the rest of the string. *)
Fixpoint digits (s : string) (acc : Z) (n : nat) : Z * nat * string :=
  match s with
  | String c s' =>
      if isDigit c then digits s' (10 * acc + digitVal c) (S n) else (acc, n, s)
  | EmptyString => (acc, n, s)
  end.

Definition sign (s : string) : bool * string :=
  match s with
  | String "-" s' => (true, s')
  | String "+" s' => (false, s')
  | _ => (false, s)
  end.

Definition signed (negative : bool) (v : Z) : Z := if negative then - v else v.

(** [parseInt(s, 10)], before rounding. *)
Definition parseInt (s : string) : number :=
  let '(negative, body) := sign (trimStart s) in
  let '(v, n, _) := digits body 0 0 in
  match n with
  | O => NaN
  | S _ => ofZ (signed negative v)
  end.

(** The value [m * 10^k], in lowest terms. *)
Definition scale10 (m k : Z) : Q :=
  Qred (if 0 <=? k then inject_Z (m * 10 ^ k) else Qmake m (Z.to_pos (10 ^ (- k)))).

(** An optional ExponentPart at the head of [s]. *)
Definition exponent (s : string) : Z * string :=
  match s with
  | String c s' =>
      if (Ascii.eqb c "e" || Ascii.eqb c "E")%bool then
        let '(negative, body) := sign s' in
        let '(v, n, rest) := digits body 0 0 in
        match n with
        | O => (0, s)
        | S _ => (signed negative v, rest)
        end
      else (0, s)
  | EmptyString => (0, s)
  end.

Fixpoint stripPrefix (p s : string) : option string :=
  match p, s with
  | EmptyString, _ => Some s
  | String a p', String b s' => if Ascii.eqb a b then stripPrefix p' s' else None
  | String _ _, EmptyString => None
  end.

(** The longest prefix of [s] that is a StrUnsignedDecimalLiteral, with
    the rest of the string. *)
Definition unsignedDecimal (s : string) : option (number * string) :=
  match stripPrefix "Infinity" s with
  | Some rest => Some (Inf false, rest)
  | None =>
      let '(ip, ni, r1) := digits s 0 0 in
      match r1 with
      | String "." r2 =>
          let '(m, nf, r3) := digits r2 ip 0 in
          match ni, nf with
          | O, O => None
          | _, _ =>
              let '(e, rest) := exponent r3 in
              Some (Fin (scale10 m (e - Z.of_nat nf)), rest)
          end
      | _ =>
          match ni with
          | O => None
          | S _ =>
              let '(e, rest) := exponent r1 in
              Some (Fin (scale10 ip e), rest)
          end
      end
  end.

(** The longest prefix of [s] that is a StrDecimalLiteral. *)
Definition decimal (s : string) : option (number * string) :=
  let '(negative, body) := sign s in
  match unsignedDecimal body with
  | Some (v, rest) => Some (if negative then Num.neg v else v, rest)
  | None => None
  end.

(** [parseFloat(s)], before rounding. *)
Definition parseFloat (s : string) : number :=
  match decimal (trimStart s) with
  | Some (v, _) => v
  | None => NaN
  end.

Definition radixVal (radix : Z) (c : ascii) : option Z :=
  let n := Z.of_N (code c) in
  let v := if (48 <=? n) && (n <=? 57) then n - 48
           else if (97 <=? n) && (n <=? 102) then n - 87
           else if (65 <=? n) && (n <=? 70) then n - 55
           else radix in
  if v <? radix then Some v else None.

(** A whole string of digits in the given radix; [None] when a character
    is not such a digit or the string is empty. *)
Fixpoint radixDigits (radix : Z) (s : string) (acc : Z) (n : nat) : option Z :=
  match s with
  | String c s' =>
      match radixVal radix c with
      | Some v => radixDigits radix s' (radix * acc + v) (S n)
      | None => None
      end
  | EmptyString => match n with O => None | S _ => Some acc end
  end.

Definition nonDecimal (s : string) : option (option Z) :=
  match s with
  | String "0" (String c body) =>
      if (Ascii.eqb c "x" || Ascii.eqb c "X")%bool then Some (radixDigits 16 body 0 0)
      else if (Ascii.eqb c "o" || Ascii.eqb c "O")%bool then Some (radixDigits 8 body 0 0)
      else if (Ascii.eqb c "b" || Ascii.eqb c "B")%bool then Some (radixDigits 2 body 0 0)
      else None
  | _ => None
  end.

(** [Number(s)] on a string, before rounding. *)
Definition Number (s : string) : number :=
  let t := trim s in
  match t with
  | EmptyString => ofZ 0
  | _ =>
      match nonDecimal t with
      | Some (Some v) => ofZ v
      | Some None => NaN
      | None =>
          match decimal t with
          | Some (v, EmptyString) => v
          | _ => NaN
          end
      end
  end.

Definition decimalOfZ (z : Z) : string := NilZero.string_of_int (Z.to_int z).

Definition digitChar (d : Z) : ascii := ascii_of_N (Z.to_N (48 + d)).

(** The digits after the decimal point of [r / d], for [0 <= r < d]. *)
Fixpoint fraction (n : nat) (r d : Z) : string :=
  match n with
  | O => EmptyString
  | S n' =>
      if r =? 0 then EmptyString
      else String (digitChar (10 * r / d)) (fraction n' ((10 * r) mod d) d)
  end.

(** [String(x)] on a number.  An integer is printed in decimal; another
    rational by its decimal expansion, cut after 17 places.  The exponent
    notation of magnitudes from 10^21 and below 10^-6 is left out. *)
Definition toString (x : number) : string :=
  match x with
  | NaN => "NaN"
  | Inf false => "Infinity"
  | Inf true => "-Infinity"
  | Fin q =>
      let r := Qred q in
      let n := Qnum r in
      let d := Zpos (Qden r) in
      if d =? 1 then decimalOfZ n
      else (if n <? 0 then "-" else "") +:+ decimalOfZ (Z.abs n / d) +:+ "."
           +:+ fraction 17 (Z.abs n mod d) d
  end.

End Conv.

Import Conv.

(** ** Effects *)

(** What the script does to the page and to the libraries, one constructor
    per kind of call, and the points at which a handler waits: [doc.svg]
    returns a promise, and [awaited] marks an [await] on it. *)
Inductive event : Type :=
| alert (message : string)
| console_error (message : string)
| console_warn (message : string)
| canvas_clear
| canvas_placeholder
| canvas_append (code : string)
| item_invalid (code : string)
| barcode (code : string)
| jsPDF_new (landscape : bool) (format : option (number * number))
| doc_addPage
| doc_svg (code : string) (x y width height : number)
| awaited
| doc_setFontSize (size : Z)
| doc_text (text : string) (x y : number)
| doc_save (name : string)
| zip_file (name : string) (code : string)
| zip_download (name : string).

Inductive completion (A : Type) : Type :=
| Returned (a : A)
| Thrown (what : string)
| Diverged.

Arguments Returned {A} a.
Arguments Thrown {A} what.
Arguments Diverged {A}.

(** A run: the calls made so far and how the run ended. *)
Definition run (A : Type) : Type := (list event * completion A)%type.

Module Run.

Definition ret {A} (a : A) : run A := ([], Returned a).

Definition bind {A B} (m : run A) (k : A -> run B) : run B :=
  match m with
  | (t, Returned a) => let '(t', c) := k a in (t ++ t', c)
  | (t, Thrown e) => (t, Thrown e)
  | (t, Diverged) => (t, Diverged)
  end.

Definition emit (e : event) : run unit := ([e], Returned tt).

Definition throw {A} (what : string) : run A := ([], Thrown what).

Definition diverge {A} : run A := ([], Diverged).

(** [try { m } catch (e) { handler }]. *)
Definition tryCatch {A} (m : run A) (handler : string -> run A) : run A :=
  match m with
  | (t, Thrown e) => let '(t', c) := handler e in (t ++ t', c)
  | _ => m
  end.

(** [items.forEach((item, index) => f)], the index counted from [i]. *)
Fixpoint forEach {A} (items : list A) (i : nat) (f : A -> nat -> run unit) : run unit :=
  match items with
  | [] => ret tt
  | item :: items' => bind (f item i) (fun _ => forEach items' (S i) f)
  end.

(** [items.slice(from, to)]. *)
Definition slice {A} (items : list A) (from to : nat) : list A :=
  firstn (to - from) (skipn from items).

End Run.

Import Run.

Notation "x <~ m ;; k" := (bind m (fun x => k))
  (at level 100, m at next level, right associativity).
Notation "m ;; k" := (bind m (fun _ => k))
  (at level 100, right associativity).

(** ** The script *)

(** The [value] of each input element of the form. *)
Record elements : Type := {
  prefix : string;
  startVal : string;
  endVal : string;
  suffix : string;
  increment : string;
  pageWidth : string;
  pageHeight : string;
  barcodeWidth : string;
  barcodeHeight : string;
  moveX : string;
  moveY : string;
  gapHorizontal : string;
  gapVertical : string;
  manualData : string;
  processTextInput : string
}.

Definition newline : ascii := "010".
Definition dquote : string := String "034" EmptyString.

(** [for (let i = start; i <= end; i += inc) codes.push(body(i))], the shape
    of both generation loops. *)
Fixpoint pushLoop (fuel : nat) (body : number -> string)
    (i end_ inc : number) (codes : list string) : run (list string) :=
  match fuel with
  | O => diverge
  | S fuel' =>
      if Num.le i end_
      then pushLoop fuel' body (Num.add i inc) end_ inc (codes ++ [body i])
      else ret codes
  end.

Definition generateBarcodeData (fuel : nat) (el : elements) : run (list string) :=
  let start := parseInt (startVal el) in
  let end_ := parseInt (endVal el) in
  let inc := Num.or (parseInt (increment el)) (ofZ 1) in
  if (Num.isNaN start || Num.isNaN end_ || Num.isNaN inc)%bool then
    emit (alert "Please ensure Start, End, and Increment are valid numbers.") ;;
    ret []
  else
    pushLoop fuel (fun i => prefix el +:+ toString i +:+ suffix el) start end_ inc [].

Definition getCodesFromManualEntry (el : elements) : list string :=
  List.filter Str.truthy (map Str.trim (Str.split newline (manualData el))).

(** The parameter block of [handleProcessText]: each line is cut at its first
    colon into a lower-case trimmed key and a trimmed value; a later line
    overwrites an earlier one with the same key. *)
Definition paramLine (acc : gmap string string) (line : string) : gmap string string :=
  match Str.split ":" line with
  | key :: valueParts =>
      if (Str.truthy key && (0 <? length valueParts)%nat)%bool
      then <[Str.toLowerCase (Str.trim key) := Str.trim (Str.join ":" valueParts)]> acc
      else acc
  | [] => acc
  end.

Definition parseParams (inputText : string) : gmap string string :=
  fold_left paramLine (Str.split newline inputText) ∅.

(** [params.key || ''] and [params.key ? f(params.key) : dflt]. *)
Definition paramOr (params : gmap string string) (key : string) : string :=
  match params !! key with
  | Some v => v
  | None => ""
  end.

Definition paramIf {A} (params : gmap string string) (key : string)
    (f : string -> A) (dflt : A) : A :=
  match params !! key with
  | Some v => if Str.truthy v then f v else dflt
  | None => dflt
  end.

Definition rangeOf (params : gmap string string) : list number :=
  paramIf params "range" (fun v => map Number (Str.split "-" v)) [].

Definition incrementOf (params : gmap string string) : number :=
  paramIf params "increment" parseInt (ofZ 1).

Definition paddingOf (params : gmap string string) : number :=
  paramIf params "padding" parseInt (ofZ 0).

(** The check [range.length !== 2 || isNaN(range[0]) || isNaN(range[1])]. *)
Definition rangeInvalid (range : list number) : bool :=
  match range with
  | [a; b] => (Num.isNaN a || Num.isNaN b)%bool
  | _ => true
  end.

(** The number part of a generated code. *)
Definition numberPart (padding i : number) : string :=
  if Num.gt padding (ofZ 0)
  then Str.padStart (toString i) (Num.toLength padding) "0"
  else toString i.

(** The form after a successful run of [handleProcessText]: new manual data
    and a new parameter text, the other fields as they were. *)
Definition written (el : elements) (manual text : string) : elements :=
  {| prefix := prefix el; startVal := startVal el; endVal := endVal el;
     suffix := suffix el; increment := increment el;
     pageWidth := pageWidth el; pageHeight := pageHeight el;
     barcodeWidth := barcodeWidth el; barcodeHeight := barcodeHeight el;
     moveX := moveX el; moveY := moveY el;
     gapHorizontal := gapHorizontal el; gapVertical := gapVertical el;
     manualData := manual; processTextInput := text |}.

Definition handleProcessText (fuel : nat) (el : elements) : run elements :=
  let inputText := Str.trim (processTextInput el) in
  if negb (Str.truthy inputText) then
    emit (alert "Please enter processing parameters.") ;; ret el
  else
    let params := parseParams inputText in
    let prefix := paramOr params "prefix" in
    let suffix := paramOr params "suffix" in
    let range := rangeOf params in
    let increment := incrementOf params in
    let padding := paddingOf params in
    if rangeInvalid range then
      emit (alert "Invalid range. Please use the format: range: 1-100") ;; ret el
    else
      let start := nth 0 range NaN in
      let end_ := nth 1 range NaN in
      if Num.gt start end_ then
        emit (alert "Start of range cannot be greater than end.") ;; ret el
      else if (Num.isNaN increment || Num.lt increment (ofZ 1))%bool then
        emit (alert "Increment must be a positive number.") ;; ret el
      else if (Num.isNaN padding || Num.lt padding (ofZ 0))%bool then
        emit (alert "Padding must be a non-negative number.") ;; ret el
      else
        generatedCodes <~
          pushLoop fuel (fun i => prefix +:+ numberPart padding i +:+ suffix)
            start end_ increment [] ;;
        let existingData := Str.trim (manualData el) in
        ret (written el
               ((if Str.truthy existingData
                 then existingData +:+ String newline EmptyString else "")
                +:+ Str.join (String newline EmptyString) generatedCodes)
               "").

(** *** The handlers that draw

    The libraries are parameters: which codes the CODE128 encoder accepts,
    the size of the A4 page of the document composer, the clock behind the
    file names and whether the archive can be built. *)
Section Handlers.

Variable valid : string -> bool.
Variable pageSize : number * number.
Variable now : Z.
Variable archiveFails : bool.

(** [JsBarcode(svg, code, options)]: draws, or throws on a code that the
    symbology cannot encode. *)
Definition JsBarcode (code : string) : run unit :=
  if valid code then emit (barcode code)
  else throw (dquote +:+ code +:+ dquote +:+ " is not a valid input for CODE128").

Definition handlePreview (fuel : nat) (el : elements) : run unit :=
  codes <~ generateBarcodeData fuel el ;;
  emit canvas_clear ;;
  if (length codes =? 0)%nat then emit canvas_placeholder
  else
    forEach (firstn 10 codes) 0 (fun code _ =>
      emit (canvas_append code) ;;
      tryCatch (JsBarcode code) (fun e =>
        emit (console_error
                ("Failed to generate barcode for " +:+ dquote +:+ code +:+ dquote +:+ ":")) ;;
        emit (item_invalid code))).

(** One code of a page of the standard export, at column [j]. *)
Definition standardItem (pH bW bH mX mY gH gV : number) (code : string) (j : nat)
    : run unit :=
  JsBarcode code ;;
  let x := Num.add mX (Num.mul (ofNat j) gH) in
  let topY := Num.sub (Num.sub (Num.sub pH mY) bH) (ofZ 15) in
  let bottomY := Num.sub topY gV in
  emit (doc_svg code x topY bW bH) ;; emit awaited ;;
  emit (doc_svg code x bottomY bW bH) ;; emit awaited ;;
  let textX := Num.add x (Num.div bW (ofZ 2)) in
  emit (doc_setFontSize 9) ;;
  emit (doc_text code textX (Num.add (Num.add topY bH) (ofZ 10))) ;;
  emit (doc_text code textX (Num.add (Num.add bottomY bH) (ofZ 10))).

(** [for (let i = 0; i < codes.length; i += 3)]. *)
Fixpoint standardPages (fuel : nat) (pH bW bH mX mY gH gV : number)
    (codes : list string) (i : nat) : run unit :=
  match fuel with
  | O => diverge
  | S fuel' =>
      if (i <? length codes)%nat then
        (if (0 <? i)%nat then emit doc_addPage else ret tt) ;;
        let rowCodes := slice codes i (i + 3) in
        forEach rowCodes 0 (standardItem pH bW bH mX mY gH gV) ;;
        standardPages fuel' pH bW bH mX mY gH gV codes (i + 3)
      else ret tt
  end.

Definition handleStandardPdfExport (fuel : nat) (el : elements) : run unit :=
  codes <~ generateBarcodeData fuel el ;;
  if (length codes =? 0)%nat then emit (alert "No barcodes to export.")
  else
    let pW := Num.mul (parseFloat (pageWidth el)) (ofZ 72) in
    let pH := Num.mul (parseFloat (pageHeight el)) (ofZ 72) in
    let bW := parseFloat (barcodeWidth el) in
    let bH := parseFloat (barcodeHeight el) in
    let mX := Num.mul (parseFloat (moveX el)) (ofZ 72) in
    let mY := Num.mul (parseFloat (moveY el)) (ofZ 72) in
    let gH := parseFloat (gapHorizontal el) in
    let gV := parseFloat (gapVertical el) in
    if existsb Num.isNaN [pW; pH; bW; bH; mX; mY; gH; gV] then
      emit (alert "Please ensure all layout settings are valid numbers.")
    else
      emit (jsPDF_new (Num.gt pW pH) (Some (pW, pH))) ;;
      standardPages fuel pH bW bH mX mY gH gV codes 0 ;;
      emit (doc_save ("barcodes-standard-" +:+ decimalOfZ now +:+ ".pdf")).

(** One code of a page of the united export, at slot [i] of its page.  The
    call of [doc.svg] is not awaited here. *)
Definition unitedItem (margin colWidth rowHeight barcodeWidth barcodeHeight : number)
    (code : string) (i : nat) : run unit :=
  let row := Num.floor (Num.div (ofNat i) (ofZ 4)) in
  let col := Num.rem (ofNat i) (ofZ 4) in
  let x := Num.add (Num.add margin (Num.mul col colWidth))
             (Num.div (Num.sub colWidth barcodeWidth) (ofZ 2)) in
  let y := Num.add (Num.add margin (Num.mul row rowHeight))
             (Num.div (Num.sub rowHeight barcodeHeight) (ofZ 2)) in
  JsBarcode code ;;
  emit (doc_svg code x y barcodeWidth barcodeHeight).

(** [for (let p = 0; p < numPages; p++)]. *)
Fixpoint unitedPages (fuel : nat) (margin : number) (barcodesPerPage : nat)
    (numPages : number) (codes : list string) (p : nat) : run unit :=
  match fuel with
  | O => diverge
  | S fuel' =>
      if Num.lt (ofNat p) numPages then
        (if (0 <? p)%nat then emit doc_addPage else ret tt) ;;
        let pageCodes := slice codes (p * barcodesPerPage) ((p + 1) * barcodesPerPage) in
        let effectivePageWidth := Num.sub (fst pageSize) (Num.mul (ofZ 2) margin) in
        let effectivePageHeight := Num.sub (snd pageSize) (Num.mul (ofZ 2) margin) in
        let colWidth := Num.div effectivePageWidth (ofZ 4) in
        let rowHeight := Num.div effectivePageHeight (ofZ 5) in
        let barcodeWidth := Num.mul colWidth (Fin (4 # 5)) in
        let barcodeHeight := Num.mul rowHeight (Fin (1 # 2)) in
        forEach pageCodes 0 (unitedItem margin colWidth rowHeight barcodeWidth barcodeHeight) ;;
        unitedPages fuel' margin barcodesPerPage numPages codes (S p)
      else ret tt
  end.

Definition handleUnitedPdfExport (fuel : nat) (el : elements) : run unit :=
  let codes := getCodesFromManualEntry el in
  if (length codes =? 0)%nat then emit (alert "Please enter barcode data for PDF export.")
  else
    emit (jsPDF_new false None) ;;
    let margin := ofZ 72 in
    let barcodesPerPage := 20%nat in
    let numPages := Num.ceil (Num.div (ofNat (length codes)) (ofNat barcodesPerPage)) in
    unitedPages fuel margin barcodesPerPage numPages codes 0 ;;
    emit (doc_save ("barcodes-manual-" +:+ decimalOfZ now +:+ ".pdf")).

Definition handleSvgZipExport (el : elements) : run unit :=
  let codes := getCodesFromManualEntry el in
  if (length codes =? 0)%nat then emit (alert "Please enter barcode data for SVG export.")
  else
    forEach codes 0 (fun code _ =>
      tryCatch (JsBarcode code ;;
           let safeFilename := Str.toLowerCase (Str.sanitize code) in
           emit (zip_file (safeFilename +:+ ".svg") code))
          (fun e =>
             emit (console_warn
                     ("Could not generate barcode for " +:+ dquote +:+ code +:+ dquote
                      +:+ ", skipping.")))) ;;
    tryCatch (if archiveFails then throw "generateAsync"
         else emit (zip_download ("barcodes-svg-" +:+ decimalOfZ now +:+ ".zip")))
        (fun error =>
           emit (console_error "Error creating ZIP file:") ;;
           emit (alert "Failed to create ZIP file. See console for details.")).

End Handlers.

(** *** The page when it is ready

    The listener of [DOMContentLoaded] looks for the three libraries and
    then ties each button to its handler. *)

(** How a name stands in the global scope: never declared (the script that
    defines it did not run), declared without a value, or holding one. *)
Inductive binding : Type :=
| undeclared
| undefined
| defined.

(** The handlers, by name. *)
Inductive handler : Type :=
| onPreview
| onStandardPdfExport
| onUnitedPdfExport
| onSvgZipExport
| onProcessText.

(** The page: the names of the libraries (for [jspdf] the property of
    [window], which reads as undefined when it is missing) and the ids that
    [getElementById] finds. *)
Record page : Type := {
  global_JsBarcode : binding;
  window_jspdf : binding;
  global_JSZip : binding;
  hasElement : string -> bool
}.

(** The value of a global name, as far as [typeof] tells: whether it is
    defined.  Reading a name that was never declared throws. *)
Definition identifier (name : string) (b : binding) : run bool :=
  match b with
  | undeclared => throw ("ReferenceError: " +:+ name +:+ " is not defined")
  | undefined => ret false
  | defined => ret true
  end.

(** The value of a property of [window]. *)
Definition property (b : binding) : bool :=
  match b with
  | defined => true
  | _ => false
  end.

(** [const libs = { JsBarcode, jsPDF: window.jspdf, JSZip }], each library
    with whether its value is defined. *)
Definition libs (p : page) : run (list (string * bool)) :=
  jsBarcode <~ identifier "JsBarcode" (global_JsBarcode p) ;;
  let jsPDF := property (window_jspdf p) in
  jsZip <~ identifier "JSZip" (global_JSZip p) ;;
  ret [("JsBarcode", jsBarcode); ("jsPDF", jsPDF); ("JSZip", jsZip)].

(** [for (const libName in libs)]: [true] when the loop ends, [false] when
    it returns from the listener. *)
Fixpoint checkLibs (entries : list (string * bool)) : run bool :=
  match entries with
  | [] => ret true
  | (libName, loaded) :: entries' =>
      if loaded then checkLibs entries'
      else
        emit (console_error (libName +:+ " library is not loaded.")) ;;
        emit (alert ("A critical library (" +:+ libName
                     +:+ ") failed to load. Please refresh the page.")) ;;
        ret false
  end.

(** The five calls [getEl(id).addEventListener('click', handler)], in the
    order of the script. *)
Definition clicks : list (string * handler) :=
  [ ("generate-preview-btn", onPreview);
    ("export-pdf-btn", onStandardPdfExport);
    ("export-united-pdf-btn", onUnitedPdfExport);
    ("export-svg-btn", onSvgZipExport);
    ("process-text-btn", onProcessText) ].

(** The listeners added so far and the run: [getEl(id)] is [null] for an id
    that the document does not hold, and the call on it throws. *)
Fixpoint addEventListeners (hasElement : string -> bool) (wanted added : list (string * handler))
    : list (string * handler) * run unit :=
  match wanted with
  | [] => (added, ret tt)
  | (id, h) :: wanted' =>
      if hasElement id then addEventListeners hasElement wanted' (added ++ [(id, h)])
      else (added, throw ("TypeError: " +:+ id +:+ " is null"))
  end.

(** The page after the listener: the click listeners it has added, and
    whether it went as far as the two function constants
    [generateBarcodeData] and [getCodesFromManualEntry], which the script
    declares with [const] below the lines that tie the buttons. *)
Record ready : Type := {
  added : list (string * handler);
  constants : bool
}.

(** The listener of [DOMContentLoaded]: the page it leaves and its run. *)
Definition onDOMContentLoaded (p : page) : ready * run unit :=
  match (entries <~ libs p ;; checkLibs entries) with
  | (t, Returned true) =>
      let '(listeners, (t', c)) := addEventListeners (hasElement p) clicks [] in
      ({| added := listeners;
          constants := match c with Returned _ => true | _ => false end |},
       (t ++ t', c))
  | (t, Returned false) => ({| added := []; constants := false |}, (t, Returned tt))
  | (t, Thrown e) => ({| added := []; constants := false |}, (t, Thrown e))
  | (t, Diverged) => ({| added := []; constants := false |}, (t, Diverged))
  end.

(** *** Clicks *)

Section Clicks.

Variable valid : string -> bool.
Variable pageSize : number * number.
Variable now : Z.
Variable archiveFails : bool.

(** A call of a function constant that the listener did not reach. *)
Definition uninitialised (name : string) : run elements :=
  throw ("ReferenceError: Cannot access '" +:+ name +:+ "' before initialization").

(** The run of a handler and the form it leaves.  The first statement of
    each handler but the text processor calls one of the two function
    constants. *)
Definition handle (constants : bool) (h : handler) (fuel : nat) (el : elements)
    : run elements :=
  match h with
  | onPreview =>
      if constants then (handlePreview valid fuel el ;; ret el)
      else uninitialised "generateBarcodeData"
  | onStandardPdfExport =>
      if constants then (handleStandardPdfExport valid now fuel el ;; ret el)
      else uninitialised "generateBarcodeData"
  | onUnitedPdfExport =>
      if constants then (handleUnitedPdfExport valid pageSize now fuel el ;; ret el)
      else uninitialised "getCodesFromManualEntry"
  | onSvgZipExport =>
      if constants then (handleSvgZipExport valid now archiveFails el ;; ret el)
      else uninitialised "getCodesFromManualEntry"
  | onProcessText => handleProcessText fuel el
  end.

(** A click on the element [id]: the listener added for it runs, if there
    is one (the script adds at most one to an element). *)
Definition click (r : ready) (id : string) (fuel : nat) (el : elements) : run elements :=
  match List.find (fun l => String.eqb (fst l) id) (added r) with
  | Some (_, h) => handle (constants r) h fuel el
  | None => ret el
  end.

End Clicks.

(** ** Double precision

    The numbers of the script are IEEE 754 doubles: the engine rounds the
    result of every operation and of every conversion from a string to the
    nearest double.  [Num] and [Conv] compute the exact results; this module
    gives the rounding, the operations and conversions with it, and the
    generation loop and the two generators as the engine runs them.  The
    two arithmetics agree on integers of magnitude up to 2^53. *)

Module Double.

(** [n / d] rounded to the nearest integer, a tie to the even one, for
    [0 <= n] and [0 < d]. *)
Definition nearest (n d : Z) : Z :=
  let f := n / d in
  match 2 * (n mod d) ?= d with
  | Lt => f
  | Eq => if Z.even f then f else f + 1
  | Gt => f + 1
  end.

(** The exponent [e] of the binade of [n / d]: [2^e <= n / d < 2^(e + 1)]. *)
Definition binade (n d : positive) : Z :=
  let c := Z.log2 (Zpos n) - Z.log2 (Zpos d) in
  let reached := if 0 <=? c then Zpos d * 2 ^ c <=? Zpos n
                 else Zpos d <=? Zpos n * 2 ^ (- c) in
  if reached then c else c - 1.

(** The value [m * 2^k], in lowest terms. *)
Definition scale2 (m k : Z) : Q :=
  Qred (if 0 <=? k then inject_Z (m * 2 ^ k) else Qmake m (Z.to_pos (2 ^ (- k)))).

(** The double nearest to [n / d], with the given sign: a multiple of [2^k],
    where [k] leaves 53 bits to the significand and is at least -1074; from
    [2^1024] on the result is an infinity. *)
Definition nearestDouble (negative : bool) (n d : positive) : number :=
  let k := Z.max (binade n d - 52) (- 1074) in
  let m := if 0 <=? k then nearest (Zpos n) (Zpos d * 2 ^ k)
           else nearest (Zpos n * 2 ^ (- k)) (Zpos d) in
  if (0 <=? k) && (2 ^ 1024 <=? m * 2 ^ k) then Inf negative
  else Fin (scale2 (if negative then - m else m) k).

Definition round (q : Q) : number :=
  match Qnum q with
  | Z0 => Fin 0
  | Zpos n => nearestDouble false n (Qden q)
  | Zneg n => nearestDouble true n (Qden q)
  end.

(** The number as the engine holds it. *)
Definition fl (x : number) : number :=
  match x with
  | Fin q => round q
  | _ => x
  end.

Definition add (x y : number) : number := fl (Num.add x y).
Definition sub (x y : number) : number := fl (Num.sub x y).
Definition mul (x y : number) : number := fl (Num.mul x y).
Definition div (x y : number) : number := fl (Num.div x y).

Definition parseInt (s : string) : number := fl (Conv.parseInt s).
Definition parseFloat (s : string) : number := fl (Conv.parseFloat s).
Definition Number (s : string) : number := fl (Conv.Number s).

(** [for (let i = start; i <= end; i += inc) codes.push(body(i))]. *)
Fixpoint pushLoop (fuel : nat) (body : number -> string)
    (i end_ inc : number) (codes : list string) : run (list string) :=
  match fuel with
  | O => diverge
  | S fuel' =>
      if Num.le i end_
      then pushLoop fuel' body (add i inc) end_ inc (codes ++ [body i])
      else ret codes
  end.

Definition generateBarcodeData (fuel : nat) (el : elements) : run (list string) :=
  let start := parseInt (startVal el) in
  let end_ := parseInt (endVal el) in
  let inc := Num.or (parseInt (increment el)) (ofZ 1) in
  if (Num.isNaN start || Num.isNaN end_ || Num.isNaN inc)%bool then
    emit (alert "Please ensure Start, End, and Increment are valid numbers.") ;;
    ret []
  else
    pushLoop fuel (fun i => prefix el +:+ toString i +:+ suffix el) start end_ inc [].

Definition rangeOf (params : gmap string string) : list number :=
  paramIf params "range" (fun v => map Number (Str.split "-" v)) [].

Definition incrementOf (params : gmap string string) : number :=
  paramIf params "increment" parseInt (ofZ 1).

Definition paddingOf (params : gmap string string) : number :=
  paramIf params "padding" parseInt (ofZ 0).

Definition handleProcessText (fuel : nat) (el : elements) : run elements :=
  let inputText := Str.trim (processTextInput el) in
  if negb (Str.truthy inputText) then
    emit (alert "Please enter processing parameters.") ;; ret el
  else
    let params := parseParams inputText in
    let prefix := paramOr params "prefix" in
    let suffix := paramOr params "suffix" in
    let range := rangeOf params in
    let increment := incrementOf params in
    let padding := paddingOf params in
    if rangeInvalid range then
      emit (alert "Invalid range. Please use the format: range: 1-100") ;; ret el
    else
      let start := nth 0 range NaN in
      let end_ := nth 1 range NaN in
      if Num.gt start end_ then
        emit (alert "Start of range cannot be greater than end.") ;; ret el
      else if (Num.isNaN increment || Num.lt increment (ofZ 1))%bool then
        emit (alert "Increment must be a positive number.") ;; ret el
      else if (Num.isNaN padding || Num.lt padding (ofZ 0))%bool then
        emit (alert "Padding must be a non-negative number.") ;; ret el
      else
        generatedCodes <~
          pushLoop fuel (fun i => prefix +:+ numberPart padding i +:+ suffix)
            start end_ increment [] ;;
        let existingData := Str.trim (manualData el) in
        ret (written el
               ((if Str.truthy existingData
                 then existingData +:+ String newline EmptyString else "")
                +:+ Str.join (String newline EmptyString) generatedCodes)
               "").

(** The two heights of the standard export, lines 117 and 118. *)
Definition topY (pH mY bH : number) : number := sub (sub (sub pH mY) bH) (ofZ 15).

Definition bottomY (pH mY bH gV : number) : number := sub (topY pH mY bH) gV.

End Double.

(** * The vocabulary of the properties *)

(** ** Sequences *)

(** The arithmetic progression of [n] integers from [start] in steps of
    [inc]. *)
Fixpoint progression (n : nat) (start inc : Z) : list Z :=
  match n with
  | O => []
  | S n' => start :: progression n' (start + inc) inc
  end.

(** The number of integers [start, start + inc, ...] that do not exceed
    [end_]. *)
Definition count (start end_ inc : Z) : nat := Z.to_nat ((end_ - start) / inc + 1).

(** The decimal representation of [n], with zeros on its left up to the
    width [padding]. *)
Definition pad (n padding : Z) : string :=
  Str.repeat "0" (Z.to_nat (padding - Z.of_nat (String.length (decimalOfZ n))))
  +:+ decimalOfZ n.

Definition expected (prefix suffix : string) (padding start end_ inc : Z) : list string :=
  map (fun n => prefix +:+ pad n padding +:+ suffix)
      (progression (count start end_ inc) start inc).

(** The manual data after [codes] were appended to it. *)
Definition appended (manual : string) (codes : list string) : string :=
  (if Str.truthy (Str.trim manual)
   then Str.trim manual +:+ String newline EmptyString else "")
  +:+ Str.join (String newline EmptyString) codes.

(** ** The parameter text *)

(** The constants of [handleProcessText], as functions of the form. *)
Abbreviation inputTextOf el := (Str.trim (processTextInput el)).
Abbreviation paramsOf el := (parseParams (inputTextOf el)).
Abbreviation rangeIn el := (rangeOf (paramsOf el)).
Abbreviation startOf el := (nth 0 (rangeIn el) NaN).
Abbreviation endOf el := (nth 1 (rangeIn el) NaN).
Abbreviation incrementIn el := (incrementOf (paramsOf el)).
Abbreviation paddingIn el := (paddingOf (paramsOf el)).

Abbreviation chars := list_ascii_of_string.

(** In the words of the specification: a string that reads as an integer,
    that is an optional sign and digits, and a range value made of exactly
    two such strings with a hyphen between them. *)
Definition isInteger (s : string) : bool :=
  let '(_, body) := sign (Str.trim s) in
  match digits body 0 0 with
  | (_, S _, EmptyString) => true
  | _ => false
  end.

Definition twoIntegers (v : string) : bool :=
  match Str.split "-" v with
  | [a; b] => (isInteger a && isInteger b)%bool
  | _ => false
  end.

(** ** Termination *)

(** A run on fuel terminates when some amount of fuel lets it complete. *)
Definition terminates {A} (r : nat -> run A) : Prop :=
  exists fuel, snd (r fuel) <> Diverged.

(** ** Pages *)

(** What a loop over the items of a page calls when no item throws: the
    calls of each item, in order, the index counted from [i]. *)
Fixpoint eachFrom {A} (i : nat) (items : list A) (g : A -> nat -> list event)
    : list event :=
  match items with
  | [] => []
  | item :: items' => g item i ++ eachFrom (S i) items' g
  end.

(** The items cut into pages of [n] items, in order; the last page may hold
    fewer. *)
Fixpoint chunksOf {A} (fuel n : nat) (items : list A) : list (list A) :=
  match fuel with
  | O => []
  | S fuel' =>
      match items with
      | [] => []
      | _ :: _ => firstn n items :: chunksOf fuel' n (skipn n items)
      end
  end.

Definition chunks {A} (n : nat) (items : list A) : list (list A) :=
  chunksOf (length items) n items.

(** The calls of a document of several pages: [addPage] before every page
    but the first, then the calls of the page. *)
Fixpoint pagesFrom (first : bool) (pages : list (list string))
    (g : string -> nat -> list event) : list event :=
  match pages with
  | [] => []
  | page :: pages' =>
      (if first then [] else [doc_addPage]) ++ eachFrom 0 page g
      ++ pagesFrom false pages' g
  end.

(** ** The duplicate-pair layout *)

(** The layout the specification describes, from the eight settings in
    points. *)
Definition topY (pH mY bH : number) : number :=
  Num.sub (Num.sub (Num.sub pH mY) bH) (ofZ 15).

Definition bottomY (pH mY bH gV : number) : number := Num.sub (topY pH mY bH) gV.

Definition columnX (mX gH : number) (j : nat) : number := Num.add mX (Num.mul (ofNat j) gH).

(** The calls for one code in column [j]: drawn at the top and at the bottom
    of the same column, each drawing awaited, its text under each drawing. *)
Definition pairOf (pH bW bH mX mY gH gV : number) (code : string) (j : nat) : list event :=
  let x := columnX mX gH j in
  let textX := Num.add x (Num.div bW (ofZ 2)) in
  [ barcode code;
    doc_svg code x (topY pH mY bH) bW bH; awaited;
    doc_svg code x (bottomY pH mY bH gV) bW bH; awaited;
    doc_setFontSize 9;
    doc_text code textX (Num.add (Num.add (topY pH mY bH) bH) (ofZ 10));
    doc_text code textX (Num.add (Num.add (bottomY pH mY bH gV) bH) (ofZ 10)) ].

(** The eight settings as the export reads them. *)
Definition layoutOf (el : elements) : list number :=
  [ Num.mul (parseFloat (pageWidth el)) (ofZ 72);
    Num.mul (parseFloat (pageHeight el)) (ofZ 72);
    parseFloat (barcodeWidth el);
    parseFloat (barcodeHeight el);
    Num.mul (parseFloat (moveX el)) (ofZ 72);
    Num.mul (parseFloat (moveY el)) (ofZ 72);
    parseFloat (gapHorizontal el);
    parseFloat (gapVertical el) ].

(** The eight setting fields of the form. *)
Definition layoutFields (el : elements) : list string :=
  [ pageWidth el; pageHeight el; barcodeWidth el; barcodeHeight el;
    moveX el; moveY el; gapHorizontal el; gapVertical el ].

Definition isAlert (e : event) : bool :=
  match e with alert _ => true | _ => false end.

(** ** The dense grid *)

(** The grid the specification describes: cells of a quarter of the usable
    width and a fifth of the usable height inside margins of 72 points, an
    item of 80% of the cell width and 50% of the cell height in the middle
    of its cell. *)
Definition colWidth (pageSize : number * number) : number :=
  Num.div (Num.sub (fst pageSize) (Num.mul (ofZ 2) (ofZ 72))) (ofZ 4).

Definition rowHeight (pageSize : number * number) : number :=
  Num.div (Num.sub (snd pageSize) (Num.mul (ofZ 2) (ofZ 72))) (ofZ 5).

Definition itemWidth (pageSize : number * number) : number :=
  Num.mul (colWidth pageSize) (Fin (4 # 5)).

Definition itemHeight (pageSize : number * number) : number :=
  Num.mul (rowHeight pageSize) (Fin (1 # 2)).

Definition slotX (pageSize : number * number) (col : nat) : number :=
  Num.add (Num.add (ofZ 72) (Num.mul (ofNat col) (colWidth pageSize)))
    (Num.div (Num.sub (colWidth pageSize) (itemWidth pageSize)) (ofZ 2)).

Definition slotY (pageSize : number * number) (row : nat) : number :=
  Num.add (Num.add (ofZ 72) (Num.mul (ofNat row) (rowHeight pageSize)))
    (Num.div (Num.sub (rowHeight pageSize) (itemHeight pageSize)) (ofZ 2)).

(** The calls for the code in slot [i] of its page: row [i / 4], column
    [i mod 4]. *)
Definition slotOf (pageSize : number * number) (code : string) (i : nat) : list event :=
  [ barcode code;
    doc_svg code (slotX pageSize (i mod 4)) (slotY pageSize (i / 4))
      (itemWidth pageSize) (itemHeight pageSize) ].

(** ** Codes that the encoder refuses *)

Definition refused (code : string) : string :=
  dquote +:+ code +:+ dquote +:+ " is not a valid input for CODE128".

(** What the preview and the archive export call for one code: they catch
    the refusal, report it and go on. *)
Definition previewOf (valid : string -> bool) (code : string) : list event :=
  canvas_append code
    :: (if valid code then [barcode code]
        else [console_error
                ("Failed to generate barcode for " +:+ dquote +:+ code +:+ dquote +:+ ":");
              item_invalid code]).

Definition archiveOf (valid : string -> bool) (code : string) : list event :=
  if valid code
  then [barcode code; zip_file (Str.toLowerCase (Str.sanitize code) +:+ ".svg") code]
  else [console_warn
          ("Could not generate barcode for " +:+ dquote +:+ code +:+ dquote
           +:+ ", skipping.")].

(** ** The forms and libraries of the examples *)

Definition lines (ls : list string) : string := Str.join (String newline EmptyString) ls.

(** A form with the given generator fields and empty layout fields. *)
Definition rangeForm (prefix start end_ suffix inc : string) : elements :=
  {| prefix := prefix; startVal := start; endVal := end_; suffix := suffix;
     increment := inc;
     pageWidth := ""; pageHeight := ""; barcodeWidth := ""; barcodeHeight := "";
     moveX := ""; moveY := ""; gapHorizontal := ""; gapVertical := "";
     manualData := ""; processTextInput := "" |}.

(** A form with the given manual data and parameter text only. *)
Definition textForm (manual text : string) : elements :=
  written (rangeForm "" "" "" "" "") manual text.

(** The encoder of the examples: CODE128 takes a string that is not empty,
    of code units below 128 or from 200 to 211. *)
Definition CODE128 (s : string) : bool :=
  (Str.truthy s
   && forallb (fun c => let n := Str.code c in
                        (n <? 128) || (200 <=? n) && (n <=? 211))%N (chars s))%bool.

(** The A4 page of the document composer, in points. *)
Definition a4 : number * number := (Fin (14882 # 25), Fin (84189 # 100)).

(** A letter-size form: seven labels A1 to A7. *)
Definition sevenLabels : elements :=
  {| prefix := "A"; startVal := "1"; endVal := "7"; suffix := ""; increment := "";
     pageWidth := "8.5"; pageHeight := "11"; barcodeWidth := "100"; barcodeHeight := "50";
     moveX := "0.5"; moveY := "0.5"; gapHorizontal := "150"; gapVertical := "200";
     manualData := ""; processTextInput := "" |}.

(** Twenty-five manual entries, 01 to 25. *)
Definition labels25 : elements :=
  textForm
    (lines ["01"; "02"; "03"; "04"; "05"; "06"; "07"; "08"; "09"; "10";
            "11"; "12"; "13"; "14"; "15"; "16"; "17"; "18"; "19"; "20";
            "21"; "22"; "23"; "24"; "25"]) "".


(** One label on a page whose width is given as [Infinity]. *)
Definition infinitePage : elements :=
  {| prefix := "A"; startVal := "1"; endVal := "1"; suffix := ""; increment := "";
     pageWidth := "Infinity"; pageHeight := "11"; barcodeWidth := "100";
     barcodeHeight := "50"; moveX := "0.5"; moveY := "0.5";
     gapHorizontal := "150"; gapVertical := "200";
     manualData := ""; processTextInput := "" |}.

(** The code unit 233 (e with an acute accent), which CODE128 does not take. *)
Definition eacute : string := String "233" EmptyString.

(** Manual entries whose second line cannot be encoded. *)
Definition mixedEntries : elements := textForm (lines ["A"; eacute; "B"]) "".

(** A range whose prefix cannot be encoded. *)
Definition accentedRange : elements :=
  {| prefix := eacute; startVal := "1"; endVal := "2"; suffix := ""; increment := "";
     pageWidth := "8.5"; pageHeight := "11"; barcodeWidth := "100"; barcodeHeight := "50";
     moveX := "0.5"; moveY := "0.5"; gapHorizontal := "150"; gapVertical := "200";
     manualData := ""; processTextInput := "" |}.

(** ** Manual entries *)

(** A string of white space only. *)
Definition blank (s : string) : bool := forallb Str.isWhiteSpace (chars s).

(** A string that does not begin with white space, and one that does not
    end with it. *)
Definition solidHead (s : string) : bool :=
  match s with
  | String c _ => negb (Str.isWhiteSpace c)
  | EmptyString => true
  end.

Definition solidEnd (s : string) : bool := solidHead (String.rev s).

(** A string that can stand on a line of the manual data as it is: not
    empty, no white space at either end and no line feed inside. *)
Definition isEntry (s : string) : Prop :=
  s <> "" /\ Str.trim s = s /\ ~ In newline (chars s).

(** The entries that [getCodesFromManualEntry] reads off a text. *)
Abbreviation entriesOf text :=
  (List.filter Str.truthy (map Str.trim (Str.split newline text))).

(** A string with no white space in it. *)
Definition inkOnly (s : string) : bool :=
  forallb (fun c => negb (Str.isWhiteSpace c)) (chars s).

(** ** The parameter block *)

(** Every value of the parameter block is trimmed and holds no line feed. *)
Definition tidyValues (params : gmap string string) : Prop :=
  forall key v, params !! key = Some v -> Str.trim v = v /\ ~ In newline (chars v).

(** ** What a run has done *)

(** The codes put on the canvas, the codes marked as invalid there, the
    codes the encoder has drawn, the files put in the archive and the names
    under which a document was saved or an archive offered, each in the
    order of the calls. *)
Definition shown (t : list event) : list string :=
  flat_map (fun e => match e with canvas_append code => [code] | _ => [] end) t.

Definition marked (t : list event) : list string :=
  flat_map (fun e => match e with item_invalid code => [code] | _ => [] end) t.

Definition encoded (t : list event) : list string :=
  flat_map (fun e => match e with barcode code => [code] | _ => [] end) t.

Definition archived (t : list event) : list (string * string) :=
  flat_map (fun e => match e with zip_file name code => [(name, code)] | _ => [] end) t.

Definition saved (t : list event) : list string :=
  flat_map (fun e => match e with doc_save name => [name] | _ => [] end) t.

Definition downloads (t : list event) : list string :=
  flat_map (fun e => match e with zip_download name => [name] | _ => [] end) t.

Definition alerts (t : list event) : list string :=
  flat_map (fun e => match e with alert message => [message] | _ => [] end) t.

(** The codes up to the first one that the encoder refuses, and that one. *)
Fixpoint accepted (valid : string -> bool) (codes : list string) : list string :=
  match codes with
  | [] => []
  | code :: codes' => if valid code then code :: accepted valid codes' else []
  end.

Fixpoint firstRefused (valid : string -> bool) (codes : list string) : option string :=
  match codes with
  | [] => None
  | code :: codes' => if valid code then firstRefused valid codes' else Some code
  end.

(** The name of the file of a code in the archive. *)
Definition fileName (code : string) : string :=
  Str.toLowerCase (Str.sanitize code) +:+ ".svg".

(** A lower-case letter, a digit or an underscore. *)
Definition isSafe (c : ascii) : bool :=
  let n := Str.code c in
  ((48 <=? n) && (n <=? 57) || (97 <=? n) && (n <=? 122) || (n =? 95))%N.

(** ** The page *)

(** A page with the given libraries and every button in it. *)
Definition pageWith (jsBarcode jspdf jsZip : binding) : page :=
  {| global_JsBarcode := jsBarcode; window_jspdf := jspdf; global_JSZip := jsZip;
     hasElement := fun _ => true |}.

(** The listeners of the buttons that stand before the first missing one. *)
Fixpoint wired (hasElement : string -> bool) (wanted : list (string * handler))
    : list (string * handler) :=
  match wanted with
  | [] => []
  | (id, h) :: wanted' => if hasElement id then (id, h) :: wired hasElement wanted' else []
  end.

(** A page on which no button is tied to a handler. *)
Definition nothingTied : ready := {| added := []; constants := false |}.

(** The first library, in the order JsBarcode, jsPDF, JSZip, whose value is
    not defined. *)
Definition firstMissing (p : page) : option string :=
  if negb (property (global_JsBarcode p)) then Some "JsBarcode"
  else if negb (property (window_jspdf p)) then Some "jsPDF"
  else if negb (property (global_JSZip p)) then Some "JSZip"
  else None.

(** The first button, in the order of the script, that the document does
    not hold. *)
Fixpoint firstAbsent (hasElement : string -> bool) (wanted : list (string * handler))
    : option string :=
  match wanted with
  | [] => None
  | (id, _) :: wanted' => if hasElement id then firstAbsent hasElement wanted' else Some id
  end.

(** ** What a document holds

    [doc.svg] returns a promise: the call starts a drawing, and the drawing
    is made on the page that is current when the handler next waits for it
    ([awaited]) or, when the handler does not wait, once its run is over.
    A document is followed through the calls of a run: the codes drawn on
    the pages before the current one, those drawn on the current page, the
    drawings started and not yet made, and the pages as [doc.save] wrote
    them. *)
Record document : Type := {
  before : list (list string);
  current : list string;
  pending : list string;
  output : option (list (list string))
}.

Definition blankDocument : document :=
  {| before := []; current := []; pending := []; output := None |}.

(** The pages of a document, the current one last. *)
Definition sheets (d : document) : list (list string) := before d ++ [current d].

(** The pending drawings are made, on the current page. *)
Definition settle (d : document) : document :=
  {| before := before d; current := current d ++ pending d; pending := [];
     output := output d |}.

Definition advance (d : document) (e : event) : document :=
  match e with
  | jsPDF_new _ _ => blankDocument
  | doc_addPage =>
      {| before := sheets d; current := []; pending := pending d; output := output d |}
  | doc_svg code _ _ _ _ =>
      {| before := before d; current := current d; pending := pending d ++ [code];
         output := output d |}
  | awaited => settle d
  | doc_save _ =>
      {| before := before d; current := current d; pending := pending d;
         output := Some (sheets d) |}
  | _ => d
  end.

(** The document that a run with the calls [t] leaves. *)
Definition documentOf (t : list event) : document := settle (fold_left advance t blankDocument).


(** ** Forms at the limits of the numbers *)

(** The integer 2^53 in decimal digits, and a string of 400 digits. *)
Definition two53 : string := "9007199254740992".

Definition nines : string := Str.repeat "9" 400.

(** * Properties *)

(** ** The embedding on examples *)

Example conversions :
  parseInt "  -12abc" = ofZ (-12) /\ parseInt "abc" = NaN /\ parseInt "" = NaN
  /\ Number "" = ofZ 0 /\ Number " 12 " = ofZ 12 /\ Number "0x1f" = ofZ 31
  /\ Number "1.5" = Fin (3 # 2) /\ Number "1e3" = ofZ 1000 /\ Number "12px" = NaN
  /\ Number "Infinity" = Inf false
  /\ parseFloat "8.5in" = Fin (17 # 2) /\ parseFloat "Infinity" = Inf false
  /\ parseFloat "." = NaN /\ parseFloat "-.5e1x" = ofZ (-5)
  /\ toString (ofZ (-12)) = "-12" /\ toString (Fin (5 # 2)) = "2.5".
Proof. repeat split; reflexivity. Qed.

Example string_operations :
  Str.split "-" "-5" = [""; "5"] /\ Str.split ":" "a:b:c" = ["a"; "b"; "c"]
  /\ Str.split "-" "" = [""] /\ Str.trim "  a b  " = "a b"
  /\ Str.toLowerCase "RaNge" = "range" /\ Str.padStart "7" 3 "0" = "007"
  /\ Str.padStart "1234" 3 "0" = "1234" /\ Str.sanitize "A-1 b" = "A_1_b".
Proof. repeat split; reflexivity. Qed.

(** The rounding of the engine: 2^53 + 1 is no double and a tie goes to the
    even neighbour, the sum of 0.1 and 0.2 is not 0.3, a number from 2^1024
    on is an infinity and half of the least double is zero. *)
Example rounding :
  Double.round (inject_Z (2 ^ 53 + 1)) = ofZ (2 ^ 53)
  /\ Double.round (inject_Z (2 ^ 53 + 3)) = ofZ (2 ^ 53 + 4)
  /\ Double.parseInt "9007199254740993" = ofZ (2 ^ 53)
  /\ Double.Number "0.1" = Fin (3602879701896397 # 36028797018963968)
  /\ Double.add (Double.Number "0.1") (Double.Number "0.2")
     = Fin (1351079888211149 # 4503599627370496)
  /\ Num.eqb (Double.add (Double.Number "0.1") (Double.Number "0.2")) (Double.Number "0.3")
     = false
  /\ Double.parseInt nines = Inf false /\ Double.Number "1e400" = Inf false
  /\ Double.parseFloat "-1e400" = Inf true
  /\ Double.round (inject_Z (2 ^ 1024 - 2 ^ 970)) = Inf false
  /\ Double.round (1 # 2 ^ 1074) = Fin (1 # 2 ^ 1074)
  /\ Double.round (1 # 2 ^ 1075) = Fin 0
  /\ Double.round (3 # 2 ^ 1075) = Fin (1 # 2 ^ 1073).
Proof. repeat split; vm_compute; reflexivity. Qed.

(** The examples of the specification: one code, a parameter block appended
    to the manual data, and the exports of an empty list. *)
Example single_code :
  generateBarcodeData 2 (rangeForm "A" "5" "5" "" "1") = ([], Returned ["A5"]).
Proof. reflexivity. Qed.

Example parameter_block :
  handleProcessText 4 (textForm "first" (lines ["range: 1-3"; "padding: 2"]))
  = ([], Returned (textForm (lines ["first"; "01"; "02"; "03"]) "")).
Proof. vm_compute. reflexivity. Qed.

Example nothing_to_export :
  handleStandardPdfExport CODE128 0 1 (rangeForm "A" "5" "1" "" "")
  = ([alert "No barcodes to export."], Returned tt)
  /\ handleUnitedPdfExport CODE128 a4 0 1 (textForm "" "")
     = ([alert "Please enter barcode data for PDF export."], Returned tt)
  /\ handleSvgZipExport CODE128 0 false (textForm "" "")
     = ([alert "Please enter barcode data for SVG export."], Returned tt)
  /\ handlePreview CODE128 1 (rangeForm "A" "5" "1" "" "")
     = ([canvas_clear; canvas_placeholder], Returned tt).
Proof. repeat split; vm_compute; reflexivity. Qed.

(** ** Numbers: integers *)

Lemma Qred_inject_Z (z : Z) : Qred (inject_Z z) = inject_Z z.
Proof.
  unfold Qred, inject_Z; simpl.
  pose proof (Z.ggcd_gcd z 1) as Hg.
  pose proof (Z.ggcd_correct_divisors z 1) as Hd.
  destruct (Z.ggcd z 1) as [g [a b]]; simpl in *.
  rewrite Z.gcd_1_r in Hg; subst g.
  destruct Hd as [Ha Hb].
  rewrite Z.mul_1_l in Ha, Hb. subst a b. reflexivity.
Qed.

Lemma add_ofZ (a b : Z) : Num.add (ofZ a) (ofZ b) = ofZ (a + b).
Proof.
  unfold Num.add, ofZ, Qplus'. f_equal.
  rewrite <- (Qred_inject_Z (a + b)).
  apply Qred_complete. rewrite inject_Z_plus. reflexivity.
Qed.

Lemma le_ofZ (a b : Z) : Num.le (ofZ a) (ofZ b) = (a <=? b).
Proof.
  unfold Num.le, ofZ, Qle_bool, inject_Z; simpl.
  now rewrite !Z.mul_1_r.
Qed.

Lemma lt_ofZ (a b : Z) : Num.lt (ofZ a) (ofZ b) = (a <? b).
Proof.
  unfold Num.lt. change (Num.le (Fin (inject_Z b)) (Fin (inject_Z a)))
    with (Num.le (ofZ b) (ofZ a)).
  unfold ofZ at 1 2. rewrite le_ofZ.
  destruct (Z.leb_spec b a), (Z.ltb_spec a b); simpl; try reflexivity; lia.
Qed.

Lemma toString_ofZ (z : Z) : toString (ofZ z) = decimalOfZ z.
Proof.
  unfold toString, ofZ. rewrite Qred_inject_Z. reflexivity.
Qed.

Lemma toLength_ofZ (z : Z) : 0 <= z -> Num.toLength (ofZ z) = z.
Proof.
  intros Hz. unfold Num.toLength, ofZ, Num.isNeg.
  replace (Qle_bool 0 (inject_Z z)) with true.
  - simpl negb. cbv iota. rewrite Qfloor_Z. lia.
  - symmetry. apply Qle_bool_iff. change 0%Q with (inject_Z 0).
    rewrite <- Zle_Qle. exact Hz.
Qed.

(** The exact conversion yields [NaN] or an integer; the engine rounds the
    integer, to an infinity from 2^1024 on. *)
Lemma parseInt_cases (s : string) : parseInt s = NaN \/ exists z, parseInt s = ofZ z.
Proof.
  unfold parseInt.
  destruct (sign (Str.trimStart s)) as [negative body].
  destruct (digits body 0 0) as [[v n] rest].
  destruct n; [left | right; eexists]; reflexivity.
Qed.

(** ** Numbers: rounding *)

Lemma nearest_le (n d bound : Z) : 0 < d -> n <= bound * d -> Double.nearest n d <= bound.
Proof.
  intros Hd Hn. unfold Double.nearest.
  pose proof (Z.div_mod n d ltac:(lia)) as E.
  pose proof (Z.mod_pos_bound n d Hd) as Hr.
  destruct (Z.compare_spec (2 * (n mod d)) d); [destruct (Z.even (n / d))| |]; nia.
Qed.

Lemma nearest_ge (n d bound : Z) : 0 < d -> bound * d <= n -> bound <= Double.nearest n d.
Proof.
  intros Hd Hn. unfold Double.nearest.
  pose proof (Z.div_mod n d ltac:(lia)) as E.
  pose proof (Z.mod_pos_bound n d Hd) as Hr.
  destruct (Z.compare_spec (2 * (n mod d)) d); [destruct (Z.even (n / d))| |]; nia.
Qed.

Lemma binade_reached (n d : positive) :
  0 <= Double.binade n d -> Zpos d * 2 ^ Double.binade n d <= Zpos n.
Proof.
  unfold Double.binade.
  pose proof (Z.log2_spec (Zpos n) ltac:(lia)) as [Hn _].
  pose proof (Z.log2_spec (Zpos d) ltac:(lia)) as [_ Hd].
  pose proof (Z.log2_nonneg (Zpos n)) as Hln.
  pose proof (Z.log2_nonneg (Zpos d)) as Hld.
  set (c := Z.log2 (Zpos n) - Z.log2 (Zpos d)) in *.
  destruct (Z.leb_spec 0 c) as [Hc|Hc].
  - destruct (Z.leb_spec (Zpos d * 2 ^ c) (Zpos n)) as [H|H]; [trivial|].
    intros Hc1.
    assert (E : 2 ^ Z.log2 (Zpos n) = 2 ^ Z.succ (Z.log2 (Zpos d)) * 2 ^ (c - 1)).
    { rewrite <- Z.pow_add_r by lia. f_equal. unfold c. lia. }
    assert (0 < 2 ^ (c - 1)) by (apply Z.pow_pos_nonneg; lia).
    nia.
  - destruct (Zpos d <=? Zpos n * 2 ^ (- c)); lia.
Qed.

Lemma le_scale2 (m k z : Z) :
  (if 0 <=? k then m * 2 ^ k <= z else m <= z * 2 ^ (- k)) ->
  Num.le (Fin (Double.scale2 m k)) (ofZ z) = true.
Proof.
  intros H. unfold Num.le, ofZ. apply Qle_bool_iff. unfold Double.scale2.
  rewrite Qred_correct. destruct (Z.leb_spec 0 k) as [Hk|Hk].
  - rewrite <- Zle_Qle. exact H.
  - unfold Qle, inject_Z; simpl.
    rewrite Z2Pos.id by (apply Z.pow_pos_nonneg; lia). lia.
Qed.

Lemma pow2_split (b : Z) : 53 <= b -> 2 ^ b = 2 ^ 53 * 2 ^ (b - 53).
Proof. intros Hb. rewrite <- Z.pow_add_r by lia. f_equal. lia. Qed.

(** Rounding does not cross an integer of magnitude up to 2^53. *)
Lemma nearestDouble_below (negative : bool) (n d : positive) (z : Z) :
  - 2 ^ 53 <= z <= 2 ^ 53 ->
  (if negative then - Zpos n else Zpos n) <= z * Zpos d ->
  Num.le (Double.nearestDouble negative n d) (ofZ z) = true.
Proof.
  intros Hz Hq. unfold Double.nearestDouble.
  pose proof (binade_reached n d) as Hb.
  set (b := Double.binade n d) in *.
  set (k := Z.max (b - 52) (-1074)).
  set (m := if 0 <=? k then Double.nearest (Z.pos n) (Z.pos d * 2 ^ k)
            else Double.nearest (Z.pos n * 2 ^ (- k)) (Z.pos d)).
  assert (Hbig : 1 <= k -> Zpos d * (2 ^ 53 * 2 ^ (k - 1)) <= Zpos n /\ 0 < 2 ^ (k - 1)
                          /\ 2 ^ k = 2 * 2 ^ (k - 1)).
  { intros Hk. assert (Hbk : b = k + 52) by lia.
    split; [|split].
    - replace (k - 1) with (b - 53) by lia. rewrite <- pow2_split by lia. apply Hb. lia.
    - apply Z.pow_pos_nonneg; lia.
    - rewrite <- (Z.pow_succ_r 2 (k - 1)) by lia. f_equal. lia. }
  assert (Hsmall : k < 0 -> 0 < 2 ^ (- k)) by (intros; apply Z.pow_pos_nonneg; lia).
  assert (Hm : 0 <= m).
  { unfold m. destruct (Z.leb_spec 0 k).
    - apply nearest_ge; [|lia]. assert (0 < 2 ^ k) by (apply Z.pow_pos_nonneg; lia). nia.
    - apply nearest_ge; [lia|]. specialize (Hsmall ltac:(lia)). nia. }
  destruct negative.
  - destruct ((0 <=? k) && (2 ^ 1024 <=? m * 2 ^ k))%bool; [reflexivity|].
    apply le_scale2. destruct (Z.leb_spec 0 k) as [Hk|Hk].
    + destruct (Z.eq_dec k 0) as [E|E].
      * assert (- z <= m).
        { unfold m. rewrite E. change (0 <=? 0) with true. cbv iota.
          apply nearest_ge; [lia|]. change (2 ^ 0) with 1. lia. }
        rewrite E. change (2 ^ 0) with 1. lia.
      * destruct (Hbig ltac:(lia)) as (H1 & H2 & H3).
        assert (2 ^ 52 <= m).
        { unfold m. replace (0 <=? k) with true by (symmetry; apply Z.leb_le; lia).
          apply nearest_ge; [nia|]. rewrite H3. change (2 ^ 53) with (2 ^ 52 * 2) in H1. nia. }
        rewrite H3. change (2 ^ 53) with (2 ^ 52 * 2) in Hz. nia.
    + specialize (Hsmall Hk).
      destruct (Z.le_gt_cases 0 z); [nia|].
      assert ((- z) * 2 ^ (- k) <= m); [|lia].
      unfold m. replace (0 <=? k) with false by (symmetry; apply Z.leb_gt; lia).
      apply nearest_ge; [lia|]. nia.
  - assert (P : if 0 <=? k then m * 2 ^ k <= z else m <= z * 2 ^ (- k)).
    { unfold m. destruct (Z.leb_spec 0 k) as [Hk|Hk].
      - destruct (Z.eq_dec k 0) as [E|E].
        + rewrite E. change (2 ^ 0) with 1. rewrite !Z.mul_1_r.
          apply nearest_le; lia.
        + destruct (Hbig ltac:(lia)) as (H1 & H2 & H3).
          assert (Hk1 : 2 ^ (k - 1) = 1) by nia.
          assert (Ez : z = 2 ^ 53) by nia.
          rewrite H3, Hk1, Ez. change (2 ^ 53) with (2 ^ 52 * 2).
          assert (Double.nearest (Z.pos n) (Z.pos d * (2 * 1)) <= 2 ^ 52); [|lia].
          apply nearest_le; [lia|]. rewrite Ez in Hq. change (2 ^ 53) with (2 ^ 52 * 2) in Hq. lia.
      - specialize (Hsmall Hk). apply nearest_le; [lia|]. nia. }
    destruct (Z.leb_spec 0 k) as [Hk|Hk]; cbn [andb].
    + destruct (Z.leb_spec (2 ^ 1024) (m * 2 ^ k)) as [Hover|Hover].
      * exfalso. assert (2 ^ 53 < 2 ^ 1024) by reflexivity. lia.
      * apply le_scale2. replace (0 <=? k) with true by (symmetry; apply Z.leb_le; lia).
        exact P.
    + apply le_scale2. replace (0 <=? k) with false by (symmetry; apply Z.leb_gt; lia).
      exact P.
Qed.

Lemma round_below (q : Q) (z : Z) :
  - 2 ^ 53 <= z <= 2 ^ 53 -> (q <= inject_Z z)%Q ->
  Num.le (Double.round q) (ofZ z) = true.
Proof.
  intros Hz Hq. destruct q as [n d]. unfold Qle, inject_Z in Hq; simpl in Hq.
  unfold Double.round; simpl. destruct n as [|n|n].
  - unfold Num.le, ofZ. apply Qle_bool_iff. unfold Qle, inject_Z; simpl. lia.
  - apply nearestDouble_below; [exact Hz | lia].
  - apply nearestDouble_below; [exact Hz | lia].
Qed.

Lemma scale2_opp (m k : Z) : Double.scale2 (- m) k = (- Double.scale2 m k)%Q.
Proof.
  unfold Double.scale2. rewrite <- Qred_opp. f_equal.
  destruct (0 <=? k); [|reflexivity].
  rewrite Z.mul_opp_l. reflexivity.
Qed.

Lemma round_opp (q : Q) : Double.round (- q) = Num.neg (Double.round q).
Proof.
  destruct q as [n d]. unfold Double.round; simpl. destruct n as [|n|n]; simpl.
  - reflexivity.
  - unfold Double.nearestDouble.
    destruct ((0 <=? _) && _)%bool; [reflexivity|].
    cbn [Num.neg]. now rewrite scale2_opp.
  - unfold Double.nearestDouble.
    destruct ((0 <=? _) && _)%bool; [reflexivity|].
    cbn [Num.neg]. rewrite scale2_opp.
    destruct (Double.scale2 _ _) as [a b]. unfold Qopp; simpl.
    now rewrite Z.opp_involutive.
Qed.

Lemma le_neg (x : number) (z : Z) : Num.le (Num.neg x) (ofZ (- z)) = Num.le (ofZ z) x.
Proof.
  destruct x as [|r|[]]; try reflexivity.
  unfold Num.neg, Num.le, ofZ.
  apply Bool.eq_true_iff_eq. rewrite !Qle_bool_iff, inject_Z_opp.
  split; intros H.
  - apply Qopp_le_compat in H. now rewrite !Qopp_involutive in H.
  - now apply Qopp_le_compat.
Qed.

Lemma round_above (q : Q) (z : Z) :
  - 2 ^ 53 <= z <= 2 ^ 53 -> (inject_Z z <= q)%Q ->
  Num.le (ofZ z) (Double.round q) = true.
Proof.
  intros Hz Hq. rewrite <- le_neg, <- round_opp.
  apply round_below; [lia|]. rewrite inject_Z_opp. now apply Qopp_le_compat.
Qed.

Lemma round_reduced (q r : Q) : Double.round q = Fin r -> Qred r = r.
Proof.
  unfold Double.round, Double.nearestDouble.
  destruct (Qnum q); [intros [= <-]; reflexivity| |];
    (destruct ((0 <=? _) && _)%bool; [discriminate|]);
    intros [= <-]; apply Qred_complete, Qred_correct.
Qed.

Lemma round_number (q : Q) : Num.isNaN (Double.round q) = false.
Proof.
  unfold Double.round, Double.nearestDouble.
  destruct (Qnum q); [reflexivity| |]; now destruct ((0 <=? _) && _)%bool.
Qed.

(** An integer of magnitude up to 2^53 is a double. *)
Lemma round_integer (z : Z) :
  - 2 ^ 53 <= z <= 2 ^ 53 -> Double.round (inject_Z z) = ofZ z.
Proof.
  intros Hz.
  pose proof (round_below (inject_Z z) z Hz (Qle_refl _)) as Hb.
  pose proof (round_above (inject_Z z) z Hz (Qle_refl _)) as Ha.
  destruct (Double.round (inject_Z z)) as [|r|[]] eqn:E; try discriminate.
  unfold Num.le, ofZ in Hb, Ha. apply Qle_bool_iff in Hb, Ha.
  apply round_reduced in E. unfold ofZ. f_equal.
  rewrite <- E, <- (Qred_inject_Z z). apply Qred_complete. now apply Qle_antisym.
Qed.

Lemma fl_integer (z : Z) : - 2 ^ 53 <= z <= 2 ^ 53 -> Double.fl (ofZ z) = ofZ z.
Proof. apply round_integer. Qed.

(** The engine adds two integers exactly when the sum has a magnitude up to
    2^53. *)
Lemma add_integer (a b : Z) :
  - 2 ^ 53 <= a + b <= 2 ^ 53 -> Double.add (ofZ a) (ofZ b) = ofZ (a + b).
Proof. intros H. unfold Double.add. rewrite add_ofZ. now apply fl_integer. Qed.



(** ** The generation loop *)

Lemma count_step (s e inc : Z) :
  s <= e -> 1 <= inc -> count s e inc = S (count (s + inc) e inc).
Proof.
  intros Hse Hinc. unfold count.
  replace (e - (s + inc)) with ((e - s) + (-1) * inc) by ring.
  rewrite Z.div_add by lia.
  assert (0 <= (e - s) / inc) by (apply Z.div_pos; lia).
  replace ((e - s) / inc + 1) with (Z.succ ((e - s) / inc + -1 + 1)) by lia.
  rewrite Z2Nat.inj_succ by lia. reflexivity.
Qed.

Lemma count_done (s e inc : Z) : e < s -> 1 <= inc -> count s e inc = O.
Proof.
  intros Hse Hinc. unfold count.
  assert ((e - s) / inc < 0) by (apply Z.div_lt_upper_bound; lia).
  destruct ((e - s) / inc + 1) eqn:E; try reflexivity; lia.
Qed.

Lemma count_floor (s e inc : Z) :
  s <= e -> 1 <= inc -> Z.of_nat (count s e inc) = (e - s) / inc + 1.
Proof.
  intros Hse Hinc. unfold count.
  assert (0 <= (e - s) / inc) by (apply Z.div_pos; lia).
  rewrite Z2Nat.id; lia.
Qed.

Lemma progression_length (n : nat) (s inc : Z) : length (progression n s inc) = n.
Proof.
  revert s. induction n as [|n IH]; intros s; simpl; [reflexivity|].
  now rewrite IH.
Qed.

Lemma progression_nth (n k : nat) (s inc : Z) :
  (k < n)%nat -> nth_error (progression n s inc) k = Some (s + Z.of_nat k * inc).
Proof.
  revert k s. induction n as [|n IH]; intros k s Hk; [lia|].
  destruct k as [|k]; simpl.
  - f_equal. lia.
  - rewrite IH by lia. f_equal. lia.
Qed.

(** Enough fuel lets the loop over integers return, with one code for each
    member of the progression. *)
Lemma pushLoop_sufficient (fuel : nat) (body : number -> string) (s e inc : Z)
    (acc : list string) :
  1 <= inc -> (count s e inc < fuel)%nat ->
  pushLoop fuel body (ofZ s) (ofZ e) (ofZ inc) acc
  = ([], Returned (acc ++ map (fun n => body (ofZ n)) (progression (count s e inc) s inc))).
Proof.
  intros Hinc. revert s acc.
  induction fuel as [|fuel IH]; intros s acc Hfuel; [lia|].
  cbn [pushLoop]. rewrite le_ofZ. destruct (Z.leb_spec s e) as [Hse|Hse].
  - rewrite add_ofZ. rewrite (count_step s e inc) in * by assumption.
    rewrite IH by lia. cbn [progression map]. now rewrite <- app_assoc.
  - rewrite count_done by lia. cbn [progression map]. now rewrite app_nil_r.
Qed.

Lemma or_not_NaN (x : number) : Num.isNaN (Num.or x (ofZ 1)) = false.
Proof.
  destruct x as [|q|s]; unfold Num.or; simpl; try reflexivity.
  now destruct (Num.isZero q).
Qed.

(** The form-driven generator, once its three numbers are read. *)
Lemma generateBarcodeData_loop (fuel : nat) (el : elements) (s e inc : Z) :
  parseInt (startVal el) = ofZ s -> parseInt (endVal el) = ofZ e ->
  Num.or (parseInt (increment el)) (ofZ 1) = ofZ inc ->
  generateBarcodeData fuel el
  = pushLoop fuel (fun i => prefix el +:+ toString i +:+ suffix el)
      (ofZ s) (ofZ e) (ofZ inc) [].
Proof.
  intros Hs He Hi. unfold generateBarcodeData. rewrite Hs, He, Hi. reflexivity.
Qed.

Lemma numberPart_ofZ (padding n : Z) :
  0 <= padding -> numberPart (ofZ padding) (ofZ n) = pad n padding.
Proof.
  intros Hp. unfold numberPart, Num.gt. rewrite lt_ofZ, toString_ofZ.
  destruct (Z.ltb_spec 0 padding) as [Hlt|Hge].
  - rewrite toLength_ofZ by lia. reflexivity.
  - unfold pad. replace padding with 0 by lia.
    replace (Z.to_nat (0 - Z.of_nat (String.length (decimalOfZ n)))) with O by lia.
    reflexivity.
Qed.

Lemma expected_length (p q : string) (padding s e inc : Z) :
  s <= e -> 1 <= inc ->
  Z.of_nat (length (expected p q padding s e inc)) = (e - s) / inc + 1.
Proof.
  intros Hse Hinc. unfold expected.
  rewrite length_map, progression_length. now apply count_floor.
Qed.

Lemma expected_nth (p q : string) (padding s e inc : Z) (k : nat) :
  (k < count s e inc)%nat ->
  nth_error (expected p q padding s e inc) k
  = Some (p +:+ pad (s + Z.of_nat k * inc) padding +:+ q).
Proof.
  intros Hk. unfold expected.
  rewrite nth_error_map, progression_nth by assumption. reflexivity.
Qed.

(** ** The generation loop in double precision *)

(** A number that is at least 2^53 lies above every integer below 2^53. *)
Lemma beyond_end (x : number) (e : Z) :
  e < 2 ^ 53 -> Num.le (ofZ (2 ^ 53)) x = true -> Num.le x (ofZ e) = false.
Proof.
  intros He Hx. destruct x as [|r|[]]; try discriminate; try reflexivity.
  unfold Num.le, ofZ in *. apply Qle_bool_iff in Hx.
  apply Bool.not_true_iff_false. rewrite Qle_bool_iff. intros Hr.
  assert (H : (inject_Z (2 ^ 53) <= inject_Z e)%Q) by (eapply Qle_trans; eassumption).
  rewrite <- Zle_Qle in H. lia.
Qed.

(** Between [- 2^53 <= s] and [e < 2^53] the engine runs the loop over
    integers as exact arithmetic does: every value that is at most the end
    is an exact integer, and a step that leads beyond 2^53 ends the loop in
    both. *)
Lemma pushLoop_exact (fuel : nat) (body : number -> string) (s e inc : Z)
    (acc : list string) :
  0 <= inc -> - 2 ^ 53 <= s -> e < 2 ^ 53 ->
  Double.pushLoop fuel body (ofZ s) (ofZ e) (ofZ inc) acc
  = pushLoop fuel body (ofZ s) (ofZ e) (ofZ inc) acc.
Proof.
  intros Hinc. revert s acc. induction fuel as [|fuel IH]; intros s acc Hs He; [reflexivity|].
  cbn [Double.pushLoop pushLoop]. rewrite le_ofZ. destruct (Z.leb_spec s e); [|reflexivity].
  destruct (Z.le_gt_cases (s + inc) (2 ^ 53)) as [Hsafe|Hbig].
  - rewrite add_integer, add_ofZ by lia. apply IH; lia.
  - unfold Double.add. rewrite add_ofZ.
    destruct fuel as [|fuel]; [reflexivity|].
    cbn [Double.pushLoop pushLoop]. rewrite le_ofZ.
    replace (s + inc <=? e) with false by (symmetry; apply Z.leb_gt; lia).
    rewrite beyond_end; [reflexivity | exact He |].
    apply round_above; [lia|]. rewrite <- Zle_Qle. lia.
Qed.

(** A step that leaves [i] where it is, at or below the end, never ends. *)
Lemma pushLoop_stalls (fuel : nat) (body : number -> string) (i e inc : number)
    (acc : list string) :
  Num.le i e = true -> Double.add i inc = i ->
  Double.pushLoop fuel body i e inc acc = ([], Diverged).
Proof.
  intros Hle Hadd. revert acc. induction fuel as [|fuel IH]; intros acc; [reflexivity|].
  cbn [Double.pushLoop]. rewrite Hle, Hadd. apply IH.
Qed.

(** No finite step takes [i] beyond an infinite end. *)
Lemma pushLoop_endless (fuel : nat) (body : number -> string) (i : number) (c : Q)
    (acc : list string) :
  Num.isNaN i = false ->
  Double.pushLoop fuel body i (Inf false) (Fin c) acc = ([], Diverged).
Proof.
  revert i acc. induction fuel as [|fuel IH]; intros i acc Hi; [reflexivity|].
  cbn [Double.pushLoop].
  replace (Num.le i (Inf false)) with true by (now destruct i as [|a|[]]).
  apply IH. destruct i as [|a|s]; [discriminate| |reflexivity].
  apply round_number.
Qed.

(** A negative step keeps [i] at or below an end of magnitude up to 2^53,
    also where the engine rounds. *)
Lemma pushLoop_descends (fuel : nat) (body : number -> string) (i inc : number) (e : Z)
    (acc : list string) :
  - 2 ^ 53 <= e <= 2 ^ 53 -> Num.le i (ofZ e) = true -> Num.lt inc (ofZ 0) = true ->
  Double.pushLoop fuel body i (ofZ e) inc acc = ([], Diverged).
Proof.
  intros He. revert i acc. induction fuel as [|fuel IH]; intros i acc Hi Hinc; [reflexivity|].
  cbn [Double.pushLoop]. rewrite Hi. apply IH; [|exact Hinc].
  destruct i as [|a|[]], inc as [|c|[]]; try discriminate; try reflexivity.
  unfold Double.add. cbn [Num.add Double.fl]. apply round_below; [exact He|].
  unfold Num.le, ofZ in Hi. apply Qle_bool_iff in Hi.
  unfold Num.lt, Num.le, ofZ in Hinc.
  apply Bool.negb_true_iff, Bool.not_true_iff_false in Hinc.
  rewrite Qle_bool_iff in Hinc. apply Qnot_le_lt in Hinc.
  change (inject_Z 0) with 0%Q in Hinc.
  rewrite Qplus'_correct. lra.
Qed.

(** The form-driven generator as the engine runs it, once its three numbers
    are read. *)
Lemma generateBarcodeData_double (fuel : nat) (el : elements) (s e inc : number) :
  Double.parseInt (startVal el) = s -> Double.parseInt (endVal el) = e ->
  Num.or (Double.parseInt (increment el)) (ofZ 1) = inc ->
  Num.isNaN s = false -> Num.isNaN e = false ->
  Double.generateBarcodeData fuel el
  = Double.pushLoop fuel (fun i => prefix el +:+ toString i +:+ suffix el) s e inc [].
Proof.
  intros <- <- <- Hs He. unfold Double.generateBarcodeData.
  now rewrite Hs, He, or_not_NaN.
Qed.

(** The text-driven generator as the engine runs it, once its parameters
    passed the checks. *)
Lemma handleProcessText_double (fuel : nat) (el : elements) (s e inc padding : number) :
  let params := paramsOf el in
  Str.truthy (inputTextOf el) = true ->
  Double.rangeOf params = [s; e] -> Num.isNaN s = false -> Num.isNaN e = false ->
  Num.gt s e = false ->
  Double.incrementOf params = inc -> Num.isNaN inc = false -> Num.lt inc (ofZ 1) = false ->
  Double.paddingOf params = padding -> Num.isNaN padding = false ->
  Num.lt padding (ofZ 0) = false ->
  Double.handleProcessText fuel el
  = (generatedCodes <~
       Double.pushLoop fuel
         (fun i => paramOr params "prefix" +:+ numberPart padding i
                   +:+ paramOr params "suffix") s e inc [] ;;
     ret (written el (appended (manualData el) generatedCodes) "")).
Proof.
  intros params Ht Hr Hs He Hgt Hi Hin Hil Hp Hpn Hpl.
  unfold Double.handleProcessText. fold params. rewrite Ht. cbv zeta.
  rewrite Hr, Hi, Hp. simpl rangeInvalid. simpl nth.
  rewrite Hs, He, Hgt, Hin, Hil, Hpn, Hpl. reflexivity.
Qed.

Lemma paramOr_default (params : gmap string string) (key : string) :
  paramOr params key = default "" (params !! key).
Proof. unfold paramOr. now destruct (params !! key). Qed.

Lemma codes_of_form (p q : string) (s e inc : Z) :
  map (fun n => p +:+ toString (ofZ n) +:+ q) (progression (count s e inc) s inc)
  = expected p q 0 s e inc.
Proof.
  unfold expected. apply map_ext. intros n. rewrite toString_ofZ. unfold pad.
  replace (Z.to_nat (0 - Z.of_nat (String.length (decimalOfZ n)))) with O by lia.
  reflexivity.
Qed.

(** With integers read for start, end and increment, within the range that
    the engine adds exactly, the form-driven generator returns the codes of
    the progression. *)
Lemma generateBarcodeData_double_codes (fuel : nat) (el : elements) (s e inc : Z) :
  Double.parseInt (startVal el) = ofZ s -> Double.parseInt (endVal el) = ofZ e ->
  Num.or (Double.parseInt (increment el)) (ofZ 1) = ofZ inc ->
  1 <= inc -> - 2 ^ 53 <= s -> e < 2 ^ 53 -> (count s e inc < fuel)%nat ->
  Double.generateBarcodeData fuel el
  = ([], Returned (expected (prefix el) (suffix el) 0 s e inc)).
Proof.
  intros Hs He Hi Hinc Hlow Hhigh Hfuel.
  rewrite (generateBarcodeData_double fuel el (ofZ s) (ofZ e) (ofZ inc))
    by (assumption || reflexivity).
  rewrite pushLoop_exact by lia. rewrite pushLoop_sufficient by assumption.
  cbn [app]. now rewrite codes_of_form.
Qed.

(** The same for the text-driven generator, whose codes are appended to the
    manual data. *)
Lemma handleProcessText_double_codes (fuel : nat) (el : elements) (s e inc padding : Z) :
  let params := paramsOf el in
  Str.truthy (inputTextOf el) = true ->
  Double.rangeOf params = [ofZ s; ofZ e] ->
  Double.incrementOf params = ofZ inc ->
  Double.paddingOf params = ofZ padding ->
  s <= e -> 1 <= inc -> 0 <= padding ->
  - 2 ^ 53 <= s -> e < 2 ^ 53 -> (count s e inc < fuel)%nat ->
  Double.handleProcessText fuel el
  = ([], Returned
           (written el
              (appended (manualData el)
                 (expected (default "" (params !! "prefix")) (default "" (params !! "suffix"))
                    padding s e inc)) "")).
Proof.
  intros params Ht Hr Hi Hp Hse Hinc Hpad Hlow Hhigh Hfuel.
  rewrite (handleProcessText_double fuel el (ofZ s) (ofZ e) (ofZ inc) (ofZ padding));
    try assumption; try reflexivity.
  - fold params. rewrite pushLoop_exact by lia.
    rewrite pushLoop_sufficient by assumption.
    cbn [app bind ret]. cbn [app]. rewrite !paramOr_default. unfold expected. do 4 f_equal.
    apply map_ext. intros n. now rewrite numberPart_ofZ.
  - unfold Num.gt. rewrite lt_ofZ. apply Z.ltb_ge. lia.
  - rewrite lt_ofZ. apply Z.ltb_ge. lia.
  - rewrite lt_ofZ. apply Z.ltb_ge. lia.
Qed.

(** The claim C1 fails as stated, for two kinds of integers.  In the
    parameter text a minus sign is the separator of the range: the range
    from -5 to 3 is rejected, where the form generates its nine codes.  And
    the engine adds 1 to 2^53 without effect: from start = end = 2^53 neither
    generator returns. *)
Lemma sequence_generated_counterexample :
  (Double.handleProcessText 9 (textForm "" "range: -5-3")
   = ([alert "Invalid range. Please use the format: range: 1-100"],
      Returned (textForm "" "range: -5-3"))
   /\ Double.generateBarcodeData 10 (rangeForm "" "-5" "3" "" "1")
      = ([], Returned ["-5"; "-4"; "-3"; "-2"; "-1"; "0"; "1"; "2"; "3"]))
  /\ (Double.parseInt two53 = ofZ (2 ^ 53)
      /\ Double.add (ofZ (2 ^ 53)) (ofZ 1) = ofZ (2 ^ 53)
      /\ ~ terminates (fun fuel => Double.generateBarcodeData fuel (rangeForm "" two53 two53 "" "1"))
      /\ ~ terminates (fun fuel =>
             Double.handleProcessText fuel (textForm "" ("range: " +:+ two53 +:+ "-" +:+ two53)))).
Proof.
  split; [split; vm_compute; reflexivity|].
  split; [vm_compute; reflexivity|]. split; [vm_compute; reflexivity|]. split.
  - intros [fuel H]. apply H.
    rewrite (generateBarcodeData_double fuel _ (ofZ (2 ^ 53)) (ofZ (2 ^ 53)) (ofZ 1))
      by (vm_compute; reflexivity).
    rewrite pushLoop_stalls; [reflexivity | | ]; vm_compute; reflexivity.
  - intros [fuel H]. apply H.
    rewrite (handleProcessText_double fuel _ (ofZ (2 ^ 53)) (ofZ (2 ^ 53)) (ofZ 1) (ofZ 0))
      by (vm_compute; reflexivity).
    rewrite pushLoop_stalls; [reflexivity | | ]; vm_compute; reflexivity.
Qed.

(** C1, amended.  For integers [start <= end_] and [1 <= inc] with
    [- 2^53 <= start] and [end_ < 2^53] (in the parameter text also
    [0 <= start]), both generators as the engine runs them return, given fuel
    for the iterations, the codes [prefix + pad(n, padding) + suffix] for
    [n = start, start + inc, ...]: there are
    [floor((end_ - start) / inc) + 1] of them, the [k]-th made from
    [start + k * inc].  The form-driven generator has no padding (width 0);
    the text-driven one takes prefix, suffix and a padding below 2^53 from
    the parameter text and appends its codes to the manual data. *)
Theorem sequence_generated (start end_ inc : Z) :
  start <= end_ -> 1 <= inc -> - 2 ^ 53 <= start -> end_ < 2 ^ 53 ->
  (forall fuel el,
      Double.parseInt (startVal el) = ofZ start ->
      Double.parseInt (endVal el) = ofZ end_ ->
      Num.or (Double.parseInt (increment el)) (ofZ 1) = ofZ inc ->
      (count start end_ inc < fuel)%nat ->
      Double.generateBarcodeData fuel el
      = ([], Returned (expected (prefix el) (suffix el) 0 start end_ inc)))
  /\ (forall fuel el padding,
      let params := paramsOf el in
      0 <= start ->
      Str.truthy (inputTextOf el) = true ->
      Double.rangeOf params = [ofZ start; ofZ end_] ->
      Double.incrementOf params = ofZ inc ->
      Double.paddingOf params = ofZ padding -> 0 <= padding < 2 ^ 53 ->
      (count start end_ inc < fuel)%nat ->
      Double.handleProcessText fuel el
      = ([], Returned
               (written el
                  (appended (manualData el)
                     (expected (default "" (params !! "prefix"))
                        (default "" (params !! "suffix")) padding start end_ inc)) "")))
  /\ (forall p q padding,
      Z.of_nat (length (expected p q padding start end_ inc))
      = (end_ - start) / inc + 1
      /\ forall k, (k < count start end_ inc)%nat ->
           nth_error (expected p q padding start end_ inc) k
           = Some (p +:+ pad (start + Z.of_nat k * inc) padding +:+ q)).
Proof.
  intros Hse Hinc Hlow Hhigh. split; [|split].
  - intros fuel el Hs He Hi Hfuel. now apply generateBarcodeData_double_codes.
  - intros fuel el padding params Hpos Ht Hr Hi Hp Hpad Hfuel.
    apply handleProcessText_double_codes; (assumption || lia).
  - intros p q padding. split.
    + now apply expected_length.
    + intros k Hk. now apply expected_nth.
Qed.

Lemma sequence_generated_witness :
  Double.generateBarcodeData 5 (rangeForm "A" "1" "10" "-x" "3")
  = ([], Returned ["A1-x"; "A4-x"; "A7-x"; "A10-x"])
  /\ Double.handleProcessText 5
       (textForm "old"
          (lines ["prefix: A"; "range: 1-10"; "increment: 3"; "padding: 3"; "suffix: -x"]))
     = ([], Returned (textForm (lines ["old"; "A001-x"; "A004-x"; "A007-x"; "A010-x"]) "")).
Proof.
  destruct (sequence_generated 1 10 3 ltac:(lia) ltac:(lia) ltac:(lia) ltac:(lia))
    as (Hform & Htext & _).
  split.
  - rewrite (Hform 5%nat (rangeForm "A" "1" "10" "-x" "3"));
      [reflexivity | reflexivity | reflexivity | reflexivity | vm_compute; lia].
  - rewrite (Htext 5%nat
               (textForm "old"
                  (lines ["prefix: A"; "range: 1-10"; "increment: 3"; "padding: 3";
                          "suffix: -x"])) 3);
      [reflexivity | lia | reflexivity | reflexivity | reflexivity | reflexivity | lia
      | vm_compute; lia].
Defined.

(** ** The characters of pieces and of trimmed strings *)

Lemma split_pieces (sep : ascii) (s piece : string) :
  In piece (Str.split sep s) -> ~ In sep (chars piece).
Proof.
  revert piece. induction s as [|c s IH]; intros piece Hin.
  - destruct Hin as [<-|[]]. intros [].
  - cbn [Str.split] in Hin. destruct (Ascii.eqb_spec c sep) as [->|Hne].
    + destruct Hin as [<-|Hin]; [intros []|now apply IH].
    + destruct (Str.split sep s) as [|p ps].
      * destruct Hin as [<-|[]]. intros [H|[]]. now apply Hne.
      * destruct Hin as [<-|Hin].
        -- intros [H|H]; [now apply Hne|]. apply (IH p); [now left|exact H].
        -- apply IH. now right.
Qed.

Lemma trimStart_chars (c : ascii) (s : string) :
  In c (chars (Str.trimStart s)) -> In c (chars s).
Proof.
  induction s as [|a s IH]; [trivial|].
  cbn [Str.trimStart]. destruct (Str.isWhiteSpace a); [|trivial].
  intros H. right. now apply IH.
Qed.

Lemma rev_app_chars (c : ascii) (s1 s2 : string) :
  In c (chars (String.rev_app s1 s2)) <-> In c (chars s1) \/ In c (chars s2).
Proof.
  revert s2. induction s1 as [|a s1 IH]; intros s2; cbn [String.rev_app].
  - simpl. tauto.
  - rewrite IH. simpl. tauto.
Qed.

Lemma rev_chars (c : ascii) (s : string) :
  In c (chars (String.rev s)) <-> In c (chars s).
Proof. unfold String.rev. rewrite rev_app_chars. simpl. tauto. Qed.

Lemma trim_chars (c : ascii) (s : string) : In c (chars (Str.trim s)) -> In c (chars s).
Proof.
  unfold Str.trim, Str.trimEnd. rewrite rev_chars. intros H.
  apply trimStart_chars, rev_chars, trimStart_chars in H. exact H.
Qed.

(** ** The checks of the text-parameter processor, one by one *)

Section Checks.

Variable fuel : nat.
Variable el : elements.

(** Run the handler down its checks, deciding each with a hypothesis. *)
Ltac decide_checks :=
  unfold handleProcessText; cbv zeta;
  repeat match goal with
         | H : _ = true |- _ => rewrite H; clear H
         | H : _ = false |- _ => rewrite H; clear H
         end;
  reflexivity.

Lemma reject_empty :
  Str.truthy (inputTextOf el) = false ->
  handleProcessText fuel el = ([alert "Please enter processing parameters."], Returned el).
Proof. intros H. decide_checks. Qed.

Lemma reject_range :
  Str.truthy (inputTextOf el) = true -> rangeInvalid (rangeIn el) = true ->
  handleProcessText fuel el
  = ([alert "Invalid range. Please use the format: range: 1-100"], Returned el).
Proof. intros H1 H2. decide_checks. Qed.

Lemma reject_order :
  Str.truthy (inputTextOf el) = true -> rangeInvalid (rangeIn el) = false ->
  Num.gt (startOf el) (endOf el) = true ->
  handleProcessText fuel el
  = ([alert "Start of range cannot be greater than end."], Returned el).
Proof. intros H1 H2 H3. decide_checks. Qed.

Lemma reject_increment :
  Str.truthy (inputTextOf el) = true -> rangeInvalid (rangeIn el) = false ->
  Num.gt (startOf el) (endOf el) = false ->
  (Num.isNaN (incrementIn el) || Num.lt (incrementIn el) (ofZ 1))%bool = true ->
  handleProcessText fuel el = ([alert "Increment must be a positive number."], Returned el).
Proof. intros H1 H2 H3 H4. decide_checks. Qed.

Lemma reject_padding :
  Str.truthy (inputTextOf el) = true -> rangeInvalid (rangeIn el) = false ->
  Num.gt (startOf el) (endOf el) = false ->
  (Num.isNaN (incrementIn el) || Num.lt (incrementIn el) (ofZ 1))%bool = false ->
  (Num.isNaN (paddingIn el) || Num.lt (paddingIn el) (ofZ 0))%bool = true ->
  handleProcessText fuel el
  = ([alert "Padding must be a non-negative number."], Returned el).
Proof. intros H1 H2 H3 H4 H5. decide_checks. Qed.

Lemma accept :
  Str.truthy (inputTextOf el) = true -> rangeInvalid (rangeIn el) = false ->
  Num.gt (startOf el) (endOf el) = false ->
  (Num.isNaN (incrementIn el) || Num.lt (incrementIn el) (ofZ 1))%bool = false ->
  (Num.isNaN (paddingIn el) || Num.lt (paddingIn el) (ofZ 0))%bool = false ->
  handleProcessText fuel el
  = (generatedCodes <~
       pushLoop fuel
         (fun i => paramOr (paramsOf el) "prefix" +:+ numberPart (paddingIn el) i
                   +:+ paramOr (paramsOf el) "suffix")
         (startOf el) (endOf el) (incrementIn el) [] ;;
     ret (written el (appended (manualData el) generatedCodes) "")).
Proof. intros H1 H2 H3 H4 H5. decide_checks. Qed.

End Checks.

Lemma rangeInvalid_false (range : list number) :
  rangeInvalid range = false ->
  exists s e, range = [s; e] /\ Num.isNaN s = false /\ Num.isNaN e = false.
Proof.
  destruct range as [|s [|e [|]]]; try discriminate. cbn [rangeInvalid].
  intros H. apply Bool.orb_false_iff in H. now exists s, e.
Qed.

Lemma paddingOf_cases (params : gmap string string) :
  paddingOf params = NaN \/ exists z, paddingOf params = ofZ z.
Proof.
  unfold paddingOf, paramIf. destruct (params !! "padding") as [v|]; [|right; now exists 0].
  destruct (Str.truthy v); [apply parseInt_cases | right; now exists 0].
Qed.

Lemma incrementOf_cases (params : gmap string string) :
  incrementOf params = NaN \/ exists z, incrementOf params = ofZ z.
Proof.
  unfold incrementOf, paramIf. destruct (params !! "increment") as [v|]; [|right; now exists 1].
  destruct (Str.truthy v); [apply parseInt_cases | right; now exists 1].
Qed.

(** ** Start after end *)

(** C7. With [start > end_] the form-driven generator returns no code and
    shows no message, whatever its increment; the text-driven processor
    shows the message about the range order and leaves the form as it was. *)
Theorem start_after_end :
  (forall fuel el s e,
      parseInt (startVal el) = ofZ s -> parseInt (endVal el) = ofZ e ->
      e < s -> (0 < fuel)%nat ->
      generateBarcodeData fuel el = ([], Returned []))
  /\ (forall fuel el s e,
      let params := paramsOf el in
      Str.truthy (inputTextOf el) = true ->
      rangeOf params = [s; e] -> Num.gt s e = true ->
      handleProcessText fuel el
      = ([alert "Start of range cannot be greater than end."], Returned el)).
Proof.
  split.
  - intros fuel el s e Hs He Hlt Hfuel.
    unfold generateBarcodeData. rewrite Hs, He, or_not_NaN. cbn [Num.isNaN ofZ orb].
    destruct fuel as [|fuel]; [lia|]. cbn [pushLoop].
    change (Fin (inject_Z s)) with (ofZ s). change (Fin (inject_Z e)) with (ofZ e).
    rewrite le_ofZ. destruct (Z.leb_spec s e); [lia | reflexivity].
  - intros fuel el s e params Ht Hr Hgt.
    apply reject_order; fold params; try assumption; rewrite Hr.
    + cbn [rangeInvalid]. destruct s, e; try discriminate Hgt; reflexivity.
    + exact Hgt.
Qed.

Lemma start_after_end_witness :
  generateBarcodeData 1 (rangeForm "A" "9" "3" "" "-1") = ([], Returned [])
  /\ handleProcessText 0 (textForm "old" "range: 9-3")
     = ([alert "Start of range cannot be greater than end."],
        Returned (textForm "old" "range: 9-3")).
Proof.
  destruct start_after_end as [Hform Htext]. split.
  - apply (Hform 1%nat (rangeForm "A" "9" "3" "" "-1") 9 3);
      [reflexivity | reflexivity | lia | lia].
  - apply (Htext 0%nat (textForm "old" "range: 9-3") (ofZ 9) (ofZ 3));
      reflexivity.
Defined.

(** ** Termination *)

Lemma or_nonzero (z : Z) : z <> 0 -> Num.or (ofZ z) (ofZ 1) = ofZ z.
Proof.
  intros Hz. unfold Num.or, Num.truthy, ofZ, Num.isZero.
  replace (Qeq_bool (inject_Z z) 0) with false; [reflexivity|].
  symmetry. apply Bool.not_true_iff_false. rewrite Qeq_bool_iff.
  unfold Qeq, inject_Z; simpl. lia.
Qed.

Lemma or_negative (x : number) : Num.lt x (ofZ 0) = true -> Num.or x (ofZ 1) = x.
Proof.
  destruct x as [|q|[]]; try discriminate; [|reflexivity].
  unfold Num.lt, Num.le, Num.or, Num.truthy, Num.isZero, ofZ. intros H.
  replace (Qeq_bool q 0) with false; [reflexivity|].
  symmetry. apply Bool.not_true_iff_false. rewrite Qeq_bool_iff. intros E.
  apply Bool.negb_true_iff, Bool.not_true_iff_false in H. apply H.
  apply Qle_bool_iff. change (inject_Z 0) with 0%Q. rewrite E. apply Qle_refl.
Qed.

(** Below 2^53 a step of at least 1 takes the integer part of [i] up by at
    least 1, also where the engine rounds: the loop reaches its end. *)
Lemma pushLoop_double_finite (body : number -> string) (b : Q) (inc : number) :
  Num.le (ofZ 1) inc = true -> (b < inject_Z (2 ^ 53))%Q ->
  forall (m : nat) (i : number) (acc : list string),
    Num.le (ofZ (- 2 ^ 53)) i = true ->
    (forall a, i = Fin a -> Qfloor b - Qfloor a + 1 <= Z.of_nat m) ->
    exists codes, Double.pushLoop (S m) body i (Fin b) inc acc = ([], Returned codes).
Proof.
  intros Hinc Hb.
  assert (Hfb : Qfloor b < 2 ^ 53).
  { rewrite Zlt_Qlt. eapply Qle_lt_trans; [apply Qfloor_le | exact Hb]. }
  induction m as [|m IH]; intros i acc Hlow Hm.
  - cbn [Double.pushLoop]. destruct i as [|a|[]]; try discriminate.
    + specialize (Hm a eq_refl). cbn [Num.le].
      destruct (Qle_bool a b) eqn:Hab; [|exists acc; reflexivity].
      apply Qle_bool_iff, Qfloor_resp_le in Hab. lia.
    + exists acc. reflexivity.
  - cbn [Double.pushLoop]. destruct i as [|a|[]]; try discriminate.
    + destruct (Num.le (Fin a) (Fin b)) eqn:Hab; [|exists acc; reflexivity].
      cbn [Num.le] in Hab. apply Qle_bool_iff in Hab.
      unfold Num.le, ofZ in Hlow. apply Qle_bool_iff in Hlow.
      destruct inc as [|c|[]]; try discriminate Hinc.
      * unfold Num.le, ofZ in Hinc. apply Qle_bool_iff in Hinc.
        change (inject_Z 1) with 1%Q in Hinc.
        apply IH.
        -- unfold Double.add. cbn [Num.add Double.fl]. apply round_above; [lia|].
           rewrite Qplus'_correct. lra.
        -- intros a' Ha'. unfold Double.add in Ha'. cbn [Num.add Double.fl] in Ha'.
           assert (Hfa : - 2 ^ 53 <= Qfloor a).
           { rewrite <- (Qfloor_Z (- 2 ^ 53)). now apply Qfloor_resp_le. }
           assert (Hfab : Qfloor a <= Qfloor b) by now apply Qfloor_resp_le.
           pose proof (round_above (Qplus' a c) (Qfloor a + 1) ltac:(lia)) as Hr.
           rewrite Ha' in Hr. unfold Num.le, ofZ in Hr. rewrite Qle_bool_iff in Hr.
           assert (Hz : (inject_Z (Qfloor a + 1) <= a')%Q).
           { apply Hr. rewrite Qplus'_correct, inject_Z_plus.
             pose proof (Qfloor_le a). change (inject_Z 1) with 1%Q. lra. }
           apply Qfloor_resp_le in Hz. rewrite Qfloor_Z in Hz.
           specialize (Hm a eq_refl). lia.
      * apply IH; [reflexivity|]. intros a' Ha'. discriminate Ha'.
    + exists acc. reflexivity.
Qed.

Lemma not_below_one (inc : number) :
  (Num.isNaN inc || Num.lt inc (ofZ 1))%bool = false -> Num.le (ofZ 1) inc = true.
Proof.
  destruct inc as [|c|[]]; try discriminate; try reflexivity.
  cbn [Num.isNaN orb]. unfold Num.lt, ofZ. intros H. now apply Bool.negb_false_iff in H.
Qed.

Lemma generateBarcodeData_double_terminates (el : elements) (s e : Z) (inc : number) :
  Num.or (Double.parseInt (increment el)) (ofZ 1) = inc -> Num.le (ofZ 1) inc = true ->
  Double.parseInt (startVal el) = ofZ s -> Double.parseInt (endVal el) = ofZ e ->
  - 2 ^ 53 <= s -> e < 2 ^ 53 ->
  terminates (fun fuel => Double.generateBarcodeData fuel el).
Proof.
  intros Hi Hinc Hs He Hlow Hhigh.
  destruct (pushLoop_double_finite (fun i => prefix el +:+ toString i +:+ suffix el)
              (inject_Z e) inc Hinc ltac:(now rewrite <- Zlt_Qlt)
              (Z.to_nat (e - s + 1)) (ofZ s) [])
    as [codes Hcodes].
  - rewrite le_ofZ. now apply Z.leb_le.
  - intros a [= <-]. rewrite !Qfloor_Z. lia.
  - exists (S (Z.to_nat (e - s + 1))).
    rewrite (generateBarcodeData_double _ el (ofZ s) (ofZ e) inc)
      by (assumption || reflexivity).
    unfold ofZ at 2. rewrite Hcodes. discriminate.
Qed.

Lemma handleProcessText_double_terminates (el : elements) (a b : Q) :
  Double.rangeOf (paramsOf el) = [Fin a; Fin b] ->
  (inject_Z (- 2 ^ 53) <= a)%Q -> (b < inject_Z (2 ^ 53))%Q ->
  terminates (fun fuel => Double.handleProcessText fuel el).
Proof.
  intros Hr Hlow Hhigh. exists (S (Z.to_nat (Qfloor b - Qfloor a + 1))).
  unfold Double.handleProcessText.
  destruct (Str.truthy (inputTextOf el)); [|discriminate]. cbv zeta.
  rewrite Hr. cbn [negb rangeInvalid nth Num.isNaN orb].
  destruct (Num.gt (Fin a) (Fin b)); [discriminate|].
  destruct (Num.isNaN (Double.incrementOf _) || Num.lt (Double.incrementOf _) _)%bool eqn:Hi;
    [discriminate|].
  destruct (Num.isNaN (Double.paddingOf _) || Num.lt (Double.paddingOf _) _)%bool;
    [discriminate|].
  apply not_below_one in Hi.
  match goal with |- context [Double.pushLoop _ ?body _ _ ?inc []] =>
    destruct (pushLoop_double_finite body b inc Hi Hhigh
                (Z.to_nat (Qfloor b - Qfloor a + 1)) (Fin a) []) as [codes Hcodes]
  end.
  - unfold Num.le, ofZ. now apply Qle_bool_iff.
  - intros a' [= <-]. lia.
  - rewrite Hcodes. discriminate.
Qed.

(** The claim C10 fails as stated, with an increment of 1 each time: the
    text-driven processor accepts a range that ends at [Infinity], and its
    loop then never ends; an end of 400 digits reads as [Infinity] in the
    form; and from start = end = 2^53 the step [i += 1] leaves [i] where it
    is. *)
Lemma generation_terminates_counterexample :
  (Double.rangeOf (paramsOf (textForm "" "range: 1-Infinity")) = [ofZ 1; Inf false]
   /\ Double.incrementOf (paramsOf (textForm "" "range: 1-Infinity")) = ofZ 1
   /\ ~ terminates (fun fuel => Double.handleProcessText fuel (textForm "" "range: 1-Infinity")))
  /\ (Double.parseInt nines = Inf false
      /\ ~ terminates (fun fuel => Double.generateBarcodeData fuel (rangeForm "" "1" nines "" "1")))
  /\ (Double.parseInt two53 = ofZ (2 ^ 53)
      /\ Double.add (ofZ (2 ^ 53)) (ofZ 1) = ofZ (2 ^ 53)
      /\ ~ terminates (fun fuel => Double.generateBarcodeData fuel (rangeForm "" two53 two53 "" "1"))).
Proof.
  split; [|split].
  - split; [reflexivity|]. split; [reflexivity|]. intros [fuel H]. apply H. clear H.
    rewrite (handleProcessText_double fuel _ (ofZ 1) (Inf false) (ofZ 1) (ofZ 0));
      try reflexivity.
    change (ofZ 1) with (Fin (inject_Z 1)) at 2.
    now rewrite pushLoop_endless.
  - split; [vm_compute; reflexivity|]. intros [fuel H]. apply H. clear H.
    rewrite (generateBarcodeData_double fuel _ (ofZ 1) (Inf false) (ofZ 1))
      by (vm_compute; reflexivity).
    change (ofZ 1) with (Fin (inject_Z 1)) at 2.
    now rewrite pushLoop_endless.
  - split; [vm_compute; reflexivity|]. split; [vm_compute; reflexivity|].
    intros [fuel H]. apply H. clear H.
    rewrite (generateBarcodeData_double fuel _ (ofZ (2 ^ 53)) (ofZ (2 ^ 53)) (ofZ 1))
      by (vm_compute; reflexivity).
    rewrite pushLoop_stalls; [reflexivity | | ]; vm_compute; reflexivity.
Qed.

(** C10, amended.  As the engine runs it, the generation loop terminates
    when the increment in effect is at least 1, the start is at least -2^53
    and the end is below 2^53 (there every step takes the integer part of
    [i] up): in the form-driven generator, and in the text-driven processor,
    which rejects an increment below 1, also for bounds that are no
    integers.  The form-driven generator passes a negative increment through
    unchanged, and with [start <= end_], the end of magnitude up to 2^53,
    its loop then does not terminate. *)
Theorem generation_terminates :
  (forall el s e inc,
      Num.or (Double.parseInt (increment el)) (ofZ 1) = inc -> Num.le (ofZ 1) inc = true ->
      Double.parseInt (startVal el) = ofZ s -> Double.parseInt (endVal el) = ofZ e ->
      - 2 ^ 53 <= s -> e < 2 ^ 53 ->
      terminates (fun fuel => Double.generateBarcodeData fuel el))
  /\ (forall el a b,
      Double.rangeOf (paramsOf el) = [Fin a; Fin b] ->
      (0 <= a)%Q -> (b < inject_Z (2 ^ 53))%Q ->
      terminates (fun fuel => Double.handleProcessText fuel el))
  /\ (forall el s e inc,
      Double.parseInt (startVal el) = ofZ s -> Double.parseInt (endVal el) = ofZ e ->
      Double.parseInt (increment el) = inc ->
      s <= e -> - 2 ^ 53 <= e <= 2 ^ 53 -> Num.lt inc (ofZ 0) = true ->
      Num.or (Double.parseInt (increment el)) (ofZ 1) = inc
      /\ ~ terminates (fun fuel => Double.generateBarcodeData fuel el)).
Proof.
  split; [|split].
  - exact generateBarcodeData_double_terminates.
  - intros el a b Hr Ha Hb.
    apply (handleProcessText_double_terminates el a b); try assumption.
    eapply Qle_trans; [|exact Ha]. change 0%Q with (inject_Z 0). rewrite <- Zle_Qle. lia.
  - intros el s e inc Hs He Hi Hse Hsafe Hinc.
    assert (Hor : Num.or (Double.parseInt (increment el)) (ofZ 1) = inc)
      by (rewrite Hi; now apply or_negative).
    split; [exact Hor|]. intros [fuel H]. apply H.
    rewrite (generateBarcodeData_double fuel el (ofZ s) (ofZ e) inc)
      by (assumption || reflexivity).
    rewrite pushLoop_descends; [reflexivity | exact Hsafe | | exact Hinc].
    rewrite le_ofZ. now apply Z.leb_le.
Qed.

Lemma generation_terminates_witness :
  terminates (fun fuel => Double.generateBarcodeData fuel (rangeForm "" "1" "9" "" "2"))
  /\ terminates (fun fuel => Double.generateBarcodeData fuel (rangeForm "" "1" "9" "" nines))
  /\ terminates (fun fuel => Double.handleProcessText fuel (textForm "" "range: 1.5-3"))
  /\ ~ terminates (fun fuel => Double.generateBarcodeData fuel (rangeForm "" "1" "9" "" "-2")).
Proof.
  destruct generation_terminates as (Hform & Htext & Hneg).
  split; [|split; [|split]].
  - apply (Hform (rangeForm "" "1" "9" "" "2") 1 9 (ofZ 2));
      [reflexivity | reflexivity | reflexivity | reflexivity | lia | lia].
  - apply (Hform (rangeForm "" "1" "9" "" nines) 1 9 (Inf false));
      [vm_compute; reflexivity | reflexivity | reflexivity | reflexivity | lia | lia].
  - apply (Htext (textForm "" "range: 1.5-3") (3 # 2)%Q (inject_Z 3));
      [reflexivity | discriminate | reflexivity].
  - apply (Hneg (rangeForm "" "1" "9" "" "-2") 1 9 (ofZ (-2)));
      [reflexivity | reflexivity | reflexivity | lia | lia | reflexivity].
Defined.

(** ** The default increment *)

(** What the exact conversion reads as an integer of magnitude up to 2^53,
    or as no number, the engine reads the same. *)
Lemma parseInt_double (s : string) (z : Z) :
  parseInt s = ofZ z -> - 2 ^ 53 <= z <= 2 ^ 53 -> Double.parseInt s = ofZ z.
Proof. intros H Hz. unfold Double.parseInt. rewrite H. now apply fl_integer. Qed.

Lemma parseInt_double_NaN (s : string) : parseInt s = NaN -> Double.parseInt s = NaN.
Proof. intros H. unfold Double.parseInt. now rewrite H. Qed.

Lemma generateBarcodeData_codes (fuel : nat) (el : elements) (s e inc : Z) :
  parseInt (startVal el) = ofZ s -> parseInt (endVal el) = ofZ e ->
  Num.or (parseInt (increment el)) (ofZ 1) = ofZ inc ->
  1 <= inc -> (count s e inc < fuel)%nat ->
  generateBarcodeData fuel el
  = ([], Returned (expected (prefix el) (suffix el) 0 s e inc)).
Proof.
  intros Hs He Hi Hinc Hfuel.
  rewrite (generateBarcodeData_loop fuel el s e inc) by assumption.
  rewrite pushLoop_sufficient by assumption. cbn [app]. now rewrite codes_of_form.
Qed.

(** The claim C6 fails as stated: in the parameter text an increment that is
    not a number is rejected, where an increment of 1 would have generated
    three codes. *)
Lemma increment_default_counterexample :
  parseInt "abc" = NaN
  /\ handleProcessText 9 (textForm "" (lines ["range: 1-3"; "increment: abc"]))
     = ([alert "Increment must be a positive number."],
        Returned (textForm "" (lines ["range: 1-3"; "increment: abc"])))
  /\ handleProcessText 9 (textForm "" (lines ["range: 1-3"; "increment: 1"]))
     = ([], Returned (textForm (lines ["1"; "2"; "3"]) ""))
  /\ Double.handleProcessText 9 (textForm "" (lines ["range: 1-3"; "increment: abc"]))
     = ([alert "Increment must be a positive number."],
        Returned (textForm "" (lines ["range: 1-3"; "increment: abc"])))
  /\ Double.handleProcessText 9 (textForm "" (lines ["range: 1-3"; "increment: 1"]))
     = ([], Returned (textForm (lines ["1"; "2"; "3"]) "")).
Proof. repeat split; vm_compute; reflexivity. Qed.

(** C6, amended.  In the form-driven generator an increment field that does
    not read as an integer (an empty one too) gives an increment of 1, and
    with start and end read as integers of magnitude up to 2^53 (the end
    below 2^53) the codes are those of increment 1.  In the parameter text
    an increment that is omitted, or whose value is empty, gives an
    increment of 1; one that is present and does not read as an integer is
    rejected once the range has passed its checks.  All of it holds in exact
    arithmetic and as the engine runs the two generators. *)
Theorem increment_default :
  (forall fuel el s e,
      parseInt (increment el) = NaN ->
      Num.or (parseInt (increment el)) (ofZ 1) = ofZ 1
      /\ Num.or (Double.parseInt (increment el)) (ofZ 1) = ofZ 1
      /\ (parseInt (startVal el) = ofZ s -> parseInt (endVal el) = ofZ e ->
          - 2 ^ 53 <= s <= 2 ^ 53 -> - 2 ^ 53 <= e < 2 ^ 53 ->
          (count s e 1 < fuel)%nat ->
          generateBarcodeData fuel el
          = ([], Returned (expected (prefix el) (suffix el) 0 s e 1))
          /\ Double.generateBarcodeData fuel el
             = ([], Returned (expected (prefix el) (suffix el) 0 s e 1))))
  /\ (forall params : gmap string string,
      params !! "increment" = None \/ params !! "increment" = Some "" ->
      incrementOf params = ofZ 1)
  /\ (forall fuel el v,
      let params := paramsOf el in
      let range := rangeOf params in
      Str.truthy (inputTextOf el) = true ->
      rangeInvalid range = false ->
      Num.gt (nth 0 range NaN) (nth 1 range NaN) = false ->
      params !! "increment" = Some v -> Str.truthy v = true -> parseInt v = NaN ->
      handleProcessText fuel el
      = ([alert "Increment must be a positive number."], Returned el))
  /\ (forall params : gmap string string,
      params !! "increment" = None \/ params !! "increment" = Some "" ->
      Double.incrementOf params = ofZ 1)
  /\ (forall fuel el v,
      let params := paramsOf el in
      let range := Double.rangeOf params in
      Str.truthy (inputTextOf el) = true ->
      rangeInvalid range = false ->
      Num.gt (nth 0 range NaN) (nth 1 range NaN) = false ->
      params !! "increment" = Some v -> Str.truthy v = true -> parseInt v = NaN ->
      Double.handleProcessText fuel el
      = ([alert "Increment must be a positive number."], Returned el)).
Proof.
  split; [|split; [|split; [|split]]]; cycle 3.
  - intros params [H|H]; unfold Double.incrementOf, paramIf; now rewrite H.
  - intros fuel el v params range Ht Hinv Hgt Hv Htv Hnan.
    unfold Double.handleProcessText. fold params. rewrite Ht. cbv zeta. fold range.
    rewrite Hinv, Hgt. unfold Double.incrementOf, paramIf.
    now rewrite Hv, Htv, (parseInt_double_NaN _ Hnan).
  - intros fuel el s e Hi.
    assert (Hor : Num.or (parseInt (increment el)) (ofZ 1) = ofZ 1) by now rewrite Hi.
    assert (Hor' : Num.or (Double.parseInt (increment el)) (ofZ 1) = ofZ 1)
      by now rewrite (parseInt_double_NaN _ Hi).
    split; [exact Hor|]. split; [exact Hor'|]. intros Hs He Hlow Hhigh Hfuel. split.
    + apply generateBarcodeData_codes; (assumption || lia).
    + apply generateBarcodeData_double_codes; try assumption; try lia;
        apply parseInt_double; (assumption || lia).
  - intros params [H|H]; unfold incrementOf, paramIf; now rewrite H.
  - intros fuel el v params range Ht Hinv Hgt Hv Htv Hnan.
    apply reject_increment; try assumption.
    fold params. unfold incrementOf, paramIf. now rewrite Hv, Htv, Hnan.
Qed.

Lemma increment_default_witness :
  (generateBarcodeData 9 (rangeForm "" "1" "3" "" "abc") = ([], Returned ["1"; "2"; "3"])
   /\ Double.generateBarcodeData 9 (rangeForm "" "1" "3" "" "abc")
      = ([], Returned ["1"; "2"; "3"]))
  /\ incrementOf (parseParams "range: 1-3") = ofZ 1
  /\ handleProcessText 9 (textForm "" (lines ["range: 1-3"; "increment: abc"]))
     = ([alert "Increment must be a positive number."],
        Returned (textForm "" (lines ["range: 1-3"; "increment: abc"])))
  /\ Double.incrementOf (parseParams "range: 1-3") = ofZ 1
  /\ Double.handleProcessText 9 (textForm "" (lines ["range: 1-3"; "increment: abc"]))
     = ([alert "Increment must be a positive number."],
        Returned (textForm "" (lines ["range: 1-3"; "increment: abc"]))).
Proof.
  destruct increment_default as (Hform & Homit & Hbad & Homit' & Hbad').
  split; [|split; [|split; [|split]]].
  - destruct (Hform 9%nat (rangeForm "" "1" "3" "" "abc") 1 3) as (_ & _ & H); [reflexivity|].
    apply H; [reflexivity | reflexivity | lia | lia | vm_compute; lia].
  - apply Homit. left. reflexivity.
  - apply (Hbad 9%nat (textForm "" (lines ["range: 1-3"; "increment: abc"])) "abc");
      reflexivity.
  - apply Homit'. left. reflexivity.
  - apply (Hbad' 9%nat (textForm "" (lines ["range: 1-3"; "increment: abc"])) "abc");
      reflexivity.
Defined.

(** ** The order of the checks *)

(** The claim C4 fails as stated at its second step: the values [-5] and
    [1.5-3] are not two integers with a hyphen between them, and the
    processor accepts both and generates codes from them. *)
Lemma validation_order_counterexample :
  (twoIntegers "-5" = false
   /\ handleProcessText 9 (textForm "" "range: -5")
      = ([], Returned (textForm (lines ["0"; "1"; "2"; "3"; "4"; "5"]) "")))
  /\ (twoIntegers "1.5-3" = false
      /\ handleProcessText 9 (textForm "" "range: 1.5-3")
         = ([], Returned (textForm (lines ["1.5"; "2.5"]) ""))).
Proof. repeat split; vm_compute; reflexivity. Qed.

Lemma split_empty_range (v a b : string) : Str.split "-" v = [a; b] -> Str.truthy v = true.
Proof. destruct v; [discriminate | reflexivity]. Qed.

Lemma rangeInvalid_spec (params : gmap string string) :
  rangeInvalid (rangeOf params) = false
  <-> exists v a b, params !! "range" = Some v /\ Str.split "-" v = [a; b]
                    /\ Number a <> NaN /\ Number b <> NaN.
Proof.
  unfold rangeOf, paramIf. split.
  - intros H. destruct (params !! "range") as [v|]; [|discriminate].
    destruct (Str.truthy v); [|discriminate].
    destruct (Str.split "-" v) as [|a [|b [|]]] eqn:Hsplit; try discriminate.
    cbn [map rangeInvalid] in H. apply Bool.orb_false_iff in H as [Ha Hb].
    exists v, a, b. repeat split; try reflexivity; try assumption;
      intros E; rewrite E in *; discriminate.
  - intros (v & a & b & Hv & Hsplit & Ha & Hb).
    rewrite Hv, (split_empty_range v a b Hsplit), Hsplit. cbn [map rangeInvalid].
    assert (Ea : Num.isNaN (Number a) = false)
      by (destruct (Number a) eqn:E; try reflexivity; congruence).
    assert (Eb : Num.isNaN (Number b) = false)
      by (destruct (Number b) eqn:E; try reflexivity; congruence).
    now rewrite Ea, Eb.
Qed.

(** C4, amended.  The processor checks in this order and rejects at the
    first failing step, with that step's message, no code generated and the
    form (manual data included) as it was: (1) the trimmed input is empty;
    (2) the range key is missing, or its value does not split at hyphens
    into exactly two parts that both convert to a number, rejected with the
    "Invalid range" message; (3) start is greater than end; (4) the
    increment, 1 when omitted, reads as no integer or as one below 1;
    (5) the padding, 0 when omitted, reads as no integer or as one below 0.
    When no step fails no message is shown. *)
Theorem validation_order (fuel : nat) (el : elements) :
  let inputText := inputTextOf el in
  let params := parseParams inputText in
  let range := rangeOf params in
  let start := nth 0 range NaN in
  let end_ := nth 1 range NaN in
  let inc := incrementOf params in
  let padding := paddingOf params in
  let step1 := negb (Str.truthy inputText) in
  let step2 := rangeInvalid range in
  let step3 := Num.gt start end_ in
  let step4 := (Num.isNaN inc || Num.lt inc (ofZ 1))%bool in
  let step5 := (Num.isNaN padding || Num.lt padding (ofZ 0))%bool in
  (step1 = true ->
   handleProcessText fuel el
   = ([alert "Please enter processing parameters."], Returned el))
  /\ (step1 = false -> step2 = true ->
      handleProcessText fuel el
      = ([alert "Invalid range. Please use the format: range: 1-100"], Returned el))
  /\ (step1 = false -> step2 = false -> step3 = true ->
      handleProcessText fuel el
      = ([alert "Start of range cannot be greater than end."], Returned el))
  /\ (step1 = false -> step2 = false -> step3 = false -> step4 = true ->
      handleProcessText fuel el
      = ([alert "Increment must be a positive number."], Returned el))
  /\ (step1 = false -> step2 = false -> step3 = false -> step4 = false ->
      step5 = true ->
      handleProcessText fuel el
      = ([alert "Padding must be a non-negative number."], Returned el))
  /\ (step1 = false -> step2 = false -> step3 = false -> step4 = false ->
      step5 = false ->
      fst (handleProcessText fuel el) = [])
  /\ (step2 = false
      <-> exists v a b, params !! "range" = Some v /\ Str.split "-" v = [a; b]
                        /\ Number a <> NaN /\ Number b <> NaN).
Proof.
  intros inputText params range start end_ inc padding step1 step2 step3 step4 step5.
  assert (Htruthy : step1 = false -> Str.truthy inputText = true)
    by (unfold step1; intros H; now apply Bool.negb_false_iff in H).
  repeat split.
  - intros H1. apply reject_empty. now apply Bool.negb_true_iff in H1.
  - intros H1 H2. apply reject_range; auto.
  - intros H1 H2 H3. apply reject_order; auto.
  - intros H1 H2 H3 H4. apply reject_increment; auto.
  - intros H1 H2 H3 H4 H5. apply reject_padding; auto.
  - intros H1 H2 H3 H4 H5. rewrite accept by auto.
    fold inputText params range start end_ inc padding.
    destruct (pushLoop fuel _ start end_ inc []) as [t c] eqn:E.
    assert (Ht : t = []).
    { clear - E. revert E. generalize (@nil string) at 1. generalize start.
      induction fuel as [|n IH]; intros i acc E; cbn [pushLoop] in E.
      - now inversion E.
      - destruct (Num.le i end_); [now apply IH in E | now inversion E]. }
    subst t. now destruct c.
  - apply rangeInvalid_spec.
  - apply rangeInvalid_spec.
Qed.

Lemma validation_order_witness :
  handleProcessText 0 (textForm "old" (lines ["range: 7"; "increment: 0"; "padding: -1"]))
  = ([alert "Invalid range. Please use the format: range: 1-100"],
     Returned (textForm "old" (lines ["range: 7"; "increment: 0"; "padding: -1"])))
  /\ handleProcessText 0 (textForm "old" (lines ["range: 1-7"; "increment: 0"; "padding: -1"]))
     = ([alert "Increment must be a positive number."],
        Returned (textForm "old" (lines ["range: 1-7"; "increment: 0"; "padding: -1"]))).
Proof.
  split.
  - pose proof (validation_order 0
      (textForm "old" (lines ["range: 7"; "increment: 0"; "padding: -1"]))) as H.
    cbv zeta in H. destruct H as (_ & H & _). apply H; reflexivity.
  - pose proof (validation_order 0
      (textForm "old" (lines ["range: 1-7"; "increment: 0"; "padding: -1"]))) as H.
    cbv zeta in H. destruct H as (_ & _ & _ & H & _). apply H; reflexivity.
Defined.

(** ** Padding *)

Lemma length_append (s t : string) :
  String.length (s +:+ t) = (String.length s + String.length t)%nat.
Proof. induction s as [|c s IH]; simpl; [reflexivity | now rewrite IH]. Qed.

Lemma length_repeat (c : ascii) (n : nat) : String.length (Str.repeat c n) = n.
Proof. induction n as [|n IH]; simpl; [reflexivity | now rewrite IH]. Qed.

Lemma padStart_length (s : string) (n : Z) (c : ascii) :
  Z.of_nat (String.length (Str.padStart s n c)) = Z.max n (Z.of_nat (String.length s)).
Proof. unfold Str.padStart. rewrite length_append, length_repeat. lia. Qed.

Lemma padStart_wide (s : string) (n : Z) (c : ascii) :
  n <= Z.of_nat (String.length s) -> Str.padStart s n c = s.
Proof.
  intros H. unfold Str.padStart.
  replace (Z.to_nat (n - Z.of_nat (String.length s))) with O by lia. reflexivity.
Qed.

(** The codes of a returning loop are the bodies of the values it went
    through, and the loop itself calls nothing. *)
Lemma pushLoop_codes (fuel : nat) (body : number -> string) (i e inc : number)
    (acc codes : list string) (t : list event) :
  pushLoop fuel body i e inc acc = (t, Returned codes) ->
  t = [] /\ exists values, codes = acc ++ map body values.
Proof.
  revert i acc. induction fuel as [|fuel IH]; intros i acc H; cbn [pushLoop] in H.
  - discriminate.
  - destruct (Num.le i e).
    + apply IH in H as (-> & values & ->). split; [reflexivity|].
      exists (i :: values). now rewrite <- app_assoc.
    + inversion H. split; [reflexivity|]. exists []. now rewrite app_nil_r.
Qed.

(** C5. With a padding above zero the number part of every generated code
    is its number with zeros on the left, up to a width of at least the
    padding, and a number that is already that wide is left as it is; the
    text-driven processor builds every code from such a number part; and
    start 1, end 10, increment 3 and padding 3 give 001, 004, 007, 010. *)
Theorem padding_applied :
  (forall (p : Z) (i : number),
      0 < p ->
      numberPart (ofZ p) i
      = Str.repeat "0" (Z.to_nat (p - Z.of_nat (String.length (toString i))))
        +:+ toString i
      /\ p <= Z.of_nat (String.length (numberPart (ofZ p) i))
      /\ (p <= Z.of_nat (String.length (toString i)) ->
          numberPart (ofZ p) i = toString i))
  /\ (forall fuel el el',
      let params := paramsOf el in
      handleProcessText fuel el = ([], Returned el') ->
      exists p values,
        paddingOf params = ofZ p /\ 0 <= p
        /\ manualData el'
           = appended (manualData el)
               (map (fun i => paramOr params "prefix" +:+ numberPart (ofZ p) i
                              +:+ paramOr params "suffix") values))
  /\ handleProcessText 9
       (textForm "" (lines ["range: 1-10"; "increment: 3"; "padding: 3"]))
     = ([], Returned (textForm (lines ["001"; "004"; "007"; "010"]) "")).
Proof.
  split; [|split].
  - intros p i Hp. unfold numberPart, Num.gt. rewrite lt_ofZ.
    destruct (Z.ltb_spec 0 p); [|lia]. rewrite toLength_ofZ by lia.
    split; [reflexivity|]. split.
    + rewrite padStart_length. lia.
    + apply padStart_wide.
  - intros fuel el el' params H.
    destruct (Str.truthy (inputTextOf el)) eqn:E1;
      [|rewrite reject_empty in H by assumption; discriminate].
    destruct (rangeInvalid (rangeOf params)) eqn:E2;
      [rewrite reject_range in H by assumption; discriminate|].
    destruct (Num.gt (nth 0 (rangeOf params) NaN) (nth 1 (rangeOf params) NaN)) eqn:E3;
      [rewrite reject_order in H by assumption; discriminate|].
    destruct (Num.isNaN (incrementOf params) || Num.lt (incrementOf params) (ofZ 1))%bool
      eqn:E4; [rewrite reject_increment in H by assumption; discriminate|].
    destruct (Num.isNaN (paddingOf params) || Num.lt (paddingOf params) (ofZ 0))%bool
      eqn:E5; [rewrite reject_padding in H by assumption; discriminate|].
    rewrite accept in H by assumption. fold params in H.
    destruct (pushLoop fuel _ _ _ _ []) as [t [codes| |]] eqn:EL;
      cbn [bind ret] in H; try discriminate.
    apply pushLoop_codes in EL as (-> & values & ->).
    apply Bool.orb_false_iff in E5 as [E5 E6].
    destruct (paddingOf_cases params) as [E|[p E]]; [rewrite E in E5; discriminate|].
    rewrite E in E6. rewrite lt_ofZ in E6. apply Z.ltb_ge in E6.
    inversion H. exists p, values. now rewrite <- E.
  - vm_compute. reflexivity.
Qed.

Lemma padding_applied_witness :
  numberPart (ofZ 3) (ofZ 7) = "007"
  /\ numberPart (ofZ 3) (ofZ 1234) = "1234"
  /\ exists p values,
       ofZ 3 = ofZ p /\ 0 <= p
       /\ lines ["001"; "004"; "007"; "010"]
          = appended "" (map (fun i => "" +:+ numberPart (ofZ p) i +:+ "") values).
Proof.
  destruct padding_applied as (Hpart & Hcodes & Hexample).
  split; [|split].
  - destruct (Hpart 3 (ofZ 7)) as (H & _); [lia|]. rewrite H. reflexivity.
  - destruct (Hpart 3 (ofZ 1234)) as (_ & _ & H); [lia|]. apply H. vm_compute. discriminate.
  - exact (Hcodes 9%nat
             (textForm "" (lines ["range: 1-10"; "increment: 3"; "padding: 3"]))
             (textForm (lines ["001"; "004"; "007"; "010"]) "") Hexample).
Defined.

(** ** Pages *)

Lemma In_firstn {A} (x : A) (n : nat) (l : list A) : In x (firstn n l) -> In x l.
Proof.
  revert l. induction n as [|n IH]; intros [|y l]; simpl; try tauto.
  intros [H|H]; [now left | right; now apply IH].
Qed.

Lemma In_skipn {A} (x : A) (n : nat) (l : list A) : In x (skipn n l) -> In x l.
Proof.
  revert l. induction n as [|n IH]; intros [|y l]; simpl; try tauto.
  intros H. right. now apply IH.
Qed.

Lemma forEach_returns {A} (items : list A) (i : nat) (f : A -> nat -> run unit)
    (g : A -> nat -> list event) :
  (forall item j, In item items -> f item j = (g item j, Returned tt)) ->
  forEach items i f = (eachFrom i items g, Returned tt).
Proof.
  revert i. induction items as [|item items IH]; intros i Hf; [reflexivity|].
  cbn [forEach eachFrom]. rewrite (Hf item i) by now left.
  cbn [bind]. rewrite IH by (intros; apply Hf; now right). reflexivity.
Qed.

Lemma chunksOf_fuel {A} (n : nat) (f1 f2 : nat) (items : list A) :
  (1 <= n)%nat -> (length items <= f1)%nat -> (length items <= f2)%nat ->
  chunksOf f1 n items = chunksOf f2 n items.
Proof.
  intros Hn. revert f2 items. induction f1 as [|f1 IH]; intros f2 items H1 H2.
  - destruct items; [|simpl in H1; lia]. now destruct f2.
  - destruct items as [|x items]; [now destruct f2|].
    destruct f2 as [|f2]; [simpl in H2; lia|].
    cbn [chunksOf]. f_equal.
    assert (length (skipn n (x :: items)) <= length items)%nat
      by (rewrite length_skipn; simpl; lia).
    apply IH; simpl in H1, H2; lia.
Qed.

Lemma chunks_cons {A} (n : nat) (items : list A) :
  (1 <= n)%nat -> items <> [] ->
  chunks n items = firstn n items :: chunks n (skipn n items).
Proof.
  intros Hn Hne. unfold chunks. destruct items as [|x items]; [congruence|].
  cbn [length chunksOf]. f_equal. apply chunksOf_fuel; [assumption| |lia].
  rewrite length_skipn. simpl. lia.
Qed.

Lemma chunks_concat {A} (n : nat) (items : list A) :
  (1 <= n)%nat -> concat (chunks n items) = items.
Proof.
  intros Hn. remember (length items) as m eqn:Hm.
  revert items Hm. induction m as [m IH] using lt_wf_ind. intros items Hm.
  destruct items as [|x items]; [reflexivity|].
  rewrite chunks_cons by (assumption || discriminate).
  cbn [concat]. rewrite (IH (length (skipn n (x :: items)))); try reflexivity.
  - apply firstn_skipn.
  - rewrite length_skipn. subst m. simpl. lia.
Qed.


(** ** The duplicate-pair layout of the standard export *)

Section Standard.

Variable valid : string -> bool.
Variable now : Z.
Variables pH bW bH mX mY gH gV : number.

Lemma standardItem_valid (code : string) (j : nat) :
  valid code = true ->
  standardItem valid pH bW bH mX mY gH gV code j
  = (pairOf pH bW bH mX mY gH gV code j, Returned tt).
Proof. intros Hv. unfold standardItem, JsBarcode. rewrite Hv. reflexivity. Qed.


End Standard.

Lemma generateBarcodeData_trace (fuel : nat) (el : elements) (t : list event)
    (codes : list string) :
  generateBarcodeData fuel el = (t, Returned codes) ->
  (t = [] \/ (t = [alert "Please ensure Start, End, and Increment are valid numbers."]
              /\ codes = [])).
Proof.
  unfold generateBarcodeData.
  destruct (Num.isNaN (parseInt (startVal el)) || Num.isNaN (parseInt (endVal el))
            || Num.isNaN (Num.or (parseInt (increment el)) (ofZ 1)))%bool.
  - intros [= <- <-]. now right.
  - intros H. apply pushLoop_codes in H as [-> _]. now left.
Qed.


(** *** What the document of the standard export holds *)

Section Drawn.

Variables pH bW bH mX mY gH gV : number.





End Drawn.





(** ** The dense grid of the united export *)

Lemma numPages_lt (p len : nat) :
  Num.lt (ofNat p) (Num.ceil (Num.div (ofNat len) (ofNat 20))) = (p * 20 <? len)%nat.
Proof.
  change (Num.div (ofNat len) (ofNat 20))
    with (Fin (Qred (inject_Z (Z.of_nat len) / inject_Z 20))).
  unfold Num.ceil, ofNat. rewrite lt_ofZ, Qred_correct.
  assert (E : Qceiling (inject_Z (Z.of_nat len) / inject_Z 20)
              = - (- Z.of_nat len / 20)).
  { unfold Qceiling, Qfloor, Qdiv, Qmult, Qinv, Qopp, inject_Z. simpl.
    now rewrite Z.mul_1_r. }
  rewrite E.
  pose proof (Z_div_mod_eq_full (- Z.of_nat len) 20) as Hd.
  pose proof (Z.mod_pos_bound (- Z.of_nat len) 20 ltac:(lia)) as Hr.
  destruct (Z.ltb_spec (Z.of_nat p) (- (- Z.of_nat len / 20))),
    (Nat.ltb_spec (p * 20) len); try reflexivity; lia.
Qed.

Lemma floor_quarter (i : nat) : Num.floor (Num.div (ofNat i) (ofZ 4)) = ofNat (i / 4).
Proof.
  change (Num.div (ofNat i) (ofZ 4))
    with (Fin (Qred (inject_Z (Z.of_nat i) / inject_Z 4))).
  unfold Num.floor, ofNat. rewrite Qred_correct, <- Zdiv_Qdiv. f_equal.
  now rewrite Nat2Z.inj_div.
Qed.

Lemma rem_quarter (i : nat) : Num.rem (ofNat i) (ofZ 4) = ofNat (i mod 4).
Proof.
  unfold Num.rem, ofNat, ofZ.
  change (Num.isZero (inject_Z 4)) with false. cbv iota zeta.
  assert (Hpos : Num.isNeg (inject_Z (Z.of_nat i) / inject_Z 4) = false).
  { unfold Num.isNeg. apply Bool.negb_false_iff, Qle_bool_iff.
    unfold Qle, Qdiv, Qmult, Qinv, inject_Z. simpl. lia. }
  rewrite Hpos, <- Zdiv_Qdiv. f_equal.
  rewrite <- (Qred_inject_Z (Z.of_nat (i mod 4))). apply Qred_complete.
  rewrite Nat2Z.inj_mod, Z.mod_eq by lia. cbn [Z.of_nat Pos.of_succ_nat Pos.succ].
  unfold Zminus. rewrite inject_Z_plus, inject_Z_opp, inject_Z_mult.
  change (Z.of_nat 4) with 4. reflexivity.
Qed.

Section United.

Variable valid : string -> bool.
Variable pageSize : number * number.

Lemma unitedItem_valid (code : string) (i : nat) :
  valid code = true ->
  unitedItem valid (ofZ 72) (colWidth pageSize) (rowHeight pageSize)
    (itemWidth pageSize) (itemHeight pageSize) code i
  = (slotOf pageSize code i, Returned tt).
Proof.
  intros Hv. unfold unitedItem, JsBarcode. rewrite Hv, floor_quarter, rem_quarter.
  reflexivity.
Qed.

Lemma unitedPages_valid (fuel : nat) (codes : list string) (p : nat) :
  forallb valid codes = true -> (length codes - p * 20 < fuel)%nat ->
  unitedPages valid pageSize fuel (ofZ 72) 20
    (Num.ceil (Num.div (ofNat (length codes)) (ofNat 20))) codes p
  = (pagesFrom (p =? 0)%nat (chunks 20 (skipn (p * 20) codes)) (slotOf pageSize),
     Returned tt).
Proof.
  intros Hvalid. revert p. induction fuel as [|fuel IH]; intros p Hfuel; [lia|].
  cbn [unitedPages]. rewrite numPages_lt.
  destruct (Nat.ltb_spec (p * 20) (length codes)) as [Hp|Hp].
  - assert (Hne : skipn (p * 20) codes <> []).
    { intros E. apply (f_equal (@length string)) in E.
      rewrite length_skipn in E. simpl in E. lia. }
    rewrite chunks_cons by (lia || assumption). cbn [pagesFrom].
    rewrite skipn_skipn. unfold slice.
    replace ((p + 1) * 20 - p * 20)%nat with 20%nat by lia.
    change (Num.div (Num.sub (fst pageSize) (Num.mul (ofZ 2) (ofZ 72))) (ofZ 4))
      with (colWidth pageSize).
    change (Num.div (Num.sub (snd pageSize) (Num.mul (ofZ 2) (ofZ 72))) (ofZ 5))
      with (rowHeight pageSize).
    change (Num.mul (colWidth pageSize) (Fin (4 # 5))) with (itemWidth pageSize).
    change (Num.mul (rowHeight pageSize) (Fin (1 # 2))) with (itemHeight pageSize).
    rewrite (forEach_returns _ 0 _ (slotOf pageSize)).
    + rewrite (IH (S p)) by lia.
      replace (20 + p * 20)%nat with (S p * 20)%nat by lia.
      destruct p; reflexivity.
    + intros code j Hin. apply unitedItem_valid.
      apply In_firstn, In_skipn in Hin.
      rewrite forallb_forall in Hvalid. now apply Hvalid.
  - rewrite skipn_all2 by lia. reflexivity.
Qed.

End United.

Lemma div_finite (a : Q) (z : Z) :
  z <> 0 -> Num.div (Fin a) (ofZ z) = Fin (Qred (a / inject_Z z)).
Proof.
  intros Hz. unfold Num.div, ofZ, Num.isZero.
  replace (Qeq_bool (inject_Z z) 0) with false; [reflexivity|].
  symmetry. apply Bool.not_true_iff_false. rewrite Qeq_bool_iff.
  unfold Qeq, inject_Z; simpl. lia.
Qed.

(** On a finite page the item is 80% by 50% of its cell and sits in the
    middle of it, in both directions. *)
Lemma slot_centred (w h : Q) (row col : nat) :
  exists cw rh iw ih x y,
    colWidth (Fin w, Fin h) = Fin cw /\ rowHeight (Fin w, Fin h) = Fin rh
    /\ itemWidth (Fin w, Fin h) = Fin iw /\ itemHeight (Fin w, Fin h) = Fin ih
    /\ slotX (Fin w, Fin h) col = Fin x /\ slotY (Fin w, Fin h) row = Fin y
    /\ (cw == (w - 2 * 72) / 4)%Q /\ (rh == (h - 2 * 72) / 5)%Q
    /\ (iw == (4 # 5) * cw)%Q /\ (ih == (1 # 2) * rh)%Q
    /\ (x - (72 + inject_Z (Z.of_nat col) * cw)
        == (72 + (inject_Z (Z.of_nat col) + 1) * cw) - (x + iw))%Q
    /\ (y - (72 + inject_Z (Z.of_nat row) * rh)
        == (72 + (inject_Z (Z.of_nat row) + 1) * rh) - (y + ih))%Q.
Proof.
  unfold slotX, slotY, itemWidth, itemHeight, colWidth, rowHeight. cbn [fst snd].
  change (Num.mul (ofZ 2) (ofZ 72)) with (Fin (Qmult' (inject_Z 2) (inject_Z 72))).
  cbn [Num.sub Num.add Num.neg].
  rewrite !div_finite by lia. cbn [Num.mul Num.sub Num.add Num.neg].
  rewrite !div_finite by lia. unfold ofNat, ofZ. cbn [Num.mul Num.add].
  do 6 eexists. repeat (split; [reflexivity|]).
  unfold Qplus', Qmult'. rewrite !Qred_correct.
  change (inject_Z 72) with 72%Q. change (inject_Z 2) with 2%Q.
  change (inject_Z 4) with 4%Q. change (inject_Z 5) with 5%Q.
  repeat split; field.
Qed.

(** The calls of the united export when the encoder accepts every code. *)
Lemma handleUnitedPdfExport_calls (valid : string -> bool) (pageSize : number * number)
    (now : Z) (fuel : nat) (el : elements) :
  let codes := getCodesFromManualEntry el in
  codes <> [] -> forallb valid codes = true -> (length codes < fuel)%nat ->
  handleUnitedPdfExport valid pageSize now fuel el
  = (jsPDF_new false None
       :: pagesFrom true (chunks 20 codes) (slotOf pageSize)
       ++ [doc_save ("barcodes-manual-" +:+ decimalOfZ now +:+ ".pdf")],
     Returned tt).
Proof.
  intros codes Hne Hvalid Hfuel.
  unfold handleUnitedPdfExport. fold codes.
  destruct codes as [|c codes'] eqn:E; [congruence|]. rewrite <- E in *.
  replace (length codes =? 0)%nat with false
    by (symmetry; apply Nat.eqb_neq; rewrite E; discriminate).
  cbn [bind emit]. rewrite unitedPages_valid by (assumption || lia).
  cbn [skipn Nat.eqb Nat.mul bind emit app]. reflexivity.
Qed.

(** *** What the document of the united export holds *)

Section Started.

Variable pageSize : number * number.

Lemma advance_slots (page : list string) (i : nat) (d : document) :
  fold_left advance (eachFrom i page (slotOf pageSize)) d
  = {| before := before d; current := current d; pending := pending d ++ page;
       output := output d |}.
Proof.
  revert i d. induction page as [|code page IH]; intros i d.
  - destruct d. cbn. now rewrite app_nil_r.
  - cbn [eachFrom slotOf app fold_left advance]. rewrite IH.
    cbn [before current pending output]. now rewrite <- app_assoc.
Qed.

Lemma advance_grid (pages : list (list string)) (d : document) :
  current d = [] ->
  let d' := fold_left advance (pagesFrom false pages (slotOf pageSize)) d in
  pending d' = pending d ++ concat pages /\ output d' = output d /\ current d' = []
  /\ before d' = before d ++ repeat [] (length pages).
Proof.
  revert d. induction pages as [|page pages IH]; intros d Hc.
  - cbn. now rewrite !app_nil_r.
  - destruct d as [bf cur pend out]. cbn in Hc. subst cur.
    cbn [pagesFrom]. cbv zeta. rewrite !fold_left_app. cbn [fold_left advance].
    rewrite advance_slots. cbn [before current pending output].
    match goal with |- context [fold_left advance _ ?d1] =>
      destruct (IH d1 eq_refl) as (H1 & H2 & H3 & H4) end.
    rewrite H1, H2, H3, H4. cbn [before current pending output concat length repeat].
    unfold sheets. cbn [before current].
    rewrite <- !app_assoc. repeat split; reflexivity.
Qed.

(** With no drawing awaited, the document is saved with nothing on its
    pages, and every drawing is made afterwards on the last page. *)
Lemma document_united (pages : list (list string)) (name : string) :
  pages <> [] ->
  let d := documentOf (jsPDF_new false None
                         :: pagesFrom true pages (slotOf pageSize) ++ [doc_save name]) in
  output d = Some (repeat [] (length pages))
  /\ sheets d = repeat [] (length pages - 1) ++ [concat pages].
Proof.
  intros Hne. destruct pages as [|page pages]; [congruence|].
  cbv zeta. unfold documentOf. cbn [fold_left advance pagesFrom app].
  rewrite !fold_left_app, advance_slots.
  cbn [before current pending output blankDocument app].
  match goal with |- context [fold_left advance (pagesFrom _ _ _) ?d1] =>
    destruct (advance_grid pages d1 eq_refl) as (H1 & H2 & H3 & H4) end.
  cbn [before current pending output] in H1, H2, H3, H4.
  cbn [fold_left advance settle output sheets before current].
  unfold sheets. rewrite H1, H3, H4. cbn [app length concat settle before current pending].
  replace (S (length pages) - 1)%nat with (length pages) by lia.
  split; [|reflexivity].
  f_equal. cbn [repeat]. symmetry. apply repeat_cons.
Qed.

End Started.

(** C3: the code at the failing input.  In the united export, when the
    encoder accepts the codes, the calls go through them twenty to a page,
    in order, a new page before every page but the first, the code in slot
    [i] of its page at row [i / 4] and column [i mod 4].  No drawing is
    awaited, though: the document is saved with nothing on its pages, and
    the drawings are all made afterwards, on the last page. *)
Theorem united_drawings_unawaited (valid : string -> bool) (pageSize : number * number)
    (now : Z) (fuel : nat) (el : elements) :
  let codes := getCodesFromManualEntry el in
  let calls := fst (handleUnitedPdfExport valid pageSize now fuel el) in
  codes <> [] -> forallb valid codes = true -> (length codes < fuel)%nat ->
  handleUnitedPdfExport valid pageSize now fuel el
  = (jsPDF_new false None
       :: pagesFrom true (chunks 20 codes) (slotOf pageSize)
       ++ [doc_save ("barcodes-manual-" +:+ decimalOfZ now +:+ ".pdf")],
     Returned tt)
  /\ output (documentOf calls) = Some (repeat [] (length (chunks 20 codes)))
  /\ sheets (documentOf calls) = repeat [] (length (chunks 20 codes) - 1) ++ [codes].
Proof.
  intros codes calls Hne Hvalid Hfuel.
  pose proof (handleUnitedPdfExport_calls valid pageSize now fuel el Hne Hvalid Hfuel) as Hrun.
  fold codes in Hrun. split; [exact Hrun|].
  unfold calls. rewrite Hrun. cbn [fst].
  assert (Hpages : chunks 20 codes <> []).
  { destruct codes as [|c codes']; [congruence|].
    rewrite chunks_cons by (lia || discriminate). discriminate. }
  destruct (document_united pageSize (chunks 20 codes)
              ("barcodes-manual-" +:+ decimalOfZ now +:+ ".pdf") Hpages) as [Hout Hsheets].
  split; [exact Hout|]. rewrite Hsheets, chunks_concat by lia. reflexivity.
Qed.

(** Twenty-five entries: the calls make two pages, of twenty and of five
    codes, and the document is saved with two empty pages; the standard
    export, which awaits its drawings, saves seven labels on their pages. *)
Lemma united_drawings_unawaited_witness :
  handleUnitedPdfExport CODE128 a4 0 26 labels25
  = (jsPDF_new false None
       :: pagesFrom true
            [["01"; "02"; "03"; "04"; "05"; "06"; "07"; "08"; "09"; "10";
              "11"; "12"; "13"; "14"; "15"; "16"; "17"; "18"; "19"; "20"];
             ["21"; "22"; "23"; "24"; "25"]] (slotOf a4)
       ++ [doc_save "barcodes-manual-0.pdf"],
     Returned tt)
  /\ output (documentOf (fst (handleUnitedPdfExport CODE128 a4 0 26 labels25)))
     = Some [[]; []]
  /\ sheets (documentOf (fst (handleUnitedPdfExport CODE128 a4 0 26 labels25)))
     = [[];
        ["01"; "02"; "03"; "04"; "05"; "06"; "07"; "08"; "09"; "10";
         "11"; "12"; "13"; "14"; "15"; "16"; "17"; "18"; "19"; "20";
         "21"; "22"; "23"; "24"; "25"]]
  /\ output (documentOf (fst (handleStandardPdfExport CODE128 0 9 sevenLabels)))
     = Some [["A1"; "A1"; "A2"; "A2"; "A3"; "A3"]; ["A4"; "A4"; "A5"; "A5"; "A6"; "A6"];
             ["A7"; "A7"]].
Proof.
  destruct (united_drawings_unawaited CODE128 a4 0 26 labels25)
    as (Hrun & Hout & Hsheets);
    [discriminate | reflexivity | vm_compute; lia |].
  split; [exact Hrun|]. split; [exact Hout|]. split; [exact Hsheets|].
  vm_compute. reflexivity.
Defined.

(** ** Validation of the layout settings *)

(** The claim C8 fails as stated: a page width of [Infinity] is not a finite
    number, and the export goes on to build and save the document. *)
Lemma layout_validated_counterexample :
  Num.mul (parseFloat (pageWidth infinitePage)) (ofZ 72) = Inf false
  /\ handleStandardPdfExport CODE128 0 9 infinitePage
     = (jsPDF_new true (Some (Inf false, ofZ 792))
          :: pairOf (ofZ 792) (ofZ 100) (ofZ 50) (ofZ 36) (ofZ 36) (ofZ 150) (ofZ 200) "A1" 0
          ++ [doc_save "barcodes-standard-0.pdf"],
        Returned tt).
Proof. split; vm_compute; reflexivity. Qed.

Lemma isNaN_points (x : number) : Num.isNaN (Num.mul x (ofZ 72)) = Num.isNaN x.
Proof. now destruct x. Qed.

(** C8, amended.  In the standard export every layout setting is checked to
    be a number before any use: when generation has returned and a setting
    reads as [NaN], the export ends with a message (about the missing codes
    when there are none, about the settings otherwise), and every call it
    has made by then is a message: nothing was rendered, no document was
    opened. *)
Theorem layout_validated (valid : string -> bool) (now : Z) (fuel : nat) (el : elements)
    (t : list event) (codes : list string) :
  generateBarcodeData fuel el = (t, Returned codes) ->
  existsb (fun field => Num.isNaN (parseFloat field)) (layoutFields el) = true ->
  handleStandardPdfExport valid now fuel el
  = (t ++ [alert (match codes with
                  | [] => "No barcodes to export."
                  | _ :: _ => "Please ensure all layout settings are valid numbers."
                  end)],
     Returned tt)
  /\ forallb isAlert (fst (handleStandardPdfExport valid now fuel el)) = true.
Proof.
  intros Hgen Hnan.
  assert (Hrun : handleStandardPdfExport valid now fuel el
                 = (t ++ [alert (match codes with
                                 | [] => "No barcodes to export."
                                 | _ :: _ => "Please ensure all layout settings are valid numbers."
                                 end)], Returned tt)).
  { unfold handleStandardPdfExport. rewrite Hgen. cbn [bind].
    destruct codes as [|c codes]; [reflexivity|]. cbn [length Nat.eqb].
    replace (existsb Num.isNaN _) with true; [reflexivity|].
    rewrite <- Hnan. unfold layoutFields. cbn [existsb].
    now rewrite !isNaN_points. }
  split; [exact Hrun|]. rewrite Hrun. cbn [fst].
  rewrite forallb_app. cbn [forallb isAlert]. rewrite Bool.andb_true_r.
  destruct (generateBarcodeData_trace _ _ _ _ Hgen) as [->|[-> _]]; reflexivity.
Qed.

Lemma layout_validated_witness :
  handleStandardPdfExport CODE128 0 9
    (rangeForm "A" "1" "7" "" "")
  = ([alert "Please ensure all layout settings are valid numbers."], Returned tt).
Proof.
  destruct (layout_validated CODE128 0 9 (rangeForm "A" "1" "7" "" "") []
              ["A1"; "A2"; "A3"; "A4"; "A5"; "A6"; "A7"]) as [H _];
    [reflexivity | reflexivity |].
  exact H.
Defined.

(** ** A code that the encoder refuses *)

(** The preview goes through every one of the first ten codes, whatever the
    encoder refuses. *)
Lemma preview_continues (valid : string -> bool) (fuel : nat) (el : elements)
    (t : list event) (codes : list string) :
  generateBarcodeData fuel el = (t, Returned codes) -> codes <> [] ->
  handlePreview valid fuel el
  = (t ++ canvas_clear :: eachFrom 0 (firstn 10 codes) (fun code _ => previewOf valid code),
     Returned tt).
Proof.
  intros Hgen Hne. unfold handlePreview. rewrite Hgen. cbn [bind emit].
  destruct codes as [|c codes]; [congruence|]. cbn [length Nat.eqb].
  rewrite (forEach_returns _ 0 _ (fun code _ => previewOf valid code)); [reflexivity|].
  intros code j _. unfold previewOf, JsBarcode. now destruct (valid code).
Qed.

(** The archive export goes through every code, whatever the encoder
    refuses. *)
Lemma archive_continues (valid : string -> bool) (now : Z) (el : elements) :
  getCodesFromManualEntry el <> [] ->
  handleSvgZipExport valid now false el
  = (eachFrom 0 (getCodesFromManualEntry el) (fun code _ => archiveOf valid code)
     ++ [zip_download ("barcodes-svg-" +:+ decimalOfZ now +:+ ".zip")],
     Returned tt).
Proof.
  intros Hne. unfold handleSvgZipExport.
  destruct (getCodesFromManualEntry el) as [|c codes] eqn:E; [congruence|].
  cbn [length Nat.eqb].
  rewrite (forEach_returns _ 0 _ (fun code _ => archiveOf valid code)); [reflexivity|].
  intros code j _. unfold archiveOf, JsBarcode. now destruct (valid code).
Qed.

(** C9: the code at the failing inputs.  With the manual entries A, e-acute
    and B the united export stops at the second code: the exception leaves
    the handler, B is never drawn and the document is not saved, where the
    archive export of the same entries skips the code and goes on.  With the
    prefix e-acute the standard export stops at its first code, where the
    preview of the same form marks each code and goes on. *)
Theorem invalid_code_aborts_pdf :
  CODE128 eacute = false
  /\ handleUnitedPdfExport CODE128 a4 0 9 mixedEntries
     = (jsPDF_new false None :: slotOf a4 "A" 0, Thrown (refused eacute))
  /\ handleSvgZipExport CODE128 0 false mixedEntries
     = ([ barcode "A"; zip_file "a.svg" "A";
          console_warn ("Could not generate barcode for " +:+ dquote +:+ eacute
                        +:+ dquote +:+ ", skipping.");
          barcode "B"; zip_file "b.svg" "B";
          zip_download "barcodes-svg-0.zip" ],
        Returned tt)
  /\ handleStandardPdfExport CODE128 0 9 accentedRange
     = ([jsPDF_new false (Some (ofZ 612, ofZ 792))], Thrown (refused (eacute +:+ "1")))
  /\ handlePreview CODE128 9 accentedRange
     = (canvas_clear
          :: previewOf CODE128 (eacute +:+ "1") ++ previewOf CODE128 (eacute +:+ "2"),
        Returned tt).
Proof. repeat split; vm_compute; reflexivity. Qed.


(** * Further properties *)

(** ** Strings: appending and reversing *)

Lemma append_cons (c : ascii) (a b : string) : String c a +:+ b = String c (a +:+ b).
Proof. reflexivity. Qed.

Lemma append_empty (s : string) : s +:+ "" = s.
Proof. induction s as [|c s IH]; [reflexivity|]. now rewrite append_cons, IH. Qed.

Lemma append_associative (a b c : string) : (a +:+ b) +:+ c = a +:+ b +:+ c.
Proof. induction a as [|x a IH]; [reflexivity|]. now rewrite !append_cons, IH. Qed.

Lemma chars_of_append (a b : string) : chars (a +:+ b) = chars a ++ chars b.
Proof. induction a as [|x a IH]; [reflexivity|]. rewrite append_cons. simpl. now rewrite IH. Qed.

Lemma rev_app_append (s1 s2 : string) : String.rev_app s1 s2 = String.rev s1 +:+ s2.
Proof.
  unfold String.rev. revert s2. induction s1 as [|c s1 IH]; intros s2; [reflexivity|].
  cbn [String.rev_app]. rewrite IH, (IH (String c "")), append_associative. reflexivity.
Qed.

Lemma rev_of_cons (c : ascii) (s : string) :
  String.rev (String c s) = String.rev s +:+ String c "".
Proof. unfold String.rev at 1. cbn [String.rev_app]. apply rev_app_append. Qed.

Lemma rev_of_append (a b : string) : String.rev (a +:+ b) = String.rev b +:+ String.rev a.
Proof.
  induction a as [|c a IH]; [now rewrite append_empty|].
  now rewrite append_cons, !rev_of_cons, IH, append_associative.
Qed.

Lemma rev_of_rev (s : string) : String.rev (String.rev s) = s.
Proof.
  induction s as [|c s IH]; [reflexivity|].
  now rewrite rev_of_cons, rev_of_append, IH.
Qed.

Lemma append_is_empty (a b : string) : a +:+ b = "" -> a = "" /\ b = "".
Proof. destruct a; [now split | discriminate]. Qed.

Lemma rev_is_empty (s : string) : String.rev s = "" -> s = "".
Proof.
  destruct s as [|c s]; [reflexivity|]. rewrite rev_of_cons. intros H.
  apply append_is_empty in H as [_ H]. discriminate.
Qed.

(** ** Strings: white space at the ends *)

Lemma blank_append (a b : string) : blank (a +:+ b) = (blank a && blank b)%bool.
Proof. unfold blank. now rewrite chars_of_append, forallb_app. Qed.

Lemma blank_rev (s : string) : blank (String.rev s) = blank s.
Proof.
  induction s as [|c s IH]; [reflexivity|].
  rewrite rev_of_cons, blank_append, IH. unfold blank. simpl.
  rewrite Bool.andb_true_r. apply Bool.andb_comm.
Qed.

Lemma trimStart_blank (s : string) : blank s = true -> Str.trimStart s = "".
Proof.
  induction s as [|c s IH]; [reflexivity|]. unfold blank. simpl.
  intros H. apply Bool.andb_true_iff in H as [Hc Hs]. rewrite Hc. now apply IH.
Qed.

(** Trimming takes white space off: the string is white space, then what
    [trimStart] leaves of it. *)
Lemma trimStart_parts (s : string) :
  exists w, blank w = true /\ s = w +:+ Str.trimStart s.
Proof.
  induction s as [|c s (w & Hw & IH)]; [now exists ""|].
  cbn [Str.trimStart]. destruct (Str.isWhiteSpace c) eqn:Hc.
  - exists (String c w). split.
    + unfold blank in *. simpl. now rewrite Hc.
    + rewrite append_cons. now f_equal.
  - now exists "".
Qed.

Lemma trimEnd_parts (s : string) :
  exists w, blank w = true /\ s = Str.trimEnd s +:+ w.
Proof.
  destruct (trimStart_parts (String.rev s)) as (w & Hw & E).
  exists (String.rev w). split; [now rewrite blank_rev|].
  unfold Str.trimEnd. rewrite <- rev_of_append, <- E. now rewrite rev_of_rev.
Qed.

Lemma trimStart_head (s : string) : solidHead (Str.trimStart s) = true.
Proof.
  induction s as [|c s IH]; [reflexivity|].
  cbn [Str.trimStart]. destruct (Str.isWhiteSpace c) eqn:Hc; [exact IH|].
  cbn [solidHead]. now rewrite Hc.
Qed.

Lemma trimStart_fixed (s : string) : solidHead s = true -> Str.trimStart s = s.
Proof.
  destruct s as [|c s]; [reflexivity|]. cbn [solidHead Str.trimStart].
  now destruct (Str.isWhiteSpace c).
Qed.

Lemma trimEnd_fixed (s : string) : solidEnd s = true -> Str.trimEnd s = s.
Proof.
  unfold solidEnd, Str.trimEnd. intros H. rewrite trimStart_fixed by exact H.
  apply rev_of_rev.
Qed.

Lemma trimEnd_end (s : string) : solidEnd (Str.trimEnd s) = true.
Proof. unfold solidEnd, Str.trimEnd. rewrite rev_of_rev. apply trimStart_head. Qed.

Lemma trimEnd_head (s : string) : solidHead s = true -> solidHead (Str.trimEnd s) = true.
Proof.
  intros H. destruct (trimEnd_parts s) as (w & _ & E).
  destruct (Str.trimEnd s) as [|c t]; [reflexivity|].
  rewrite E in H. exact H.
Qed.

Lemma trim_head (s : string) : solidHead (Str.trim s) = true.
Proof. apply trimEnd_head, trimStart_head. Qed.

Lemma trim_end (s : string) : solidEnd (Str.trim s) = true.
Proof. apply trimEnd_end. Qed.

Lemma trim_fixed (s : string) : solidHead s = true -> solidEnd s = true -> Str.trim s = s.
Proof.
  intros Hh He. unfold Str.trim. rewrite trimStart_fixed by exact Hh.
  now apply trimEnd_fixed.
Qed.

(** Trimming twice is trimming once. *)
Lemma trim_trim (s : string) : Str.trim (Str.trim s) = Str.trim s.
Proof. apply trim_fixed; [apply trim_head | apply trim_end]. Qed.

Lemma trim_blank (s : string) : blank s = true -> Str.trim s = "".
Proof. intros H. unfold Str.trim. now rewrite trimStart_blank. Qed.

Lemma trimEnd_blank (s : string) : Str.trimEnd s = "" -> blank s = true.
Proof.
  intros H. destruct (trimEnd_parts s) as (w & Hw & E). rewrite H in E.
  now rewrite E.
Qed.


(** A string trims to nothing exactly when it is white space only. *)
Lemma trim_empty (s : string) : Str.trim s = "" <-> blank s = true.
Proof.
  split; [|apply trim_blank]. unfold Str.trim. intros H.
  apply trimEnd_blank in H.
  destruct (trimStart_parts s) as (w & Hw & E). rewrite E, blank_append, Hw. exact H.
Qed.

Lemma solidEnd_append (a b : string) : b <> "" -> solidEnd (a +:+ b) = solidEnd b.
Proof.
  intros Hb. unfold solidEnd. rewrite rev_of_append.
  destruct (String.rev b) as [|c t] eqn:E; [now apply rev_is_empty in E|].
  reflexivity.
Qed.

Lemma solidHead_append (a b : string) : a <> "" -> solidHead (a +:+ b) = solidHead a.
Proof. destruct a; [congruence | reflexivity]. Qed.

(** ** Strings: splitting and joining *)

Lemma split_nonempty (sep : ascii) (s : string) : Str.split sep s <> [].
Proof.
  destruct s as [|c s]; [discriminate|]. cbn [Str.split].
  destruct (Ascii.eqb c sep); [discriminate|].
  destruct (Str.split sep s); discriminate.
Qed.

Lemma split_at_sep (sep : ascii) (s : string) :
  Str.split sep (String sep s) = "" :: Str.split sep s.
Proof. cbn [Str.split]. now rewrite Ascii.eqb_refl. Qed.

Lemma split_at_other (sep c : ascii) (s : string) :
  c <> sep ->
  exists piece pieces,
    Str.split sep s = piece :: pieces
    /\ Str.split sep (String c s) = String c piece :: pieces.
Proof.
  intros Hc. cbn [Str.split]. destruct (Ascii.eqb_spec c sep); [contradiction|].
  destruct (Str.split sep s) as [|piece pieces] eqn:E; [now apply split_nonempty in E|].
  now exists piece, pieces.
Qed.

(** Splitting a text at a separator that stands in it. *)
Lemma split_append (sep : ascii) (a b : string) :
  Str.split sep (a +:+ String sep b) = Str.split sep a ++ Str.split sep b.
Proof.
  induction a as [|c a IH].
  - change ("" +:+ String sep b) with (String sep b). now rewrite split_at_sep.
  - rewrite append_cons. destruct (Ascii.eqb_spec c sep) as [->|Hc].
    + now rewrite !split_at_sep, IH.
    + destruct (split_at_other sep c a Hc) as (p & ps & E1 & E2).
      destruct (split_at_other sep c (a +:+ String sep b) Hc) as (q & qs & E3 & E4).
      rewrite E2, E4. rewrite IH, E1 in E3. injection E3 as <- <-. reflexivity.
Qed.

Lemma split_whole (sep : ascii) (s : string) :
  ~ In sep (chars s) -> Str.split sep s = [s].
Proof.
  induction s as [|c s IH]; [reflexivity|]. intros Hn.
  assert (Hc : c <> sep) by (intros ->; apply Hn; now left).
  destruct (split_at_other sep c s Hc) as (p & ps & E1 & E2).
  rewrite E2. rewrite IH in E1 by (intros H; apply Hn; now right).
  now injection E1 as <- <-.
Qed.

(** The text with one more character that is not the separator: the last
    piece has one more character. *)
Lemma split_snoc (sep c : ascii) (s : string) :
  c <> sep ->
  exists init piece,
    Str.split sep s = init ++ [piece]
    /\ Str.split sep (s +:+ String c "") = init ++ [piece +:+ String c ""].
Proof.
  intros Hc. induction s as [|a s (init & piece & E1 & E2)].
  - exists [], "". split; [reflexivity|]. apply split_whole.
    intros [H|[]]. now apply Hc.
  - rewrite append_cons. destruct (Ascii.eqb_spec a sep) as [->|Ha].
    + exists ("" :: init), piece. now rewrite !split_at_sep, E1, E2.
    + destruct (split_at_other sep a s Ha) as (p & ps & E3 & E4).
      destruct (split_at_other sep a (s +:+ String c "") Ha) as (q & qs & E5 & E6).
      rewrite E4, E6. rewrite E1 in E3. rewrite E2 in E5.
      destruct init as [|i init]; cbn [app] in E3, E5.
      * injection E3 as <- <-. injection E5 as <- <-.
        now exists [], (String a piece).
      * injection E3 as <- <-. injection E5 as <- <-.
        now exists (String a i :: init), piece.
Qed.

Lemma join_cons (sep x : string) (xs : list string) :
  xs <> [] -> Str.join sep (x :: xs) = x +:+ sep +:+ Str.join sep xs.
Proof. destruct xs; [congruence | reflexivity]. Qed.

(** Joining the pieces of a text gives the text back. *)
Lemma join_split (sep : ascii) (s : string) :
  Str.join (String sep "") (Str.split sep s) = s.
Proof.
  induction s as [|c s IH]; [reflexivity|].
  destruct (Ascii.eqb_spec c sep) as [->|Hc].
  - rewrite split_at_sep, join_cons by apply split_nonempty. now rewrite IH.
  - destruct (split_at_other sep c s Hc) as (p & ps & E1 & E2).
    rewrite E2. rewrite E1 in IH. destruct ps as [|p' ps].
    + cbn in IH |- *. now rewrite IH.
    + rewrite join_cons in IH |- * by discriminate.
      rewrite append_cons. now rewrite IH.
Qed.

(** Splitting the joined lines gives the lines back, when there is a line
    and no line holds the separator. *)
Lemma split_join (sep : ascii) (ls : list string) :
  ls <> [] -> Forall (fun l => ~ In sep (chars l)) ls ->
  Str.split sep (Str.join (String sep "") ls) = ls.
Proof.
  induction ls as [|l ls IH]; [congruence|]. intros _ Hall.
  apply Forall_cons_iff in Hall as [Hl Hls].
  destruct ls as [|l' ls].
  - cbn. now apply split_whole.
  - rewrite join_cons by discriminate.
    change (l +:+ String sep "" +:+ Str.join (String sep "") (l' :: ls))
      with (l +:+ String sep (Str.join (String sep "") (l' :: ls))).
    rewrite split_append, split_whole by exact Hl.
    rewrite IH by (discriminate || assumption). reflexivity.
Qed.

(** ** The entries of the manual data *)

Lemma entries_append (a b : string) :
  entriesOf (a +:+ String newline b) = entriesOf a ++ entriesOf b.
Proof. now rewrite split_append, map_app, List.filter_app. Qed.

Lemma trim_space_head (c : ascii) (s : string) :
  Str.isWhiteSpace c = true -> Str.trim (String c s) = Str.trim s.
Proof. intros Hc. unfold Str.trim. cbn [Str.trimStart]. now rewrite Hc. Qed.

Lemma trimStart_snoc (c : ascii) (s : string) :
  Str.isWhiteSpace c = true ->
  Str.trimStart (s +:+ String c "")
  = if blank s then "" else Str.trimStart s +:+ String c "".
Proof.
  intros Hc. induction s as [|a s IH].
  - change ("" +:+ String c "") with (String c ""). cbn [Str.trimStart]. now rewrite Hc.
  - rewrite append_cons. cbn [Str.trimStart]. unfold blank in *.
    cbn [list_ascii_of_string forallb].
    destruct (Str.isWhiteSpace a); [exact IH|]. now rewrite append_cons.
Qed.

Lemma trimEnd_space_end (c : ascii) (s : string) :
  Str.isWhiteSpace c = true -> Str.trimEnd (s +:+ String c "") = Str.trimEnd s.
Proof.
  intros Hc. unfold Str.trimEnd. rewrite rev_of_append.
  change (String.rev (String c "")) with (String c "").
  rewrite append_cons. cbn [Str.trimStart]. now rewrite Hc.
Qed.

Lemma trim_space_end (c : ascii) (s : string) :
  Str.isWhiteSpace c = true -> Str.trim (s +:+ String c "") = Str.trim s.
Proof.
  intros Hc. unfold Str.trim. rewrite trimStart_snoc by exact Hc.
  destruct (blank s) eqn:Hb.
  - now rewrite (trimStart_blank s Hb).
  - now apply trimEnd_space_end.
Qed.

Lemma entries_space_head (c : ascii) (s : string) :
  Str.isWhiteSpace c = true -> entriesOf (String c s) = entriesOf s.
Proof.
  intros Hc. destruct (Ascii.eqb_spec c newline) as [->|Hn].
  - now rewrite split_at_sep.
  - destruct (split_at_other newline c s Hn) as (p & ps & E1 & E2).
    rewrite E1, E2. cbn [map]. now rewrite trim_space_head.
Qed.

Lemma entries_space_end (c : ascii) (s : string) :
  Str.isWhiteSpace c = true -> entriesOf (s +:+ String c "") = entriesOf s.
Proof.
  intros Hc. destruct (Ascii.eqb_spec c newline) as [->|Hn].
  - rewrite entries_append. apply app_nil_r.
  - destruct (split_snoc newline c s Hn) as (init & p & E1 & E2).
    rewrite E1, E2, !map_app, !List.filter_app. cbn [map]. now rewrite trim_space_end.
Qed.

Lemma entries_trimStart (s : string) : entriesOf (Str.trimStart s) = entriesOf s.
Proof.
  induction s as [|c s IH]; [reflexivity|]. cbn [Str.trimStart].
  destruct (Str.isWhiteSpace c) eqn:Hc; [|reflexivity].
  now rewrite entries_space_head.
Qed.

Lemma entries_blank_end (w s : string) :
  blank w = true -> entriesOf (s +:+ w) = entriesOf s.
Proof.
  revert s. induction w as [|c w IH]; intros s Hw; [now rewrite append_empty|].
  unfold blank in Hw. cbn [list_ascii_of_string forallb] in Hw.
  apply Bool.andb_true_iff in Hw as [Hc Hw].
  change (s +:+ String c w) with (s +:+ String c "" +:+ w).
  rewrite <- append_associative, IH by exact Hw. now apply entries_space_end.
Qed.

(** The entries of a text are those of the trimmed text. *)
Lemma entries_trim (s : string) : entriesOf (Str.trim s) = entriesOf s.
Proof.
  change (Str.trim s) with (Str.trimEnd (Str.trimStart s)).
  rewrite <- (entries_trimStart s).
  destruct (trimEnd_parts (Str.trimStart s)) as (w & Hw & E).
  rewrite E at 2. now rewrite entries_blank_end.
Qed.

Lemma entries_blank (s : string) : blank s = true -> entriesOf s = [].
Proof.
  intros H. change (entriesOf ("" +:+ s) = []). now rewrite entries_blank_end.
Qed.

Lemma blank_join (ls : list string) :
  Forall (fun l => blank l = true) ls -> blank (lines ls) = true.
Proof.
  induction ls as [|l ls IH]; [reflexivity|]. intros H.
  apply Forall_cons_iff in H as [Hl Hls]. unfold lines in *.
  destruct ls as [|l' ls]; [exact Hl|].
  rewrite join_cons by discriminate. rewrite !blank_append, Hl, IH by exact Hls.
  reflexivity.
Qed.

Lemma entries_none (s : string) : entriesOf s = [] -> blank s = true.
Proof.
  intros H. rewrite <- (join_split newline s). apply blank_join.
  apply List.Forall_forall. intros p Hp. apply trim_empty.
  destruct (Str.trim p) as [|c t] eqn:E; [reflexivity|]. exfalso.
  assert (Hin : In (String c t) (entriesOf s)).
  { apply List.filter_In. split; [|reflexivity]. rewrite <- E. now apply in_map. }
  rewrite H in Hin. destruct Hin.
Qed.

Lemma entries_are_entries (s : string) : Forall isEntry (entriesOf s).
Proof.
  apply List.Forall_forall. intros x Hx. apply List.filter_In in Hx as [Hx Ht].
  apply in_map_iff in Hx as (p & <- & Hp). repeat split.
  - intros E. rewrite E in Ht. discriminate.
  - apply trim_trim.
  - intros Hin. apply trim_chars in Hin. now apply (split_pieces newline s p).
Qed.

Lemma entries_of_lines (codes : list string) :
  Forall isEntry codes -> entriesOf (lines codes) = codes.
Proof.
  intros Hall. destruct codes as [|c codes]; [reflexivity|].
  unfold lines. rewrite split_join.
  - clear - Hall. induction Hall as [|x xs (Hne & Ht & _) _ IH]; [reflexivity|].
    cbn [map List.filter]. rewrite Ht. destruct x; [congruence|]. cbn [Str.truthy].
    now rewrite IH.
  - discriminate.
  - eapply List.Forall_impl; [|exact Hall]. now intros x (_ & _ & H).
Qed.

(** X1. Every entry that [getCodesFromManualEntry] returns can stand on a
    line as it is: it is not empty, has no white space at either end and no
    line feed inside.  Reading is stable: the entries written back one to a
    line read as the same entries. *)
Theorem manual_entries_clean (el : elements) :
  Forall isEntry (getCodesFromManualEntry el)
  /\ forall text,
       getCodesFromManualEntry
         (written el (lines (getCodesFromManualEntry el)) text)
       = getCodesFromManualEntry el.
Proof.
  split; [apply entries_are_entries|]. intros text.
  unfold getCodesFromManualEntry at 1. cbn [manualData written].
  apply entries_of_lines, entries_are_entries.
Qed.

(** X2. Entries written one to a line are read back as they were written:
    for codes that are not empty, have no white space at their ends and no
    line feed inside, [getCodesFromManualEntry] on their lines returns the
    same codes in the same order. *)
Theorem manual_entries_round_trip (el : elements) (codes : list string) :
  Forall isEntry codes -> manualData el = lines codes ->
  getCodesFromManualEntry el = codes.
Proof.
  intros Hall Hm. unfold getCodesFromManualEntry. rewrite Hm.
  now apply entries_of_lines.
Qed.

Lemma manual_entries_round_trip_witness :
  getCodesFromManualEntry (textForm (lines ["A-1"; "b 2"; "3"]) "") = ["A-1"; "b 2"; "3"].
Proof.
  apply manual_entries_round_trip; [|reflexivity].
  repeat constructor; try discriminate;
    intros H; cbn in H; repeat (destruct H as [H|H]; try discriminate H); exact H.
Defined.

(** X3. Manual data made of white space and line feeds only counts as no
    data: [getCodesFromManualEntry] returns no entry exactly when the manual
    data is blank, and then both exports of the manual entries show their
    message and do nothing else; with any other manual data the united
    export opens a document. *)
Theorem blank_manual_data (valid : string -> bool) (pageSize : number * number)
    (now : Z) (archiveFails : bool) (fuel : nat) (el : elements) :
  (getCodesFromManualEntry el = [] <-> blank (manualData el) = true)
  /\ (blank (manualData el) = true ->
      handleUnitedPdfExport valid pageSize now fuel el
      = ([alert "Please enter barcode data for PDF export."], Returned tt)
      /\ handleSvgZipExport valid now archiveFails el
         = ([alert "Please enter barcode data for SVG export."], Returned tt))
  /\ (blank (manualData el) = false ->
      exists t c,
        handleUnitedPdfExport valid pageSize now fuel el = (jsPDF_new false None :: t, c)).
Proof.
  assert (Hiff : getCodesFromManualEntry el = [] <-> blank (manualData el) = true)
    by (split; [apply entries_none | apply entries_blank]).
  split; [exact Hiff|]. split.
  - intros Hb. apply Hiff in Hb.
    unfold handleUnitedPdfExport, handleSvgZipExport. rewrite Hb. now split.
  - intros Hb. unfold handleUnitedPdfExport.
    destruct (getCodesFromManualEntry el) as [|c codes] eqn:E.
    + destruct Hiff as [Hiff _]. rewrite Hiff in Hb by reflexivity. discriminate.
    + cbn [length Nat.eqb]. cbn [bind emit].
      destruct (unitedPages _ _ _ _ _ _ _ _) as [t [[]| |]]; cbn [bind emit app]; eauto.
Qed.

Lemma blank_manual_data_witness :
  handleUnitedPdfExport CODE128 a4 0 9 (textForm (lines ["  "; ""; " "]) "")
  = ([alert "Please enter barcode data for PDF export."], Returned tt)
  /\ handleSvgZipExport CODE128 0 false (textForm (lines ["  "; ""; " "]) "")
     = ([alert "Please enter barcode data for SVG export."], Returned tt)
  /\ exists t c,
       handleUnitedPdfExport CODE128 a4 0 9 (textForm (lines ["  "; "x"]) "")
       = (jsPDF_new false None :: t, c).
Proof.
  split; [|split].
  - apply (blank_manual_data CODE128 a4 0 false 9 (textForm (lines ["  "; ""; " "]) "")).
    reflexivity.
  - apply (blank_manual_data CODE128 a4 0 false 9 (textForm (lines ["  "; ""; " "]) "")).
    reflexivity.
  - apply (blank_manual_data CODE128 a4 0 false 9 (textForm (lines ["  "; "x"]) "")).
    reflexivity.
Defined.

(** ** The number part of a code has no white space *)

Lemma inkOnly_append (a b : string) : inkOnly (a +:+ b) = (inkOnly a && inkOnly b)%bool.
Proof. unfold inkOnly. now rewrite chars_of_append, forallb_app. Qed.

Lemma truthy_append (a b : string) :
  Str.truthy (a +:+ b) = (Str.truthy a || Str.truthy b)%bool.
Proof. now destruct a. Qed.

Lemma inkOnly_rev (s : string) : inkOnly (String.rev s) = inkOnly s.
Proof.
  induction s as [|c s IH]; [reflexivity|].
  rewrite rev_of_cons, inkOnly_append, IH. unfold inkOnly.
  cbn [list_ascii_of_string forallb]. rewrite Bool.andb_true_r. apply Bool.andb_comm.
Qed.

Lemma inkOnly_head (s : string) : inkOnly s = true -> solidHead s = true.
Proof.
  destruct s as [|c s]; [reflexivity|]. unfold inkOnly.
  cbn [list_ascii_of_string forallb solidHead]. intros H.
  now apply Bool.andb_true_iff in H as [H _].
Qed.

Lemma inkOnly_end (s : string) : inkOnly s = true -> solidEnd s = true.
Proof. intros H. apply inkOnly_head. now rewrite inkOnly_rev. Qed.

Lemma inkOnly_chars (s : string) (c : ascii) :
  inkOnly s = true -> In c (chars s) -> Str.isWhiteSpace c = false.
Proof.
  unfold inkOnly. rewrite forallb_forall. intros H Hin.
  apply H in Hin. now apply Bool.negb_true_iff in Hin.
Qed.

Lemma inkOnly_repeat (n : nat) : inkOnly (Str.repeat "0" n) = true.
Proof. induction n as [|n IH]; [reflexivity|]. exact IH. Qed.

Lemma inkOnly_uint (d : Decimal.uint) : inkOnly (NilEmpty.string_of_uint d) = true.
Proof. induction d; [reflexivity | exact IHd ..]. Qed.

Lemma inkOnly_decimalOfZ (z : Z) : inkOnly (decimalOfZ z) = true.
Proof.
  unfold decimalOfZ, NilZero.string_of_int, NilZero.string_of_uint.
  destruct (Z.to_int z) as [d|d]; destruct d; try reflexivity;
    apply (inkOnly_uint (_ d)) || apply (inkOnly_uint d) || idtac.
Qed.

Lemma truthy_decimalOfZ (z : Z) : Str.truthy (decimalOfZ z) = true.
Proof.
  unfold decimalOfZ, NilZero.string_of_int, NilZero.string_of_uint.
  destruct (Z.to_int z) as [d|d]; destruct d; reflexivity.
Qed.

Lemma inkOnly_digitChar (k : Z) :
  0 <= k <= 9 -> Str.isWhiteSpace (digitChar k) = false.
Proof.
  intros Hk.
  assert (H : k = 0 \/ k = 1 \/ k = 2 \/ k = 3 \/ k = 4 \/ k = 5 \/ k = 6 \/ k = 7
              \/ k = 8 \/ k = 9) by lia.
  repeat (destruct H as [->|H]; [reflexivity|]). now subst k.
Qed.

Lemma inkOnly_fraction (n : nat) (r d : Z) :
  0 <= r < d -> inkOnly (fraction n r d) = true.
Proof.
  revert r. induction n as [|n IH]; intros r Hr; [reflexivity|].
  cbn [fraction]. destruct (r =? 0); [reflexivity|].
  unfold inkOnly. cbn [list_ascii_of_string forallb].
  rewrite inkOnly_digitChar.
  - apply IH. apply Z.mod_pos_bound. lia.
  - split; [apply Z.div_pos; lia|].
    assert (10 * r / d < 10) by (apply Z.div_lt_upper_bound; lia). lia.
Qed.

(** The string of a number is not empty and has no white space in it. *)
Lemma toString_ink (x : number) :
  Str.truthy (toString x) = true /\ inkOnly (toString x) = true.
Proof.
  destruct x as [|q|[]]; try (split; reflexivity).
  unfold toString. destruct (Z.pos (Qden (Qred q)) =? 1).
  - split; [apply truthy_decimalOfZ | apply inkOnly_decimalOfZ].
  - split.
    + rewrite !truthy_append, truthy_decimalOfZ. apply Bool.orb_true_r.
    + rewrite !inkOnly_append, inkOnly_decimalOfZ, inkOnly_fraction
        by (apply Z.mod_pos_bound; lia).
      now destruct (Qnum (Qred q) <? 0).
Qed.

Lemma numberPart_ink (padding i : number) :
  Str.truthy (numberPart padding i) = true /\ inkOnly (numberPart padding i) = true.
Proof.
  destruct (toString_ink i) as [Ht Hi]. unfold numberPart, Str.padStart.
  destruct (Num.gt padding (ofZ 0)); [|now split]. split.
  - rewrite truthy_append, Ht. apply Bool.orb_true_r.
  - now rewrite inkOnly_append, inkOnly_repeat, Hi.
Qed.

(** ** The values of the parameter block *)

Lemma join_chars (sep c : ascii) (ls : list string) :
  In c (chars (Str.join (String sep "") ls)) ->
  c = sep \/ exists l, In l ls /\ In c (chars l).
Proof.
  induction ls as [|l ls IH]; [intros []|].
  destruct ls as [|l' ls].
  - intros H. right. exists l. split; [now left | exact H].
  - rewrite join_cons by discriminate. rewrite !chars_of_append.
    intros H. apply in_app_or in H as [H|H].
    + right. exists l. split; [now left | exact H].
    + apply in_app_or in H as [[H|[]]|H]; [now left|].
      destruct (IH H) as [->|(x & Hx & Hc)]; [now left|].
      right. exists x. split; [now right | exact Hc].
Qed.

Lemma split_chars (sep c : ascii) (s piece : string) :
  In piece (Str.split sep s) -> In c (chars piece) -> In c (chars s).
Proof.
  revert piece. induction s as [|a s IH]; intros piece Hp Hc.
  - destruct Hp as [<-|[]]. exact Hc.
  - destruct (Ascii.eqb_spec a sep) as [->|Ha].
    + rewrite split_at_sep in Hp. destruct Hp as [<-|Hp]; [destruct Hc|].
      right. now apply (IH piece).
    + destruct (split_at_other sep a s Ha) as (p & ps & E1 & E2).
      rewrite E2 in Hp. destruct Hp as [<-|Hp].
      * destruct Hc as [<-|Hc]; [now left|]. right. apply (IH p); [|exact Hc].
        rewrite E1. now left.
      * right. apply (IH piece); [|exact Hc]. rewrite E1. now right.
Qed.

Lemma paramLine_tidy (acc : gmap string string) (line : string) :
  ~ In newline (chars line) -> tidyValues acc -> tidyValues (paramLine acc line).
Proof.
  intros Hline Hacc. unfold paramLine.
  destruct (Str.split ":" line) as [|key valueParts] eqn:E; [exact Hacc|].
  destruct (Str.truthy key && (0 <? length valueParts)%nat)%bool; [|exact Hacc].
  intros k v Hk. destruct (decide (Str.toLowerCase (Str.trim key) = k)) as [<-|Hne].
  - rewrite lookup_insert_eq in Hk. injection Hk as <-. split; [apply trim_trim|].
    intros Hin. apply trim_chars, join_chars in Hin as [Hc|(l & Hl & Hc)].
    + discriminate Hc.
    + apply Hline. apply (split_chars ":" newline line l); [|exact Hc].
      rewrite E. now right.
  - rewrite lookup_insert_ne in Hk by exact Hne. now apply (Hacc k).
Qed.

Lemma parseParams_tidy (text : string) : tidyValues (parseParams text).
Proof.
  unfold parseParams.
  assert (Hlines : Forall (fun l => ~ In newline (chars l)) (Str.split newline text))
    by (apply List.Forall_forall; intros l; apply split_pieces).
  assert (Hempty : tidyValues (∅ : gmap string string))
    by (intros k v H; rewrite lookup_empty in H; discriminate).
  revert Hempty. generalize (∅ : gmap string string) as acc.
  induction Hlines as [|l ls Hl _ IH]; intros acc Hacc; [exact Hacc|].
  cbn [fold_left]. apply IH. now apply paramLine_tidy.
Qed.

(** ** The codes of the parameter text, appended to the manual data *)

Lemma paramOr_tidy (params : gmap string string) (key : string) :
  tidyValues params ->
  Str.trim (paramOr params key) = paramOr params key
  /\ ~ In newline (chars (paramOr params key)).
Proof.
  intros H. unfold paramOr. destruct (params !! key) as [v|] eqn:E.
  - now apply (H key).
  - split; [reflexivity | intros []].
Qed.

(** A trimmed prefix, a number part and a trimmed suffix make an entry. *)
Lemma code_isEntry (p n q : string) :
  Str.trim p = p -> ~ In newline (chars p) ->
  Str.trim q = q -> ~ In newline (chars q) ->
  Str.truthy n = true -> inkOnly n = true ->
  isEntry (p +:+ n +:+ q).
Proof.
  intros Hp Hpn Hq Hqn Hn Hink.
  assert (Hne : n +:+ q <> "") by (destruct n; [discriminate Hn | discriminate]).
  repeat split.
  - intros E. apply append_is_empty in E as [_ E]. now apply Hne.
  - apply trim_fixed.
    + destruct p as [|c p].
      * change ("" +:+ n +:+ q) with (n +:+ q).
        rewrite solidHead_append by (destruct n; [discriminate Hn | discriminate]).
        now apply inkOnly_head.
      * rewrite solidHead_append by discriminate. rewrite <- Hp. apply trim_head.
    + rewrite solidEnd_append by exact Hne. destruct q as [|c q].
      * rewrite append_empty. now apply inkOnly_end.
      * rewrite solidEnd_append by discriminate. rewrite <- Hq. apply trim_end.
  - rewrite !chars_of_append. intros H.
    apply in_app_or in H as [H|H]; [now apply Hpn|].
    apply in_app_or in H as [H|H]; [|now apply Hqn].
    apply (inkOnly_chars n newline Hink) in H. discriminate H.
Qed.

(** A returning loop that starts within its bounds has pushed a first
    code. *)
Lemma pushLoop_first (fuel : nat) (body : number -> string) (i e inc : number)
    (codes : list string) (t : list event) :
  pushLoop fuel body i e inc [] = (t, Returned codes) -> Num.le i e = true ->
  exists rest, codes = body i :: rest.
Proof.
  destruct fuel as [|fuel]; [discriminate|]. cbn [pushLoop]. intros H Hle.
  rewrite Hle in H. apply pushLoop_codes in H as (_ & values & ->).
  now exists (map body values).
Qed.

Lemma not_gt_le (s e : number) :
  Num.isNaN s = false -> Num.isNaN e = false -> Num.gt s e = false -> Num.le s e = true.
Proof.
  unfold Num.gt, Num.lt. destruct s as [|a|[]], e as [|b|[]]; try discriminate;
    try reflexivity; intros _ _ H; now apply Bool.negb_false_iff in H.
Qed.

(** A run of the processor that shows no message has passed the five checks
    and written the codes of its loop behind the manual data. *)
Lemma handleProcessText_success (fuel : nat) (el el' : elements) :
  handleProcessText fuel el = ([], Returned el') ->
  rangeInvalid (rangeIn el) = false
  /\ Num.gt (startOf el) (endOf el) = false
  /\ (Num.isNaN (incrementIn el) || Num.lt (incrementIn el) (ofZ 1))%bool = false
  /\ (Num.isNaN (paddingIn el) || Num.lt (paddingIn el) (ofZ 0))%bool = false
  /\ exists codes,
       pushLoop fuel
         (fun i => paramOr (paramsOf el) "prefix" +:+ numberPart (paddingIn el) i
                   +:+ paramOr (paramsOf el) "suffix")
         (startOf el) (endOf el) (incrementIn el) [] = ([], Returned codes)
       /\ el' = written el (appended (manualData el) codes) "".
Proof.
  intros H.
  destruct (Str.truthy (inputTextOf el)) eqn:E1;
    [|rewrite reject_empty in H by assumption; discriminate].
  destruct (rangeInvalid (rangeIn el)) eqn:E2;
    [rewrite reject_range in H by assumption; discriminate|].
  destruct (Num.gt (startOf el) (endOf el)) eqn:E3;
    [rewrite reject_order in H by assumption; discriminate|].
  destruct (Num.isNaN (incrementIn el) || Num.lt (incrementIn el) (ofZ 1))%bool
    eqn:E4; [rewrite reject_increment in H by assumption; discriminate|].
  destruct (Num.isNaN (paddingIn el) || Num.lt (paddingIn el) (ofZ 0))%bool
    eqn:E5; [rewrite reject_padding in H by assumption; discriminate|].
  repeat (split; [reflexivity|]).
  rewrite accept in H by assumption.
  destruct (pushLoop fuel _ _ _ _ []) as [t [codes| |]] eqn:EL;
    cbn [bind ret] in H; try discriminate.
  pose proof (pushLoop_codes _ _ _ _ _ _ _ _ EL) as (-> & _).
  exists codes. split; [reflexivity|]. cbn [app] in H. now inversion H.
Qed.

Lemma appended_entries (manual : string) (codes : list string) :
  Forall isEntry codes ->
  entriesOf (appended manual codes) = entriesOf manual ++ codes.
Proof.
  intros Hall. unfold appended.
  change (Str.join (String newline "") codes) with (lines codes).
  destruct (Str.truthy (Str.trim manual)) eqn:E.
  - rewrite append_associative.
    change (String newline "" +:+ lines codes) with (String newline (lines codes)).
    now rewrite entries_append, entries_trim, entries_of_lines.
  - change ("" +:+ lines codes) with (lines codes).
    rewrite entries_of_lines by exact Hall.
    rewrite (entries_blank manual); [reflexivity|].
    apply trim_empty. now destruct (Str.trim manual).
Qed.

(** X4. A run of [handleProcessText] that shows no message appends: the
    entries that [getCodesFromManualEntry] reads afterwards are the entries
    it read before, in their order, followed by the generated codes, of
    which there is at least one; each generated code is the prefix, a number
    part and the suffix, and stands as an entry of its own (not empty, no
    white space at its ends, no line feed); the parameter text is cleared
    and no other field of the form changes. *)
Theorem processed_codes_appended (fuel : nat) (el el' : elements) :
  handleProcessText fuel el = ([], Returned el') ->
  exists values,
    let codes :=
      map (fun i => paramOr (paramsOf el) "prefix" +:+ numberPart (paddingIn el) i
                    +:+ paramOr (paramsOf el) "suffix") values in
    values <> [] /\ Forall isEntry codes
    /\ getCodesFromManualEntry el' = getCodesFromManualEntry el ++ codes
    /\ processTextInput el' = ""
    /\ el' = written el (manualData el') "".
Proof.
  intros H. apply handleProcessText_success in H
    as (E2 & E3 & E4 & E5 & codes & EL & ->).
  destruct (rangeInvalid_false _ E2) as (s & e & Hr & Hs & He).
  rewrite Hr in E3, EL. cbn [nth] in E3, EL.
  destruct (pushLoop_first _ _ _ _ _ _ _ EL (not_gt_le s e Hs He E3)) as [rest Hfirst].
  apply pushLoop_codes in EL as (_ & values & ->). cbn [app] in *.
  exists values. cbv zeta.
  assert (Hall : Forall isEntry
            (map (fun i => paramOr (paramsOf el) "prefix" +:+ numberPart (paddingIn el) i
                           +:+ paramOr (paramsOf el) "suffix") values)).
  { apply List.Forall_forall. intros code Hin.
    apply in_map_iff in Hin as (i & <- & _).
    destruct (paramOr_tidy (paramsOf el) "prefix" (parseParams_tidy _)) as [Hp Hpn].
    destruct (paramOr_tidy (paramsOf el) "suffix" (parseParams_tidy _)) as [Hq Hqn].
    destruct (numberPart_ink (paddingIn el) i) as [Hn Hink].
    now apply code_isEntry. }
  split; [now destruct values|]. split; [exact Hall|]. split; [|now split].
  unfold getCodesFromManualEntry. cbn [manualData written].
  now apply appended_entries.
Qed.

Lemma processed_codes_appended_witness :
  let el := textForm (lines [" old "; ""; "x y "])
              (lines ["Prefix : A"; "range: 1-3"; "padding: 2"]) in
  let el' := textForm (lines ["old "; ""; "x y"; "A01"; "A02"; "A03"]) "" in
  exists values,
    let codes :=
      map (fun i => paramOr (paramsOf el) "prefix" +:+ numberPart (paddingIn el) i
                    +:+ paramOr (paramsOf el) "suffix") values in
    values <> [] /\ Forall isEntry codes
    /\ getCodesFromManualEntry el' = getCodesFromManualEntry el ++ codes
    /\ processTextInput el' = ""
    /\ el' = written el (manualData el') "".
Proof.
  intros el el'. apply (processed_codes_appended 9 el el'). vm_compute. reflexivity.
Defined.

(** X5. A run of [handleProcessText] without a message uses its parameter
    text up: the same click again, with any fuel, only asks for parameters
    and leaves the form, the appended codes included, as the first run left
    it, so that no code is appended twice. *)
Theorem processed_text_cleared (fuel again : nat) (el el' : elements) :
  handleProcessText fuel el = ([], Returned el') ->
  handleProcessText again el'
  = ([alert "Please enter processing parameters."], Returned el').
Proof.
  intros H. apply handleProcessText_success in H as (_ & _ & _ & _ & codes & _ & ->).
  now apply reject_empty.
Qed.

Lemma processed_text_cleared_witness :
  handleProcessText 0 (textForm (lines ["old"; "01"; "02"; "03"]) "")
  = ([alert "Please enter processing parameters."],
     Returned (textForm (lines ["old"; "01"; "02"; "03"]) "")).
Proof.
  apply (processed_text_cleared 4 0
           (textForm "old" (lines ["range: 1-3"; "padding: 2"]))).
  vm_compute. reflexivity.
Defined.

(** ** The lines of the parameter text *)

Lemma paramLine_sets (acc : gmap string string) (key value : string) :
  key <> "" -> ~ In ":"%char (chars key) ->
  paramLine acc (key +:+ String ":" value)
  = <[Str.toLowerCase (Str.trim key) := Str.trim value]> acc.
Proof.
  intros Hne Hkey. unfold paramLine.
  rewrite split_append, split_whole by exact Hkey. cbn [app].
  destruct (Str.split ":" value) as [|p ps] eqn:E; [now apply split_nonempty in E|].
  replace (Str.truthy key) with true by (destruct key; [congruence | reflexivity]).
  cbn [length Nat.ltb Nat.leb andb]. rewrite <- E, join_split. reflexivity.
Qed.

Lemma paramLine_skips (acc : gmap string string) (line : string) :
  ~ In ":"%char (chars line) -> paramLine acc line = acc.
Proof.
  intros H. unfold paramLine. rewrite split_whole by exact H.
  now destruct (Str.truthy line).
Qed.

Lemma parseParams_lines (ls : list string) :
  Forall (fun l => ~ In newline (chars l)) ls ->
  parseParams (lines ls) = fold_left paramLine ls ∅.
Proof.
  intros H. unfold parseParams, lines. destruct ls as [|l ls]; [reflexivity|].
  now rewrite split_join.
Qed.

(** X6. How [handleProcessText] reads its parameter text, line by line, from
    the first line to the last: a line [key:value] whose key is not empty
    sets the parameter named by the trimmed, lower-cased key to the trimmed
    value, in which further colons are kept; a line without a colon, or
    with nothing before its first colon, changes nothing; so the last line
    of a text decides the value of its key, whatever the lines before it
    hold.  (The name [__proto__], which an object of the script does not
    keep as a property of its own, is left aside.) *)
Theorem parameter_lines :
  (forall ls, Forall (fun l => ~ In newline (chars l)) ls ->
     parseParams (lines ls) = fold_left paramLine ls ∅)
  /\ (forall acc key value, key <> "" -> ~ In ":"%char (chars key) ->
        Str.toLowerCase (Str.trim key) <> "__proto__" ->
        paramLine acc (key +:+ String ":" value)
        = <[Str.toLowerCase (Str.trim key) := Str.trim value]> acc)
  /\ (forall acc line, ~ In ":"%char (chars line) -> paramLine acc line = acc)
  /\ (forall acc value, paramLine acc (String ":" value) = acc)
  /\ (forall ls key value,
        Forall (fun l => ~ In newline (chars l)) ls ->
        key <> "" -> ~ In ":"%char (chars key) ->
        Str.toLowerCase (Str.trim key) <> "__proto__" ->
        ~ In newline (chars key) -> ~ In newline (chars value) ->
        parseParams (lines (ls ++ [key +:+ String ":" value]))
          !! Str.toLowerCase (Str.trim key)
        = Some (Str.trim value)).
Proof.
  split; [exact parseParams_lines|].
  split; [intros acc key value Hne Hcolon _; now apply paramLine_sets|].
  split; [exact paramLine_skips|]. split.
  - intros acc value. unfold paramLine. now rewrite split_at_sep.
  - intros ls key value Hls Hne Hcolon _ Hkey Hvalue.
    rewrite parseParams_lines.
    + rewrite fold_left_app. cbn [fold_left].
      rewrite paramLine_sets by assumption. apply lookup_insert_eq.
    + apply Forall_app. split; [exact Hls|]. constructor; [|constructor].
      rewrite chars_of_append. intros H. apply in_app_or in H as [H|[H|H]].
      * now apply Hkey.
      * discriminate H.
      * now apply Hvalue.
Qed.

Lemma parameter_lines_witness :
  parseParams (lines ["prefix: A"; "note"; ": x"; " PreFix : http://b "])
  = <["prefix" := "http://b"]> (<["prefix" := "A"]> ∅)
  /\ parseParams (lines (["prefix: A"; "note"; ": x"] ++ [" PreFix " +:+ String ":" " http://b "]))
       !! Str.toLowerCase (Str.trim " PreFix ")
     = Some (Str.trim " http://b ").
Proof.
  destruct parameter_lines as (Hlines & Hsets & Hskips & Hnokey & Hlast).
  assert (Hnl : Forall (fun l => ~ In newline (chars l)) ["prefix: A"; "note"; ": x"]).
  { repeat constructor; intros H; cbn in H;
      repeat (destruct H as [H|H]; try discriminate H); exact H. }
  split.
  - rewrite Hlines.
    + cbn [fold_left].
      rewrite (Hsets ∅ "prefix" " A")
        by (discriminate || (intros H; cbn in H; intuition discriminate)).
      rewrite (Hskips _ "note") by (intros H; cbn in H; intuition discriminate).
      rewrite (Hnokey _ " x").
      rewrite (Hsets _ " PreFix " " http://b ")
        by (discriminate || (intros H; cbn in H; intuition discriminate)).
      reflexivity.
    + repeat constructor; intros H; cbn in H;
        repeat (destruct H as [H|H]; try discriminate H); exact H.
  - apply Hlast; try assumption; try discriminate;
      intros H; cbn in H; intuition discriminate.
Defined.

(** ** The bounds of a range are never negative *)

Lemma digits_nonneg (s : string) (acc : Z) (n : nat) :
  0 <= acc -> 0 <= fst (fst (digits s acc n)).
Proof.
  revert acc n. induction s as [|c s IH]; intros acc n Hacc; [exact Hacc|].
  cbn [digits]. destruct (Str.isDigit c) eqn:Hc; [|exact Hacc].
  apply IH. unfold Str.isDigit in Hc. unfold digitVal.
  apply Bool.andb_true_iff in Hc as [Hc _]. apply N.leb_le in Hc. lia.
Qed.

Lemma radixVal_nonneg (radix : Z) (c : ascii) (v : Z) :
  0 <= radix -> radixVal radix c = Some v -> 0 <= v.
Proof.
  intros Hr. unfold radixVal.
  destruct ((48 <=? Z.of_N (Str.code c)) && (Z.of_N (Str.code c) <=? 57))%bool eqn:E1;
    [|destruct ((97 <=? Z.of_N (Str.code c)) && (Z.of_N (Str.code c) <=? 102))%bool eqn:E2;
      [|destruct ((65 <=? Z.of_N (Str.code c)) && (Z.of_N (Str.code c) <=? 70))%bool eqn:E3]];
    match goal with |- (if ?b then _ else _) = _ -> _ => destruct b end;
    intros [= <-]; try lia;
    match goal with H : (_ && _)%bool = true |- _ =>
      apply Bool.andb_true_iff in H as [H _]; apply Z.leb_le in H; lia end.
Qed.

Lemma radixDigits_nonneg (radix : Z) (s : string) (acc : Z) (n : nat) (v : Z) :
  0 <= radix -> 0 <= acc -> radixDigits radix s acc n = Some v -> 0 <= v.
Proof.
  intros Hr. revert acc n. induction s as [|c s IH]; intros acc n Hacc; cbn [radixDigits].
  - destruct n; [discriminate|]. now intros [= <-].
  - destruct (radixVal radix c) as [d|] eqn:E; [|discriminate].
    apply IH. apply radixVal_nonneg in E; [|exact Hr]. nia.
Qed.

Lemma scale10_nonneg (m k : Z) : 0 <= m -> Qle_bool 0 (scale10 m k) = true.
Proof.
  intros Hm. apply Qle_bool_iff. unfold scale10. rewrite Qred_correct.
  destruct (0 <=? k) eqn:Hk.
  - apply Z.leb_le in Hk. change 0%Q with (inject_Z 0). rewrite <- Zle_Qle.
    apply Z.mul_nonneg_nonneg; [exact Hm|]. apply Z.pow_nonneg. lia.
  - unfold Qle. simpl. lia.
Qed.

Lemma unsignedDecimal_nonneg (s rest : string) (v : number) :
  unsignedDecimal s = Some (v, rest) -> Num.le (ofZ 0) v = true.
Proof.
  unfold unsignedDecimal. destruct (stripPrefix "Infinity" s); [now intros [= <- _]|].
  pose proof (digits_nonneg s 0 0 ltac:(lia)) as Hip.
  destruct (digits s 0 0) as [[ip ni] r1]. cbn [fst] in Hip.
  assert (Hplain :
    match ni with
    | O => None
    | S _ => let '(e, rest0) := exponent r1 in Some (Fin (scale10 ip e), rest0)
    end = Some (v, rest) -> Num.le (ofZ 0) v = true).
  { destruct ni; [discriminate|]. destruct (exponent r1). intros [= <- _].
    now apply scale10_nonneg. }
  destruct r1 as [|c r2]; [exact Hplain|].
  destruct (Ascii.eqb_spec c ".") as [->|Hc].
  - pose proof (digits_nonneg r2 ip 0 Hip) as Hm.
    destruct (digits r2 ip 0) as [[m nf] r3]. cbn [fst] in Hm.
    destruct ni, nf; try discriminate; destruct (exponent r3); intros [= <- _];
      now apply scale10_nonneg.
  - destruct c as [[] [] [] [] [] [] [] []]; try exact Hplain. now elim Hc.
Qed.

(** A string without a hyphen converts to no negative number. *)
Lemma Number_nonneg (s : string) :
  ~ In "-"%char (chars s) -> Number s = NaN \/ Num.le (ofZ 0) (Number s) = true.
Proof.
  intros Hs. assert (Ht : ~ In "-"%char (chars (Str.trim s)))
    by (intros H; now apply Hs, trim_chars).
  unfold Number. destruct (Str.trim s) as [|c t]; [now right|].
  destruct (nonDecimal (String c t)) as [[v|]|] eqn:En.
  - right. unfold nonDecimal in En.
    destruct c as [[] [] [] [] [] [] [] []]; try discriminate En.
    destruct t as [|x body]; [discriminate En|].
    assert (0 <= v); [|unfold ofZ; cbn [Num.le]; apply Qle_bool_iff;
                        change 0%Q with (inject_Z 0); now rewrite <- Zle_Qle].
    destruct (Ascii.eqb x "x" || Ascii.eqb x "X")%bool;
      [injection En as En; now apply radixDigits_nonneg in En|].
    destruct (Ascii.eqb x "o" || Ascii.eqb x "O")%bool;
      [injection En as En; now apply radixDigits_nonneg in En|].
    destruct (Ascii.eqb x "b" || Ascii.eqb x "B")%bool;
      [injection En as En; now apply radixDigits_nonneg in En|].
    discriminate En.
  - now left.
  - unfold decimal.
    assert (Hsign : fst (sign (String c t)) = false).
    { unfold sign. destruct (Ascii.eqb_spec c "-") as [->|Hc]; [elim Ht; now left|].
      destruct c as [[] [] [] [] [] [] [] []]; try reflexivity. now elim Hc. }
    destruct (sign (String c t)) as [negative body]. cbn [fst] in Hsign. subst negative.
    destruct (unsignedDecimal body) as [[v rest]|] eqn:Eu; [|now left].
    destruct rest; [|now left]. right. now apply unsignedDecimal_nonneg in Eu.
Qed.

Lemma rangeOf_nonneg (params : gmap string string) (s e : number) :
  rangeOf params = [s; e] -> Num.isNaN s = false -> Num.isNaN e = false ->
  Num.le (ofZ 0) s = true /\ Num.le (ofZ 0) e = true.
Proof.
  unfold rangeOf, paramIf. intros H Hs He.
  destruct (params !! "range") as [v|]; [|discriminate].
  destruct (Str.truthy v); [|discriminate].
  assert (Hall : forall x, In x [s; e] -> Num.isNaN x = false -> Num.le (ofZ 0) x = true).
  { intros x Hx Hnan. rewrite <- H in Hx.
    apply in_map_iff in Hx as (piece & <- & Hin).
    destruct (Number_nonneg piece (split_pieces "-" v piece Hin)) as [E|E]; [|exact E].
    rewrite E in Hnan. discriminate. }
  split; apply Hall; try assumption; [now left | right; now left].
Qed.

Lemma rangeInvalid_long (range : list number) :
  (3 <= length range)%nat -> rangeInvalid range = true.
Proof. destruct range as [|a [|b [|c range]]]; simpl; (lia || reflexivity). Qed.

(** X7. The parameter text cannot ask for negative numbers: the hyphen
    separates start from end, so a range value with two hyphens or more (as
    in [-5-3] or [1--3]) is rejected as invalid, and whenever
    [handleProcessText] runs without a message, its start and its end are
    zero or more. *)
Theorem range_never_negative :
  (forall (params : gmap string string) x y z,
      params !! "range" = Some (x +:+ String "-" (y +:+ String "-" z)) ->
      rangeInvalid (rangeOf params) = true)
  /\ (forall params s e,
        rangeOf params = [s; e] -> rangeInvalid [s; e] = false ->
        Num.le (ofZ 0) s = true /\ Num.le (ofZ 0) e = true)
  /\ (forall fuel el el',
        handleProcessText fuel el = ([], Returned el') ->
        Num.le (ofZ 0) (startOf el) = true /\ Num.le (ofZ 0) (endOf el) = true).
Proof.
  split; [|split].
  - intros params x y z Hv. unfold rangeOf, paramIf. rewrite Hv.
    destruct (Str.truthy _); [|reflexivity].
    rewrite !split_append. apply rangeInvalid_long.
    rewrite length_map, !length_app.
    destruct (Str.split "-" x) as [|x1 xs] eqn:Ex; [now apply split_nonempty in Ex|].
    destruct (Str.split "-" y) as [|y1 ys] eqn:Ey; [now apply split_nonempty in Ey|].
    destruct (Str.split "-" z) as [|z1 zs] eqn:Ez; [now apply split_nonempty in Ez|].
    cbn [length]. lia.
  - intros params s e Hr Hinv. cbn [rangeInvalid] in Hinv.
    apply Bool.orb_false_iff in Hinv as [Hs He]. now apply (rangeOf_nonneg params).
  - intros fuel el el' H. apply handleProcessText_success in H as (E2 & _).
    destruct (rangeInvalid_false _ E2) as (s & e & Hr & Hs & He).
    rewrite Hr. cbn [nth]. now apply (rangeOf_nonneg (paramsOf el)).
Qed.

Lemma range_never_negative_witness :
  rangeInvalid (rangeOf (parseParams "range: -5-3")) = true
  /\ (Num.le (ofZ 0) (ofZ 2) = true /\ Num.le (ofZ 0) (ofZ 4) = true)
  /\ (Num.le (ofZ 0) (startOf (textForm "" "range: -4")) = true
      /\ Num.le (ofZ 0) (endOf (textForm "" "range: -4")) = true).
Proof.
  destruct range_never_negative as (Hmany & Hrange & Hrun).
  split; [|split].
  - apply (Hmany (parseParams "range: -5-3") "" "5" "3"). reflexivity.
  - apply (Hrange (parseParams "range: 2-4")); reflexivity.
  - apply (Hrun 9%nat (textForm "" "range: -4")
             (textForm (lines ["0"; "1"; "2"; "3"; "4"]) "")).
    vm_compute. reflexivity.
Defined.

(** ** The numbers of the form *)

Lemma pushLoop_silent (fuel : nat) (body : number -> string) (i e inc : number)
    (acc : list string) :
  fst (pushLoop fuel body i e inc acc) = [].
Proof.
  revert i acc. induction fuel as [|fuel IH]; intros i acc; [reflexivity|].
  cbn [pushLoop]. destruct (Num.le i e); [apply IH | reflexivity].
Qed.

Lemma formIncrement_cases (el : elements) :
  exists z, Num.or (parseInt (increment el)) (ofZ 1) = ofZ z /\ z <> 0
            /\ (parseInt (increment el) = NaN \/ parseInt (increment el) = ofZ 0 -> z = 1)
            /\ (forall v, v <> 0 -> parseInt (increment el) = ofZ v -> z = v).
Proof.
  assert (Hinj : forall a b, ofZ a = ofZ b -> a = b)
    by (intros a b H; unfold ofZ, inject_Z in H; now injection H).
  destruct (parseInt_cases (increment el)) as [E|[v E]]; rewrite E.
  - exists 1. repeat split; try lia; try reflexivity. intros v _ H. discriminate H.
  - destruct (Z.eq_dec v 0) as [->|Hv].
    + exists 1. repeat split; try lia; try reflexivity.
      intros v Hv H. apply Hinj in H. congruence.
    + exists v. rewrite or_nonzero by exact Hv. repeat split; try assumption.
      * intros [H|H]; [discriminate H | apply Hinj in H; congruence].
      * intros w _ H. now apply Hinj in H.
Qed.

Lemma or_effective (read : number) :
  let inc := Num.or read (ofZ 1) in
  Num.isNaN inc = false /\ Num.eqb inc (ofZ 0) = false
  /\ (read = NaN \/ Num.eqb read (ofZ 0) = true -> inc = ofZ 1)
  /\ (read <> NaN -> Num.eqb read (ofZ 0) = false -> inc = read).
Proof.
  cbv zeta. split; [apply or_not_NaN|].
  destruct read as [|q|s]; unfold Num.or, Num.truthy, Num.isZero; cbn [Num.eqb ofZ].
  - repeat split; congruence.
  - change (inject_Z 0) with 0%Q. destruct (Qeq_bool q 0) eqn:E; cbn [negb].
    + repeat split; try reflexivity; congruence.
    + repeat split; try assumption; try reflexivity. intros [H|H]; congruence.
  - repeat split; try reflexivity. intros [H|H]; congruence.
Qed.

Lemma pushLoop_double_silent (fuel : nat) (body : number -> string) (i e inc : number)
    (acc : list string) :
  fst (Double.pushLoop fuel body i e inc acc) = [].
Proof.
  revert i acc. induction fuel as [|fuel IH]; intros i acc; [reflexivity|].
  cbn [Double.pushLoop]. destruct (Num.le i e); [apply IH | reflexivity].
Qed.

(** X8. The increment of the form-driven generator is never zero and never
    [NaN], in exact arithmetic as in the engine: a field that reads as 0,
    like one that does not read as a number, counts as 1, and any other
    reading (an integer, one that the engine has rounded, an infinity) is
    taken as it is.  So the check of the three numbers can fail on the start
    and the end only: [generateBarcodeData] shows its message exactly when
    one of these two does not read as a number, and then returns no code,
    whatever the increment. *)
Theorem form_increment_effective (fuel : nat) (el : elements) :
  (forall read,
      read = parseInt (increment el) \/ read = Double.parseInt (increment el) ->
      let inc := Num.or read (ofZ 1) in
      Num.isNaN inc = false /\ Num.eqb inc (ofZ 0) = false
      /\ (read = NaN \/ Num.eqb read (ofZ 0) = true -> inc = ofZ 1)
      /\ (read <> NaN -> Num.eqb read (ofZ 0) = false -> inc = read))
  /\ (fst (generateBarcodeData fuel el) <> []
      <-> (Num.isNaN (parseInt (startVal el)) || Num.isNaN (parseInt (endVal el)))%bool
          = true)
  /\ ((Num.isNaN (parseInt (startVal el)) || Num.isNaN (parseInt (endVal el)))%bool = true ->
      generateBarcodeData fuel el
      = ([alert "Please ensure Start, End, and Increment are valid numbers."], Returned []))
  /\ (fst (Double.generateBarcodeData fuel el) <> []
      <-> (Num.isNaN (parseInt (startVal el)) || Num.isNaN (parseInt (endVal el)))%bool
          = true)
  /\ ((Num.isNaN (parseInt (startVal el)) || Num.isNaN (parseInt (endVal el)))%bool = true ->
      Double.generateBarcodeData fuel el
      = ([alert "Please ensure Start, End, and Increment are valid numbers."], Returned [])).
Proof.
  split; [intros read _; apply or_effective|].
  assert (Hnan : forall s, Num.isNaN (Double.parseInt s) = Num.isNaN (parseInt s)).
  { intros s. unfold Double.parseInt. destruct (parseInt s) as [|q|b]; try reflexivity.
    apply round_number. }
  unfold generateBarcodeData, Double.generateBarcodeData.
  rewrite !Hnan, !or_not_NaN, Bool.orb_false_r.
  destruct (Num.isNaN (parseInt (startVal el)) || Num.isNaN (parseInt (endVal el)))%bool.
  - repeat split; (reflexivity || discriminate).
  - rewrite pushLoop_silent, pushLoop_double_silent. repeat split; (congruence || discriminate).
Qed.

Lemma form_increment_effective_witness :
  generateBarcodeData 9 (rangeForm "A" "x" "3" "" "0")
  = ([alert "Please ensure Start, End, and Increment are valid numbers."], Returned [])
  /\ Double.generateBarcodeData 9 (rangeForm "A" "x" "3" "" "0")
     = ([alert "Please ensure Start, End, and Increment are valid numbers."], Returned [])
  /\ Num.or (Double.parseInt (increment (rangeForm "A" "1" "3" "" "0"))) (ofZ 1) = ofZ 1
  /\ Num.or (Double.parseInt (increment (rangeForm "A" "1" "3" "" nines))) (ofZ 1)
     = Inf false.
Proof.
  split; [|split; [|split]].
  - apply (form_increment_effective 9 (rangeForm "A" "x" "3" "" "0")). reflexivity.
  - apply (form_increment_effective 9 (rangeForm "A" "x" "3" "" "0")). reflexivity.
  - destruct (form_increment_effective 9 (rangeForm "A" "1" "3" "" "0")) as (H & _).
    destruct (H (Double.parseInt (increment (rangeForm "A" "1" "3" "" "0"))))
      as (_ & _ & H1 & _); [now right|].
    apply H1. right. reflexivity.
  - destruct (form_increment_effective 9 (rangeForm "A" "1" "3" "" nines)) as (H & _).
    destruct (H (Double.parseInt (increment (rangeForm "A" "1" "3" "" nines))))
      as (_ & _ & _ & H2); [now right|].
    rewrite H2; vm_compute; (reflexivity || discriminate).
Defined.

(** X9. With a start or an end that does not read as an integer nothing is
    generated and every handler of the form ends after its messages,
    whatever the fuel, the encoder and the layout settings: the preview
    shows the message, clears the canvas and puts the placeholder in it;
    the standard export shows the message about the numbers and then the
    one about the missing codes, and opens no document. *)
Theorem invalid_form_numbers (valid : string -> bool) (now : Z) (fuel : nat)
    (el : elements) :
  (Num.isNaN (parseInt (startVal el)) || Num.isNaN (parseInt (endVal el)))%bool = true ->
  handlePreview valid fuel el
  = ([alert "Please ensure Start, End, and Increment are valid numbers.";
      canvas_clear; canvas_placeholder], Returned tt)
  /\ handleStandardPdfExport valid now fuel el
     = ([alert "Please ensure Start, End, and Increment are valid numbers.";
         alert "No barcodes to export."], Returned tt).
Proof.
  intros H.
  assert (Hgen : generateBarcodeData fuel el
                 = ([alert "Please ensure Start, End, and Increment are valid numbers."],
                    Returned []))
    by (unfold generateBarcodeData; now rewrite H).
  unfold handlePreview, handleStandardPdfExport. rewrite Hgen. now split.
Qed.

Lemma invalid_form_numbers_witness :
  handlePreview CODE128 0 (rangeForm "A" "" "3" "" "")
  = ([alert "Please ensure Start, End, and Increment are valid numbers.";
      canvas_clear; canvas_placeholder], Returned tt)
  /\ handleStandardPdfExport CODE128 0 0 (rangeForm "A" "" "3" "" "")
     = ([alert "Please ensure Start, End, and Increment are valid numbers.";
         alert "No barcodes to export."], Returned tt).
Proof. apply (invalid_form_numbers CODE128 0 0 (rangeForm "A" "" "3" "" "")). reflexivity. Defined.

(** ** The preview *)

Lemma generateBarcodeData_completes (fuel : nat) (el : elements) (e : string) :
  snd (generateBarcodeData fuel el) <> Thrown e.
Proof.
  unfold generateBarcodeData.
  destruct (Num.isNaN _ || Num.isNaN _ || Num.isNaN _)%bool; [discriminate|].
  generalize (@nil string). generalize (parseInt (startVal el)).
  induction fuel as [|fuel IH]; intros i acc; cbn [pushLoop]; [discriminate|].
  destruct (Num.le i _); [apply IH | discriminate].
Qed.

Lemma generateBarcodeData_quiet (fuel : nat) (el : elements) (t : list event)
    (codes : list string) :
  generateBarcodeData fuel el = (t, Returned codes) ->
  shown t = [] /\ marked t = [] /\ encoded t = [] /\ saved t = []
  /\ ~ In canvas_placeholder t.
Proof.
  intros H. destruct (generateBarcodeData_trace _ _ _ _ H) as [->|[-> _]];
    repeat split; try reflexivity; intros Hin; cbn in Hin; intuition discriminate.
Qed.

Lemma previewOf_each (valid : string -> bool) (codes : list string) (i : nat) :
  let t := eachFrom i codes (fun code _ => previewOf valid code) in
  shown t = codes /\ encoded t = List.filter valid codes
  /\ marked t = List.filter (fun c => negb (valid c)) codes
  /\ ~ In canvas_placeholder t.
Proof.
  revert i. induction codes as [|c codes IH]; intros i; cbv zeta.
  - repeat split; try reflexivity. intros [].
  - destruct (IH (S i)) as (H1 & H2 & H3 & H4). cbv zeta in H1, H2, H3, H4.
    cbn [eachFrom]. unfold shown, encoded, marked in *.
    rewrite !flat_map_app, H1, H2, H3. unfold previewOf. cbn [List.filter].
    destruct (valid c); repeat split; try reflexivity;
      intros Hin; apply in_app_or in Hin as [Hin|Hin]; try (now apply H4);
      cbn in Hin; intuition discriminate.
Qed.

(** X10. The preview never ends with an exception, whatever the encoder
    refuses.  When generation returns codes it puts the first ten of them on
    the canvas, in order, draws those among them that the encoder accepts
    and marks the others as invalid; the placeholder is shown exactly when
    there is no code. *)
Theorem preview_first_ten (valid : string -> bool) (fuel : nat) (el : elements) :
  (forall e, snd (handlePreview valid fuel el) <> Thrown e)
  /\ (forall t codes,
        generateBarcodeData fuel el = (t, Returned codes) ->
        let done := fst (handlePreview valid fuel el) in
        snd (handlePreview valid fuel el) = Returned tt
        /\ shown done = firstn 10 codes
        /\ encoded done = List.filter valid (firstn 10 codes)
        /\ marked done = List.filter (fun c => negb (valid c)) (firstn 10 codes)
        /\ (In canvas_placeholder done <-> codes = [])).
Proof.
  assert (Hret : forall t codes,
             generateBarcodeData fuel el = (t, Returned codes) ->
             handlePreview valid fuel el
             = (t ++ canvas_clear
                  :: match codes with
                     | [] => [canvas_placeholder]
                     | _ :: _ => eachFrom 0 (firstn 10 codes)
                                   (fun code _ => previewOf valid code)
                     end, Returned tt)).
  { intros t codes Hgen. destruct codes as [|c codes].
    - unfold handlePreview. rewrite Hgen. reflexivity.
    - now apply preview_continues. }
  split.
  - intros e. pose proof (generateBarcodeData_completes fuel el) as Hgen.
    destruct (generateBarcodeData fuel el) as [t [codes|e'|]] eqn:E.
    + rewrite (Hret t codes eq_refl). discriminate.
    + now elim (Hgen e').
    + unfold handlePreview. rewrite E. discriminate.
  - intros t codes Hgen. cbv zeta. rewrite (Hret t codes Hgen). cbn [fst snd].
    destruct (generateBarcodeData_quiet _ _ _ _ Hgen) as (Q1 & Q2 & Q3 & _ & Q5).
    split; [reflexivity|].
    unfold shown, encoded, marked in *. rewrite !flat_map_app, Q1, Q2, Q3.
    cbn [flat_map app]. destruct codes as [|c codes].
    + repeat split; try reflexivity. intros _. apply in_or_app. right. right. now left.
    + destruct (previewOf_each valid (firstn 10 (c :: codes)) 0) as (H1 & H2 & H3 & H4).
      cbv zeta in H1, H2, H3, H4. unfold shown, encoded, marked in *.
      rewrite H1, H2, H3. repeat split; try reflexivity; try discriminate.
      intros Hin. apply in_app_or in Hin as [Hin|[Hin|Hin]];
        [now apply Q5 in Hin | discriminate Hin | now apply H4 in Hin].
Qed.

Lemma preview_first_ten_witness :
  let done := fst (handlePreview CODE128 20 (rangeForm eacute "1" "12" "" "")) in
  snd (handlePreview CODE128 20 (rangeForm eacute "1" "12" "" "")) = Returned tt
  /\ shown done = firstn 10 (map (fun n => eacute +:+ n)
                               ["1"; "2"; "3"; "4"; "5"; "6"; "7"; "8"; "9"; "10"; "11"; "12"])
  /\ encoded done = []
  /\ length (marked done) = 10%nat.
Proof.
  destruct (preview_first_ten CODE128 20 (rangeForm eacute "1" "12" "" "")) as [_ H].
  destruct (H [] (map (fun n => eacute +:+ n)
                    ["1"; "2"; "3"; "4"; "5"; "6"; "7"; "8"; "9"; "10"; "11"; "12"]))
    as (H1 & H2 & H3 & H4 & _); [vm_compute; reflexivity|].
  cbv zeta. rewrite H1, H2, H3, H4. repeat split; reflexivity.
Defined.

(** ** The archive *)

Lemma archiveOf_each (valid : string -> bool) (codes : list string) (i : nat) :
  let t := eachFrom i codes (fun code _ => archiveOf valid code) in
  archived t = map (fun c => (fileName c, c)) (List.filter valid codes)
  /\ encoded t = List.filter valid codes
  /\ downloads t = [] /\ alerts t = [].
Proof.
  revert i. induction codes as [|c codes IH]; intros i; cbv zeta; [now repeat split|].
  destruct (IH (S i)) as (H1 & H2 & H3 & H4). cbv zeta in H1, H2, H3, H4.
  cbn [eachFrom]. unfold archived, encoded, downloads, alerts in *.
  rewrite !flat_map_app, H1, H2, H3, H4. unfold archiveOf. cbn [List.filter].
  destruct (valid c); repeat split; reflexivity.
Qed.

Lemma handleSvgZipExport_runs (valid : string -> bool) (now : Z) (archiveFails : bool)
    (el : elements) :
  getCodesFromManualEntry el <> [] ->
  handleSvgZipExport valid now archiveFails el
  = (eachFrom 0 (getCodesFromManualEntry el) (fun code _ => archiveOf valid code)
     ++ (if archiveFails
         then [console_error "Error creating ZIP file:";
               alert "Failed to create ZIP file. See console for details."]
         else [zip_download ("barcodes-svg-" +:+ decimalOfZ now +:+ ".zip")]),
     Returned tt).
Proof.
  intros Hne. unfold handleSvgZipExport.
  destruct (getCodesFromManualEntry el) as [|c codes] eqn:E; [congruence|].
  cbn [length Nat.eqb].
  rewrite (forEach_returns _ 0 _ (fun code _ => archiveOf valid code)).
  - now destruct archiveFails.
  - intros code j _. unfold archiveOf, JsBarcode. now destruct (valid code).
Qed.

(** X11. The archive export always returns: neither a code that the encoder
    refuses nor a failure to build the archive ends it with an exception.
    With manual entries it puts one file in the archive for each entry the
    encoder accepts, in the order of the entries, named after the entry, and
    skips the others; it then offers the archive for download once, even
    when no file is in it, or, when the archive cannot be built, shows the
    message about the failure instead.  Without entries it only shows the
    message that asks for data. *)
Theorem archive_always_returns (valid : string -> bool) (now : Z) (archiveFails : bool)
    (el : elements) :
  let codes := getCodesFromManualEntry el in
  let done := fst (handleSvgZipExport valid now archiveFails el) in
  snd (handleSvgZipExport valid now archiveFails el) = Returned tt
  /\ archived done = map (fun c => (fileName c, c)) (List.filter valid codes)
  /\ encoded done = List.filter valid codes
  /\ downloads done
     = match codes with
       | [] => []
       | _ :: _ => if archiveFails then []
                   else ["barcodes-svg-" +:+ decimalOfZ now +:+ ".zip"]
       end
  /\ alerts done
     = match codes with
       | [] => ["Please enter barcode data for SVG export."]
       | _ :: _ => if archiveFails
                   then ["Failed to create ZIP file. See console for details."]
                   else []
       end.
Proof.
  cbv zeta. destruct (getCodesFromManualEntry el) as [|c codes] eqn:E.
  - unfold handleSvgZipExport. rewrite E. now repeat split.
  - rewrite handleSvgZipExport_runs by (rewrite E; discriminate). rewrite E. cbn [fst snd].
    destruct (archiveOf_each valid (c :: codes) 0) as (H1 & H2 & H3 & H4).
    cbv zeta in H1, H2, H3, H4. unfold archived, encoded, downloads, alerts in *.
    rewrite !flat_map_app, H1, H2, H3, H4.
    destruct archiveFails; repeat split; cbn [flat_map app]; now rewrite ?app_nil_r.
Qed.

(** ** The names of the files *)

Lemma safe_char (c : ascii) :
  isSafe (Str.lowerChar (if Str.isAlnum c then c else "_"%char)) = true.
Proof. destruct c as [[] [] [] [] [] [] [] []]; reflexivity. Qed.

Lemma safe_char_kept (c : ascii) :
  isSafe c = true -> Str.lowerChar (if Str.isAlnum c then c else "_"%char) = c.
Proof. destruct c as [[] [] [] [] [] [] [] []]; (reflexivity || discriminate). Qed.

(** X12. The file of a code in the archive is named by a stem and [.svg]:
    the stem has one character for each character of the code and holds
    lower-case letters, digits and underscores only; a code made of such
    characters is its own stem; and the stem, read as a code, has the file
    name of the code, so that file names do not tell all codes apart. *)
Theorem archive_file_names (code : string) :
  let stem := Str.toLowerCase (Str.sanitize code) in
  fileName code = stem +:+ ".svg"
  /\ String.length stem = String.length code
  /\ forallb isSafe (chars stem) = true
  /\ (forallb isSafe (chars code) = true -> stem = code)
  /\ fileName stem = fileName code.
Proof.
  cbv zeta. split; [reflexivity|].
  assert (H : String.length (Str.toLowerCase (Str.sanitize code)) = String.length code
              /\ forallb isSafe (chars (Str.toLowerCase (Str.sanitize code))) = true
              /\ forall s, forallb isSafe (chars s) = true ->
                           Str.toLowerCase (Str.sanitize s) = s).
  { split; [|split].
    - induction code as [|c code IH]; [reflexivity|].
      cbn [Str.sanitize Str.toLowerCase String.length]. now rewrite IH.
    - induction code as [|c code IH]; [reflexivity|].
      cbn [Str.sanitize Str.toLowerCase list_ascii_of_string forallb].
      now rewrite safe_char, IH.
    - intros s. induction s as [|c s IH]; [reflexivity|].
      cbn [Str.sanitize Str.toLowerCase list_ascii_of_string forallb].
      intros Hs. apply Bool.andb_true_iff in Hs as [Hc Hs].
      now rewrite safe_char_kept, IH. }
  destruct H as (Hlen & Hsafe & Hkept).
  split; [exact Hlen|]. split; [exact Hsafe|]. split; [apply Hkept|].
  unfold fileName. now rewrite (Hkept _ Hsafe).
Qed.

Lemma archive_file_names_witness :
  Str.toLowerCase (Str.sanitize "a_1") = "a_1"
  /\ fileName "A-1" = "a_1.svg" /\ fileName "a_1" = fileName "A-1".
Proof.
  destruct (archive_file_names "a_1") as (_ & _ & _ & Hkept & _).
  destruct (archive_file_names "A-1") as (Hname & _ & _ & _ & Hstem).
  split; [now apply Hkept|]. split; [exact Hname | exact Hstem].
Defined.

(** ** A document is saved only when every code was drawn *)

Lemma firstRefused_app (valid : string -> bool) (a b : list string) :
  firstRefused valid (a ++ b)
  = match firstRefused valid a with
    | Some c => Some c
    | None => firstRefused valid b
    end.
Proof.
  induction a as [|x a IH]; [reflexivity|]. cbn [app firstRefused].
  now destruct (valid x).
Qed.

Lemma accepted_app (valid : string -> bool) (a b : list string) :
  accepted valid (a ++ b)
  = match firstRefused valid a with
    | Some _ => accepted valid a
    | None => a ++ accepted valid b
    end.
Proof.
  induction a as [|x a IH]; [reflexivity|]. cbn [app firstRefused accepted].
  destruct (valid x); [|reflexivity]. rewrite IH. now destruct (firstRefused valid a).
Qed.

Lemma firstRefused_none (valid : string -> bool) (codes : list string) :
  firstRefused valid codes = None <-> forallb valid codes = true.
Proof.
  induction codes as [|c codes IH]; [now split|]. cbn [firstRefused forallb].
  destruct (valid c); [exact IH | now split].
Qed.

Lemma firstRefused_some (valid : string -> bool) (codes : list string) (c : string) :
  firstRefused valid codes = Some c -> In c codes /\ valid c = false.
Proof.
  induction codes as [|x codes IH]; [discriminate|]. cbn [firstRefused].
  destruct (valid x) eqn:E.
  - intros H. destruct (IH H) as [Hin Hv]. split; [now right | exact Hv].
  - intros [= <-]. split; [now left | exact E].
Qed.

(** A loop over items of which each one draws its code or throws: it goes
    through the items up to the first refused one. *)
Lemma forEach_until (valid : string -> bool) (items : list string) (i : nat)
    (f : string -> nat -> run unit) (g : string -> nat -> list event) :
  (forall code j, valid code = true -> f code j = (g code j, Returned tt)) ->
  (forall code j, valid code = false -> f code j = ([], Thrown (refused code))) ->
  forEach items i f
  = (eachFrom i (accepted valid items) g,
     match firstRefused valid items with
     | None => Returned tt
     | Some c => Thrown (refused c)
     end).
Proof.
  intros Hok Hno. revert i. induction items as [|x items IH]; intros i; [reflexivity|].
  cbn [forEach accepted firstRefused]. destruct (valid x) eqn:E.
  - rewrite (Hok x i E). cbn [bind]. rewrite IH. reflexivity.
  - rewrite (Hno x i E). reflexivity.
Qed.

Lemma eachFrom_drawn (g : string -> nat -> list event) (items : list string) (i : nat) :
  (forall code j, encoded (g code j) = [code] /\ saved (g code j) = []
                  /\ alerts (g code j) = []) ->
  encoded (eachFrom i items g) = items /\ saved (eachFrom i items g) = []
  /\ alerts (eachFrom i items g) = [].
Proof.
  intros Hg. revert i. induction items as [|x items IH]; intros i; [now repeat split|].
  destruct (IH (S i)) as (H1 & H2 & H3). destruct (Hg x i) as (G1 & G2 & G3).
  cbn [eachFrom]. unfold encoded, saved, alerts in *.
  rewrite !flat_map_app, H1, H2, H3, G1, G2, G3. now repeat split.
Qed.

Lemma firstn_refused (valid : string -> bool) (n : nat) (l : list string) :
  firstRefused valid l
  = match firstRefused valid (firstn n l) with
    | Some c => Some c
    | None => firstRefused valid (skipn n l)
    end
  /\ accepted valid l
     = match firstRefused valid (firstn n l) with
       | Some _ => accepted valid (firstn n l)
       | None => firstn n l ++ accepted valid (skipn n l)
       end.
Proof.
  rewrite <- (firstn_skipn n l) at 1 3. split; [apply firstRefused_app | apply accepted_app].
Qed.

Section UnitedAborts.

Variable valid : string -> bool.
Variable pageSize : number * number.

Lemma unitedItem_refused (code : string) (i : nat) :
  valid code = false ->
  unitedItem valid (ofZ 72) (colWidth pageSize) (rowHeight pageSize)
    (itemWidth pageSize) (itemHeight pageSize) code i
  = ([], Thrown (refused code)).
Proof. intros Hv. unfold unitedItem, JsBarcode. now rewrite Hv. Qed.

Lemma unitedPages_until (fuel : nat) (codes : list string) (p : nat) :
  (length codes - p * 20 < fuel)%nat ->
  exists t,
    unitedPages valid pageSize fuel (ofZ 72) 20
      (Num.ceil (Num.div (ofNat (length codes)) (ofNat 20))) codes p
    = (t, match firstRefused valid (skipn (p * 20) codes) with
          | None => Returned tt
          | Some c => Thrown (refused c)
          end)
    /\ encoded t = accepted valid (skipn (p * 20) codes)
    /\ saved t = [] /\ alerts t = [].
Proof.
  revert p. induction fuel as [|fuel IH]; intros p Hfuel; [lia|].
  cbn [unitedPages]. rewrite numPages_lt.
  destruct (Nat.ltb_spec (p * 20) (length codes)) as [Hp|Hp].
  - change (Num.div (Num.sub (fst pageSize) (Num.mul (ofZ 2) (ofZ 72))) (ofZ 4))
      with (colWidth pageSize).
    change (Num.div (Num.sub (snd pageSize) (Num.mul (ofZ 2) (ofZ 72))) (ofZ 5))
      with (rowHeight pageSize).
    change (Num.mul (colWidth pageSize) (Fin (4 # 5))) with (itemWidth pageSize).
    change (Num.mul (rowHeight pageSize) (Fin (1 # 2))) with (itemHeight pageSize).
    unfold slice. replace ((p + 1) * 20 - p * 20)%nat with 20%nat by lia.
    rewrite (forEach_until valid _ 0 _ (slotOf pageSize))
      by (intros; (now apply unitedItem_valid) || (now apply unitedItem_refused)).
    destruct (firstn_refused valid 20 (skipn (p * 20) codes)) as [Hr Ha].
    rewrite Hr, Ha. rewrite skipn_skipn.
    replace (20 + p * 20)%nat with (S p * 20)%nat by lia.
    destruct (eachFrom_drawn (slotOf pageSize)
                (accepted valid (firstn 20 (skipn (p * 20) codes))) 0)
      as (D1 & D2 & D3); [intros; now repeat split|].
    assert (Hpage : exists page,
               (if (0 <? p)%nat then emit doc_addPage else ret tt) = (page, Returned tt)
               /\ encoded page = [] /\ saved page = [] /\ alerts page = []).
    { destruct (0 <? p)%nat; eexists; repeat split; reflexivity. }
    destruct Hpage as (page & -> & P1 & P2 & P3).
    destruct (firstRefused valid (firstn 20 (skipn (p * 20) codes))) as [c|] eqn:E.
    + eexists. cbn [bind]. split; [reflexivity|].
      unfold encoded, saved, alerts in *.
      rewrite !flat_map_app, P1, P2, P3, D1, D2, D3. now repeat split.
    + destruct (IH (S p)) as (t & Ht & T1 & T2 & T3); [lia|].
      cbn [bind]. rewrite Ht. eexists. split; [reflexivity|].
      assert (Hall : accepted valid (firstn 20 (skipn (p * 20) codes))
                     = firstn 20 (skipn (p * 20) codes)).
      { clear - E. induction (firstn 20 (skipn (p * 20) codes)) as [|x l IHl];
          [reflexivity|]. cbn [firstRefused accepted] in *.
        destruct (valid x); [|discriminate]. now rewrite IHl. }
      unfold encoded, saved, alerts in *.
      rewrite !flat_map_app, P1, P2, P3, D1, D2, D3, T1, T2, T3, Hall.
      now repeat split.
  - rewrite skipn_all2 by lia. exists []. now repeat split.
Qed.

End UnitedAborts.

(** X13. The united export saves its document exactly when the encoder
    accepts every manual entry.  Given fuel for its pages it draws the
    entries up to the first one that the encoder refuses, in order, and
    ends there with the encoder's exception, no document saved and no
    message shown; when no entry is refused it returns and has saved the
    document once. *)
Theorem united_export_saves (valid : string -> bool) (pageSize : number * number)
    (now : Z) (fuel : nat) (el : elements) :
  let codes := getCodesFromManualEntry el in
  let done := fst (handleUnitedPdfExport valid pageSize now fuel el) in
  codes <> [] -> (length codes < fuel)%nat ->
  snd (handleUnitedPdfExport valid pageSize now fuel el)
  = match firstRefused valid codes with
    | None => Returned tt
    | Some c => Thrown (refused c)
    end
  /\ encoded done = accepted valid codes
  /\ saved done
     = match firstRefused valid codes with
       | None => ["barcodes-manual-" +:+ decimalOfZ now +:+ ".pdf"]
       | Some _ => []
       end
  /\ alerts done = []
  /\ (firstRefused valid codes = None <-> forallb valid codes = true)
  /\ (forall c, firstRefused valid codes = Some c -> In c codes /\ valid c = false).
Proof.
  cbv zeta. intros Hne Hfuel.
  split; [|split; [|split; [|split; [|split]]]];
    try apply firstRefused_none; try apply firstRefused_some.
  all: unfold handleUnitedPdfExport.
  all: destruct (getCodesFromManualEntry el) as [|c0 codes'] eqn:E; [congruence|].
  all: rewrite <- E in *.
  all: replace (length (getCodesFromManualEntry el) =? 0)%nat with false
         by (symmetry; apply Nat.eqb_neq; rewrite E; discriminate).
  all: destruct (unitedPages_until valid pageSize fuel (getCodesFromManualEntry el) 0)
         as (t & Ht & T1 & T2 & T3); [lia|].
  all: change (0 * 20)%nat with 0%nat in Ht, T1; rewrite skipn_O in Ht, T1; rewrite Ht.
  all: destruct (firstRefused valid (getCodesFromManualEntry el)).
  all: cbn [bind emit fst snd app]; try reflexivity.
  all: unfold encoded, saved, alerts in *; cbn [flat_map app].
  all: rewrite ?flat_map_app, ?T1, ?T2, ?T3; cbn [flat_map app].
  all: now rewrite ?app_nil_r.
Qed.

Lemma united_export_saves_witness :
  snd (handleUnitedPdfExport CODE128 a4 0 9 mixedEntries) = Thrown (refused eacute)
  /\ encoded (fst (handleUnitedPdfExport CODE128 a4 0 9 mixedEntries)) = ["A"]
  /\ saved (fst (handleUnitedPdfExport CODE128 a4 0 9 mixedEntries)) = [].
Proof.
  destruct (united_export_saves CODE128 a4 0 9 mixedEntries)
    as (H1 & H2 & H3 & _); [discriminate | vm_compute; lia |].
  split; [exact H1|]. split; [exact H2 | exact H3].
Defined.

Section StandardAborts.

Variable valid : string -> bool.
Variables pH bW bH mX mY gH gV : number.

Lemma standardItem_refused (code : string) (j : nat) :
  valid code = false ->
  standardItem valid pH bW bH mX mY gH gV code j = ([], Thrown (refused code)).
Proof. intros Hv. unfold standardItem, JsBarcode. now rewrite Hv. Qed.

Lemma standardPages_until (fuel : nat) (codes : list string) (i : nat) :
  (length codes - i < fuel)%nat ->
  exists t,
    standardPages valid fuel pH bW bH mX mY gH gV codes i
    = (t, match firstRefused valid (skipn i codes) with
          | None => Returned tt
          | Some c => Thrown (refused c)
          end)
    /\ encoded t = accepted valid (skipn i codes)
    /\ saved t = [] /\ alerts t = [].
Proof.
  revert i. induction fuel as [|fuel IH]; intros i Hfuel; [lia|].
  cbn [standardPages]. destruct (Nat.ltb_spec i (length codes)) as [Hi|Hi].
  - unfold slice. replace (i + 3 - i)%nat with 3%nat by lia.
    rewrite (forEach_until valid _ 0 _ (pairOf pH bW bH mX mY gH gV))
      by (intros; (now apply standardItem_valid) || (now apply standardItem_refused)).
    destruct (firstn_refused valid 3 (skipn i codes)) as [Hr Ha].
    rewrite Hr, Ha. rewrite skipn_skipn.
    replace (3 + i)%nat with (i + 3)%nat by lia.
    destruct (eachFrom_drawn (pairOf pH bW bH mX mY gH gV)
                (accepted valid (firstn 3 (skipn i codes))) 0)
      as (D1 & D2 & D3); [intros; now repeat split|].
    assert (Hpage : exists page,
               (if (0 <? i)%nat then emit doc_addPage else ret tt) = (page, Returned tt)
               /\ encoded page = [] /\ saved page = [] /\ alerts page = []).
    { destruct (0 <? i)%nat; eexists; repeat split; reflexivity. }
    destruct Hpage as (page & -> & P1 & P2 & P3).
    destruct (firstRefused valid (firstn 3 (skipn i codes))) as [c|] eqn:E.
    + eexists. cbn [bind]. split; [reflexivity|].
      unfold encoded, saved, alerts in *.
      rewrite !flat_map_app, P1, P2, P3, D1, D2, D3. now repeat split.
    + destruct (IH (i + 3)%nat) as (t & Ht & T1 & T2 & T3); [lia|].
      cbn [bind]. rewrite Ht. eexists. split; [reflexivity|].
      assert (Hall : accepted valid (firstn 3 (skipn i codes)) = firstn 3 (skipn i codes)).
      { clear - E. induction (firstn 3 (skipn i codes)) as [|x l IHl];
          [reflexivity|]. cbn [firstRefused accepted] in *.
        destruct (valid x); [|discriminate]. now rewrite IHl. }
      unfold encoded, saved, alerts in *.
      rewrite !flat_map_app, P1, P2, P3, D1, D2, D3, T1, T2, T3, Hall.
      now repeat split.
  - rewrite skipn_all2 by lia. exists []. now repeat split.
Qed.

End StandardAborts.

(** X14. The standard export saves its document exactly when the encoder
    accepts every generated code.  When generation has returned codes, the
    layout settings are numbers and there is fuel for the pages, it draws
    the codes up to the first one that the encoder refuses, in order, and
    ends there with the encoder's exception, no document saved and no
    message shown; when no code is refused it returns and has saved the
    document once. *)
Theorem standard_export_saves (valid : string -> bool) (now : Z) (fuel : nat)
    (el : elements) (t0 : list event) (codes : list string) :
  let done := fst (handleStandardPdfExport valid now fuel el) in
  generateBarcodeData fuel el = (t0, Returned codes) -> codes <> [] ->
  existsb Num.isNaN (layoutOf el) = false -> (length codes < fuel)%nat ->
  snd (handleStandardPdfExport valid now fuel el)
  = match firstRefused valid codes with
    | None => Returned tt
    | Some c => Thrown (refused c)
    end
  /\ encoded done = accepted valid codes
  /\ saved done
     = match firstRefused valid codes with
       | None => ["barcodes-standard-" +:+ decimalOfZ now +:+ ".pdf"]
       | Some _ => []
       end
  /\ alerts done = []
  /\ (firstRefused valid codes = None <-> forallb valid codes = true)
  /\ (forall c, firstRefused valid codes = Some c -> In c codes /\ valid c = false).
Proof.
  cbv zeta. intros Hgen Hne Hnan Hfuel.
  destruct (generateBarcodeData_trace _ _ _ _ Hgen) as [->|[_ ->]]; [|congruence].
  split; [|split; [|split; [|split; [|split]]]];
    try apply firstRefused_none; try apply firstRefused_some.
  all: unfold handleStandardPdfExport; rewrite Hgen; cbn [bind].
  all: destruct codes as [|c0 codes'] eqn:E; [congruence|]; rewrite <- E in *.
  all: replace (length codes =? 0)%nat with false
         by (symmetry; apply Nat.eqb_neq; rewrite E; discriminate).
  all: unfold layoutOf in Hnan; rewrite Hnan.
  all: destruct (standardPages_until valid
                   (Num.mul (parseFloat (pageHeight el)) (ofZ 72))
                   (parseFloat (barcodeWidth el)) (parseFloat (barcodeHeight el))
                   (Num.mul (parseFloat (moveX el)) (ofZ 72))
                   (Num.mul (parseFloat (moveY el)) (ofZ 72))
                   (parseFloat (gapHorizontal el)) (parseFloat (gapVertical el))
                   fuel codes 0) as (t & Ht & T1 & T2 & T3); [lia|].
  all: rewrite skipn_O in Ht, T1; rewrite Ht.
  all: destruct (firstRefused valid codes).
  all: cbn [bind emit fst snd app]; try reflexivity.
  all: unfold encoded, saved, alerts in *; cbn [flat_map app].
  all: rewrite ?flat_map_app, ?T1, ?T2, ?T3; cbn [flat_map app].
  all: now rewrite ?app_nil_r.
Qed.

Lemma standard_export_saves_witness :
  snd (handleStandardPdfExport CODE128 0 9 accentedRange) = Thrown (refused (eacute +:+ "1"))
  /\ encoded (fst (handleStandardPdfExport CODE128 0 9 accentedRange)) = []
  /\ saved (fst (handleStandardPdfExport CODE128 0 9 accentedRange)) = [].
Proof.
  destruct (standard_export_saves CODE128 0 9 accentedRange []
              [eacute +:+ "1"; eacute +:+ "2"])
    as (H1 & H2 & H3 & _);
    [reflexivity | discriminate | reflexivity | simpl; lia |].
  split; [exact H1|]. split; [exact H2 | exact H3].
Defined.

(** ** No code twice *)

Lemma decimalOfZ_inj (a b : Z) : decimalOfZ a = decimalOfZ b -> a = b.
Proof.
  unfold decimalOfZ. intros H. apply DecimalZ.to_int_inj.
  assert (Hnil : forall z, Z.to_int z <> Decimal.Pos Decimal.Nil
                           /\ Z.to_int z <> Decimal.Neg Decimal.Nil).
  { intros [|p|p]; split; try discriminate; cbn [Z.to_int]; intros [= E];
      now apply DecimalPos.Unsigned.to_uint_nonnil in E. }
  apply (f_equal NilZero.int_of_string) in H.
  rewrite !NilZero.isi in H by apply Hnil. now injection H.
Qed.

(** The decimal string of an integer begins with the digit 0 only when it
    is that digit alone. *)
Lemma decimalOfZ_zero (z : Z) (rest : string) :
  decimalOfZ z = String "0" rest -> rest = "".
Proof.
  unfold decimalOfZ. destruct z as [|p|p]; cbn [Z.to_int NilZero.string_of_int];
    [now intros [= <-] | | discriminate].
  intros H. exfalso.
  assert (Hhead : exists d, Pos.to_uint p = Decimal.D0 d).
  { pose proof (DecimalPos.Unsigned.to_uint_nonnil p) as Hn.
    destruct (Pos.to_uint p) as [|d|d|d|d|d|d|d|d|d|d]; try discriminate H;
      [now elim Hn | now exists d]. }
  destruct Hhead as [d Hd].
  pose proof (DecimalPos.Unsigned.to_of (Pos.to_uint p)) as Hnorm.
  rewrite DecimalPos.Unsigned.of_to in Hnorm.
  change (N.to_uint (N.pos p)) with (Pos.to_uint p) in Hnorm.
  unfold Decimal.unorm in Hnorm.
  pose proof (DecimalFacts.nzhead_nonzero (Pos.to_uint p) d) as Hnz.
  destruct (Decimal.nzhead (Pos.to_uint p)) eqn:E;
    try (rewrite Hd in Hnorm; discriminate Hnorm).
  - now apply (DecimalPos.Unsigned.to_uint_nonzero p).
  - apply Hnz. rewrite Hd in Hnorm. now injection Hnorm as <-.
Qed.

Lemma repeat_cancel (ka kb : nat) (sa sb : string) :
  (ka <= kb)%nat ->
  Str.repeat "0" ka +:+ sa = Str.repeat "0" kb +:+ sb ->
  sa = Str.repeat "0" (kb - ka) +:+ sb.
Proof.
  revert kb. induction ka as [|ka IH]; intros kb Hle H.
  - now rewrite Nat.sub_0_r.
  - destruct kb as [|kb]; [lia|]. cbn [Str.repeat] in H. rewrite !append_cons in H.
    injection H as H. apply IH in H; [exact H | lia].
Qed.

Lemma padded_apart (ka kb : nat) (a b : Z) :
  (ka <= kb)%nat ->
  Str.repeat "0" ka +:+ decimalOfZ a = Str.repeat "0" kb +:+ decimalOfZ b -> a = b.
Proof.
  intros Hle H. apply repeat_cancel in H; [|exact Hle].
  destruct (kb - ka)%nat as [|k] eqn:E; [now apply decimalOfZ_inj|].
  cbn [Str.repeat] in H. rewrite append_cons in H.
  apply decimalOfZ_zero in H. apply append_is_empty in H as [_ H].
  pose proof (truthy_decimalOfZ b) as Hb. rewrite H in Hb. discriminate Hb.
Qed.

(** Padding keeps the strings of different integers different. *)
Lemma pad_inj (padding a b : Z) : pad a padding = pad b padding -> a = b.
Proof.
  unfold pad. intros H.
  destruct (Nat.le_ge_cases
              (Z.to_nat (padding - Z.of_nat (String.length (decimalOfZ a))))
              (Z.to_nat (padding - Z.of_nat (String.length (decimalOfZ b))))) as [Hle|Hle].
  - now apply padded_apart in H.
  - symmetry. symmetry in H. now apply padded_apart in H.
Qed.

Lemma append_cancel_r (a b q : string) : a +:+ q = b +:+ q -> a = b.
Proof.
  intros E. apply (f_equal String.rev) in E. rewrite !rev_of_append in E.
  apply String.app_inj in E. apply (f_equal String.rev) in E.
  now rewrite !rev_of_rev in E.
Qed.

Lemma progression_In (k : nat) (s inc x : Z) :
  In x (progression k s inc) -> exists j, (j < k)%nat /\ x = s + Z.of_nat j * inc.
Proof.
  revert s. induction k as [|k IH]; intros s; [intros []|].
  cbn [progression]. intros [<-|H].
  - exists O. split; lia.
  - destruct (IH _ H) as (j & Hj & ->). exists (S j). split; lia.
Qed.

Lemma progression_NoDup (k : nat) (s inc : Z) : inc <> 0 -> List.NoDup (progression k s inc).
Proof.
  intros Hinc. revert s. induction k as [|k IH]; intros s; [constructor|].
  cbn [progression]. constructor; [|apply IH].
  intros H. apply progression_In in H as (j & _ & H). nia.
Qed.

Lemma NoDup_map_injective {A B} (f : A -> B) (l : list A) :
  (forall x y, f x = f y -> x = y) -> List.NoDup l -> List.NoDup (map f l).
Proof.
  intros Hf H. induction H as [|x l Hx _ IH]; [constructor|].
  cbn [map]. constructor; [|exact IH].
  intros Hin. apply in_map_iff in Hin as (y & Hy & Hin). apply Hf in Hy. now subst y.
Qed.

(** A returning loop over integers has gone through a progression. *)
Lemma pushLoop_progression (fuel : nat) (body : number -> string) (s e inc : Z)
    (acc codes : list string) (t : list event) :
  pushLoop fuel body (ofZ s) (ofZ e) (ofZ inc) acc = (t, Returned codes) ->
  exists k, codes = acc ++ map (fun n => body (ofZ n)) (progression k s inc).
Proof.
  revert s acc. induction fuel as [|fuel IH]; intros s acc H; [discriminate|].
  cbn [pushLoop] in H. destruct (Num.le (ofZ s) (ofZ e)).
  - rewrite add_ofZ in H. apply IH in H as [k ->]. exists (S k).
    cbn [progression map]. now rewrite <- app_assoc.
  - injection H as _ <-. exists O. now rewrite app_nil_r.
Qed.

Lemma code_inj (p q x y : string) : p +:+ x +:+ q = p +:+ y +:+ q -> x = y.
Proof. intros H. apply String.app_inj in H. now apply append_cancel_r in H. Qed.

(** X15. No code is generated twice.  Whatever the form holds, the codes
    that [generateBarcodeData] returns are pairwise different; and when the
    range of the parameter text has integer bounds, so are the codes that a
    run of [handleProcessText] without a message appends to the manual
    data: padding with zeros never makes two numbers of a sequence read the
    same. *)
Theorem generated_codes_distinct :
  (forall fuel el t codes,
      generateBarcodeData fuel el = (t, Returned codes) -> List.NoDup codes)
  /\ (forall fuel el el' s e,
        rangeIn el = [ofZ s; ofZ e] ->
        handleProcessText fuel el = ([], Returned el') ->
        exists codes,
          manualData el' = appended (manualData el) codes /\ List.NoDup codes)
  /\ (forall padding a b, pad a padding = pad b padding -> a = b).
Proof.
  split; [|split; [|exact pad_inj]].
  - intros fuel el t codes. unfold generateBarcodeData.
    destruct (Num.isNaN _ || Num.isNaN _ || Num.isNaN _)%bool eqn:Hnan;
      [intros [= _ <-]; constructor|].
    apply Bool.orb_false_iff in Hnan as [Hnan _].
    apply Bool.orb_false_iff in Hnan as [Hs He].
    destruct (parseInt_cases (startVal el)) as [E|[s E]]; rewrite E in *; [discriminate|].
    destruct (parseInt_cases (endVal el)) as [E'|[e E']]; rewrite E' in *; [discriminate|].
    destruct (formIncrement_cases el) as (inc & -> & Hinc & _).
    intros H. apply pushLoop_progression in H as [k ->]. cbn [app].
    apply NoDup_map_injective; [|now apply progression_NoDup].
    intros x y Hxy. apply code_inj in Hxy. rewrite !toString_ofZ in Hxy.
    now apply decimalOfZ_inj.
  - intros fuel el el' s e Hr H.
    apply handleProcessText_success in H as (_ & _ & E4 & E5 & codes & EL & ->).
    exists codes. split; [reflexivity|].
    apply Bool.orb_false_iff in E4 as [E4 E4'].
    apply Bool.orb_false_iff in E5 as [E5 E5'].
    destruct (incrementOf_cases (paramsOf el)) as [E|[inc E]];
      [rewrite E in E4; discriminate|].
    destruct (paddingOf_cases (paramsOf el)) as [P|[pd P]];
      [rewrite P in E5; discriminate|].
    rewrite E in E4'. rewrite lt_ofZ in E4'. apply Z.ltb_ge in E4'.
    rewrite P in E5'. rewrite lt_ofZ in E5'. apply Z.ltb_ge in E5'.
    rewrite Hr, E, P in EL. cbn [nth] in EL.
    apply pushLoop_progression in EL as [k ->]. cbn [app].
    apply NoDup_map_injective; [|apply progression_NoDup; lia].
    intros x y Hxy. apply code_inj in Hxy. rewrite !numberPart_ofZ in Hxy by exact E5'.
    now apply pad_inj in Hxy.
Qed.

Lemma generated_codes_distinct_witness :
  List.NoDup ["A1-x"; "A4-x"; "A7-x"; "A10-x"]
  /\ (exists codes,
        lines ["old"; "001"; "004"; "007"; "010"] = appended "old" codes /\ List.NoDup codes)
  /\ 7 = 7.
Proof.
  destruct generated_codes_distinct as (Hform & Htext & Hpad).
  split; [|split].
  - apply (Hform 5%nat (rangeForm "A" "1" "10" "-x" "3") []). reflexivity.
  - apply (Htext 5%nat (textForm "old" (lines ["range: 1-10"; "increment: 3"; "padding: 3"]))
             (textForm (lines ["old"; "001"; "004"; "007"; "010"]) "") 1 10);
      [reflexivity | vm_compute; reflexivity].
  - apply (Hpad 3). reflexivity.
Defined.

(** ** The two generators *)

(** X16. The two generators agree where both take the numbers.  For the
    same integers [0 <= start <= end_], the end below 2^53, and an increment
    of at least 1, a parameter text without padding whose prefix and
    suffix are those of the form makes [handleProcessText] append exactly
    the codes that [generateBarcodeData] returns from the form, in the same
    order, as the engine runs them. *)
Theorem generators_agree (fuel : nat) (form text : elements) (start end_ inc : Z) :
  0 <= start <= end_ -> 1 <= inc -> end_ < 2 ^ 53 ->
  Double.parseInt (startVal form) = ofZ start ->
  Double.parseInt (endVal form) = ofZ end_ ->
  Num.or (Double.parseInt (increment form)) (ofZ 1) = ofZ inc ->
  Str.truthy (inputTextOf text) = true ->
  Double.rangeOf (paramsOf text) = [ofZ start; ofZ end_] ->
  Double.incrementOf (paramsOf text) = ofZ inc ->
  Double.paddingOf (paramsOf text) = ofZ 0 ->
  default "" (paramsOf text !! "prefix") = prefix form ->
  default "" (paramsOf text !! "suffix") = suffix form ->
  (count start end_ inc < fuel)%nat ->
  exists codes,
    codes = expected (prefix form) (suffix form) 0 start end_ inc
    /\ Double.generateBarcodeData fuel form = ([], Returned codes)
    /\ Double.handleProcessText fuel text
       = ([], Returned (written text (appended (manualData text) codes) "")).
Proof.
  intros Hse Hinc Hhigh Hs He Hi Ht Hr Hti Htp Hp Hq Hfuel.
  exists (expected (prefix form) (suffix form) 0 start end_ inc).
  split; [reflexivity|]. split.
  - apply generateBarcodeData_double_codes; (assumption || lia).
  - rewrite (handleProcessText_double_codes fuel text start end_ inc 0);
      try assumption; try lia.
    now rewrite Hp, Hq.
Qed.

Lemma generators_agree_witness :
  exists codes,
    codes = ["A1-x"; "A4-x"; "A7-x"; "A10-x"]
    /\ Double.generateBarcodeData 5 (rangeForm "A" "1" "10" "-x" "3") = ([], Returned codes)
    /\ Double.handleProcessText 5
         (textForm "" (lines ["Prefix: A"; "suffix: -x"; "range: 1-10"; "increment: 3"]))
       = ([], Returned
                (written
                   (textForm ""
                      (lines ["Prefix: A"; "suffix: -x"; "range: 1-10"; "increment: 3"]))
                   (appended "" codes) "")).
Proof.
  destruct (generators_agree 5 (rangeForm "A" "1" "10" "-x" "3")
              (textForm "" (lines ["Prefix: A"; "suffix: -x"; "range: 1-10"; "increment: 3"]))
              1 10 3) as (codes & Hc & Hform & Htext);
    try lia; try reflexivity; [vm_compute; lia|].
  exists codes. split; [rewrite Hc; reflexivity|]. now split.
Defined.

(** ** The page when it is ready *)

(** X17. The check of the libraries.  A library whose global name was never
    declared, as when its script did not load, ends the listener with a
    [ReferenceError] before any message: this holds for JsBarcode, and for
    JSZip whatever the other two are.  When both names are declared, the
    first library in the order JsBarcode, jsPDF, JSZip whose value is
    undefined is reported, on the console and in one message that names it,
    and the listener returns.  In every one of these cases no button is
    tied to its handler, and a click on any element does nothing: a
    listener is added only when all three libraries are defined. *)
Theorem libraries_checked (p : page) :
  (global_JsBarcode p = undeclared ->
   onDOMContentLoaded p
   = (nothingTied, ([], Thrown "ReferenceError: JsBarcode is not defined")))
  /\ (global_JsBarcode p <> undeclared -> global_JSZip p = undeclared ->
      onDOMContentLoaded p
      = (nothingTied, ([], Thrown "ReferenceError: JSZip is not defined")))
  /\ (global_JsBarcode p <> undeclared -> global_JSZip p <> undeclared ->
      forall libName, firstMissing p = Some libName ->
      onDOMContentLoaded p
      = (nothingTied,
         ([console_error (libName +:+ " library is not loaded.");
           alert ("A critical library (" +:+ libName
                  +:+ ") failed to load. Please refresh the page.")],
          Returned tt)))
  /\ (added (fst (onDOMContentLoaded p)) <> [] ->
      global_JsBarcode p = defined /\ window_jspdf p = defined
      /\ global_JSZip p = defined)
  /\ (firstMissing p <> None ->
      forall valid pageSize now archiveFails id fuel el,
        click valid pageSize now archiveFails (fst (onDOMContentLoaded p)) id fuel el
        = ([], Returned el)).
Proof.
  unfold onDOMContentLoaded, libs, firstMissing, click.
  destruct (global_JsBarcode p), (window_jspdf p), (global_JSZip p);
    cbn [identifier property bind ret throw checkLibs emit app negb fst added nothingTied
         List.find];
    repeat split; try congruence; intros; try congruence;
    match goal with
    | H : Some _ = Some _ |- _ => injection H as <-; reflexivity
    | _ => idtac
    end.
Qed.

Lemma libraries_checked_witness :
  onDOMContentLoaded (pageWith undeclared defined defined)
  = (nothingTied, ([], Thrown "ReferenceError: JsBarcode is not defined"))
  /\ onDOMContentLoaded (pageWith undefined undefined undeclared)
     = (nothingTied, ([], Thrown "ReferenceError: JSZip is not defined"))
  /\ onDOMContentLoaded (pageWith defined undeclared undefined)
     = (nothingTied,
        ([console_error "jsPDF library is not loaded.";
          alert "A critical library (jsPDF) failed to load. Please refresh the page."],
         Returned tt))
  /\ click CODE128 a4 0 false (fst (onDOMContentLoaded (pageWith defined undeclared undefined)))
       "generate-preview-btn" 9 (rangeForm "A" "1" "3" "" "")
     = ([], Returned (rangeForm "A" "1" "3" "" "")).
Proof.
  split; [|split; [|split]].
  - apply (libraries_checked (pageWith undeclared defined defined)). reflexivity.
  - apply (libraries_checked (pageWith undefined undefined undeclared));
      [discriminate | reflexivity].
  - destruct (libraries_checked (pageWith defined undeclared undefined))
      as (_ & _ & H & _).
    exact (H ltac:(discriminate) ltac:(discriminate) "jsPDF" eq_refl).
  - apply (libraries_checked (pageWith defined undeclared undefined)). discriminate.
Defined.

Lemma addEventListeners_wired (hasElement : string -> bool)
    (wanted listeners : list (string * handler)) :
  addEventListeners hasElement wanted listeners
  = (listeners ++ wired hasElement wanted,
     match firstAbsent hasElement wanted with
     | None => ret tt
     | Some id => throw ("TypeError: " +:+ id +:+ " is null")
     end).
Proof.
  revert listeners. induction wanted as [|[id h] wanted IH]; intros listeners.
  - cbn. now rewrite app_nil_r.
  - cbn [addEventListeners wired firstAbsent]. destruct (hasElement id).
    + rewrite IH, <- app_assoc. reflexivity.
    + now rewrite app_nil_r.
Qed.

Lemma firstAbsent_absent (hasElement : string -> bool) (wanted : list (string * handler))
    (id : string) :
  firstAbsent hasElement wanted = Some id -> hasElement id = false.
Proof.
  induction wanted as [|[id0 h0] wanted IH]; [discriminate|]. cbn [firstAbsent].
  destruct (hasElement id0) eqn:E; [exact IH|]. now intros [= <-].
Qed.

Lemma wired_present (hasElement : string -> bool) (wanted : list (string * handler))
    (id : string) (h : handler) :
  firstAbsent hasElement wanted = Some id -> ~ In (id, h) (wired hasElement wanted).
Proof.
  intros Hid. apply firstAbsent_absent in Hid. intros Hin.
  induction wanted as [|[id0 h0] wanted IH]; [destruct Hin|].
  cbn [wired] in Hin. destruct (hasElement id0) eqn:E; [|destruct Hin].
  destruct Hin as [[= <- _]|Hin]; [congruence | now apply IH].
Qed.

(** With a button missing the text processor, the last to be tied, is not
    tied. *)
Lemma wired_short (hasElement : string -> bool) (id : string) (l : string * handler) :
  firstAbsent hasElement clicks = Some id -> In l (wired hasElement clicks) ->
  snd l <> onProcessText.
Proof.
  unfold clicks. cbn [firstAbsent wired].
  destruct (hasElement "generate-preview-btn"); [|intros _ []].
  destruct (hasElement "export-pdf-btn");
    [|intros _ [<-|[]]; discriminate].
  destruct (hasElement "export-united-pdf-btn");
    [|intros _ [<-|[<-|[]]]; discriminate].
  destruct (hasElement "export-svg-btn");
    [|intros _ [<-|[<-|[<-|[]]]]; discriminate].
  destruct (hasElement "process-text-btn"); [discriminate|].
  intros _ [<-|[<-|[<-|[<-|[]]]]]; discriminate.
Qed.

(** X18. The buttons.  With the three libraries defined, the listener shows
    nothing and ties the buttons to their handlers in the order preview,
    standard export, united export, archive export, text processor.  When
    the document holds all five buttons it ties all five, returns, and a
    click on a button runs its handler.  When a button is missing it ends
    there with a [TypeError], the buttons before the missing one tied and
    the others not, and before the two function constants of the script are
    initialised: a click on any element then runs no handler, it does
    nothing or ends at once with a [ReferenceError]. *)
Theorem buttons_wired (valid : string -> bool) (pageSize : number * number) (now : Z)
    (archiveFails : bool) (p : page) :
  let r := fst (onDOMContentLoaded p) in
  global_JsBarcode p = defined -> window_jspdf p = defined ->
  global_JSZip p = defined ->
  onDOMContentLoaded p
  = ({| added := wired (hasElement p) clicks;
        constants := match firstAbsent (hasElement p) clicks with
                     | None => true
                     | Some _ => false
                     end |},
     ([], match firstAbsent (hasElement p) clicks with
          | None => Returned tt
          | Some id => Thrown ("TypeError: " +:+ id +:+ " is null")
          end))
  /\ (firstAbsent (hasElement p) clicks = None ->
      added r
      = [ ("generate-preview-btn", onPreview);
          ("export-pdf-btn", onStandardPdfExport);
          ("export-united-pdf-btn", onUnitedPdfExport);
          ("export-svg-btn", onSvgZipExport);
          ("process-text-btn", onProcessText) ]
      /\ forall fuel el,
           click valid pageSize now archiveFails r "generate-preview-btn" fuel el
           = (handlePreview valid fuel el ;; ret el)
           /\ click valid pageSize now archiveFails r "export-pdf-btn" fuel el
              = (handleStandardPdfExport valid now fuel el ;; ret el)
           /\ click valid pageSize now archiveFails r "export-united-pdf-btn" fuel el
              = (handleUnitedPdfExport valid pageSize now fuel el ;; ret el)
           /\ click valid pageSize now archiveFails r "export-svg-btn" fuel el
              = (handleSvgZipExport valid now archiveFails el ;; ret el)
           /\ click valid pageSize now archiveFails r "process-text-btn" fuel el
              = handleProcessText fuel el)
  /\ (forall missing, firstAbsent (hasElement p) clicks = Some missing ->
      (forall h, ~ In (missing, h) (added r))
      /\ forall id fuel el,
           click valid pageSize now archiveFails r id fuel el = ([], Returned el)
           \/ exists name,
                click valid pageSize now archiveFails r id fuel el = uninitialised name).
Proof.
  cbv zeta. intros H1 H2 H3.
  assert (Hrun : onDOMContentLoaded p
                 = ({| added := wired (hasElement p) clicks;
                       constants := match firstAbsent (hasElement p) clicks with
                                    | None => true
                                    | Some _ => false
                                    end |},
                    ([], match firstAbsent (hasElement p) clicks with
                         | None => Returned tt
                         | Some id => Thrown ("TypeError: " +:+ id +:+ " is null")
                         end))).
  { unfold onDOMContentLoaded, libs. rewrite H1, H2, H3.
    cbn [identifier property bind ret checkLibs app].
    rewrite addEventListeners_wired. cbn [app].
    now destruct (firstAbsent (hasElement p) clicks). }
  split; [exact Hrun|]. rewrite Hrun. cbn [fst added]. split.
  - intros Hnone. rewrite Hnone. unfold click. cbn [added constants].
    assert (Hall : wired (hasElement p) clicks = clicks).
    { revert Hnone. unfold clicks. cbn [firstAbsent wired].
      destruct (hasElement p "generate-preview-btn"); [|discriminate].
      destruct (hasElement p "export-pdf-btn"); [|discriminate].
      destruct (hasElement p "export-united-pdf-btn"); [|discriminate].
      destruct (hasElement p "export-svg-btn"); [|discriminate].
      destruct (hasElement p "process-text-btn"); [reflexivity | discriminate]. }
    rewrite Hall. split; [reflexivity|]. intros fuel el. repeat split; reflexivity.
  - intros missing Hsome. rewrite Hsome. split; [intros h; now apply wired_present|].
    intros id fuel el. unfold click. cbn [added constants].
    destruct (List.find _ (wired (hasElement p) clicks)) as [[id' h]|] eqn:E;
      [|now left].
    apply List.find_some in E as [Hin _].
    pose proof (wired_short (hasElement p) missing (id', h) Hsome Hin) as Hh.
    right. destruct h; cbn [handle]; try (eexists; reflexivity). now elim Hh.
Qed.

Lemma buttons_wired_witness :
  let r := fst (onDOMContentLoaded
                  {| global_JsBarcode := defined; window_jspdf := defined;
                     global_JSZip := defined;
                     hasElement := fun id => negb (String.eqb id "export-united-pdf-btn") |}) in
  added r = [("generate-preview-btn", onPreview); ("export-pdf-btn", onStandardPdfExport)]
  /\ (click CODE128 a4 0 false r "generate-preview-btn" 9 (rangeForm "A" "1" "3" "" "")
      = ([], Returned (rangeForm "A" "1" "3" "" ""))
      \/ exists name,
           click CODE128 a4 0 false r "generate-preview-btn" 9 (rangeForm "A" "1" "3" "" "")
           = uninitialised name)
  /\ click CODE128 a4 0 false (fst (onDOMContentLoaded (pageWith defined defined defined)))
       "process-text-btn" 9 (textForm "" "range: 1-3")
     = handleProcessText 9 (textForm "" "range: 1-3").
Proof.
  cbv zeta. split; [|split].
  - destruct (buttons_wired CODE128 a4 0 false
                {| global_JsBarcode := defined; window_jspdf := defined;
                   global_JSZip := defined;
                   hasElement := fun id => negb (String.eqb id "export-united-pdf-btn") |}
                eq_refl eq_refl eq_refl) as (H & _).
    rewrite H. reflexivity.
  - destruct (buttons_wired CODE128 a4 0 false
                {| global_JsBarcode := defined; window_jspdf := defined;
                   global_JSZip := defined;
                   hasElement := fun id => negb (String.eqb id "export-united-pdf-btn") |}
                eq_refl eq_refl eq_refl) as (_ & _ & H).
    destruct (H "export-united-pdf-btn" eq_refl) as [_ Hclick].
    apply (Hclick "generate-preview-btn" 9%nat (rangeForm "A" "1" "3" "" "")).
  - destruct (buttons_wired CODE128 a4 0 false (pageWith defined defined defined)
                eq_refl eq_refl eq_refl) as (_ & H & _).
    destruct (H eq_refl) as [_ Hclick].
    apply (Hclick 9%nat (textForm "" "range: 1-3")).
Defined.

(** ** The cells of the dense grid *)

Lemma axis_apart (a b : nat) (cell item pa pb : Q) :
  (0 <= item)%Q -> (item <= cell)%Q -> (a < b)%nat ->
  (pa - (72 + inject_Z (Z.of_nat a) * cell)
   == (72 + (inject_Z (Z.of_nat a) + 1) * cell) - (pa + item))%Q ->
  (pb - (72 + inject_Z (Z.of_nat b) * cell)
   == (72 + (inject_Z (Z.of_nat b) + 1) * cell) - (pb + item))%Q ->
  (pa + item <= pb)%Q.
Proof.
  intros H0 H1 Hab Ha Hb.
  assert (Hd : (inject_Z (Z.of_nat a) + 1 <= inject_Z (Z.of_nat b))%Q).
  { change 1%Q with (inject_Z 1). rewrite <- inject_Z_plus, <- Zle_Qle. lia. }
  nra.
Qed.

Lemma axis_inside (n : Z) (a : nat) (cell item p size : Q) :
  (0 <= item)%Q -> (item <= cell)%Q -> Z.of_nat a < n ->
  (cell == (size - 2 * 72) / inject_Z n)%Q -> 0 < n ->
  (p - (72 + inject_Z (Z.of_nat a) * cell)
   == (72 + (inject_Z (Z.of_nat a) + 1) * cell) - (p + item))%Q ->
  (72 <= p)%Q /\ (p + item <= size - 72)%Q.
Proof.
  intros H0 H1 Han Hcell Hn Hp.
  assert (Hd : (inject_Z (Z.of_nat a) + 1 <= inject_Z n)%Q).
  { change 1%Q with (inject_Z 1). rewrite <- inject_Z_plus, <- Zle_Qle. lia. }
  assert (Hz : (0 <= inject_Z (Z.of_nat a))%Q).
  { change 0%Q with (inject_Z 0). rewrite <- Zle_Qle. lia. }
  assert (Hn' : (0 < inject_Z n)%Q).
  { change 0%Q with (inject_Z 0). rewrite <- Zlt_Qlt. lia. }
  assert (Hs : (cell * inject_Z n == size - 2 * 72)%Q).
  { rewrite Hcell. field. intros E. rewrite E in Hn'. now apply Qlt_irrefl in Hn'. }
  split; nra.
Qed.

(** X19. The grid of the united export on a page of at least 144 points
    each way.  The code in slot [i] of a page is drawn as one item, of the
    same size in every slot, at a place that depends on the slot alone; the
    item lies inside the margins of 72 points on all four sides; and the
    items of two different slots of a page do not overlap: one lies wholly
    to the left of the other, or wholly above it. *)
Theorem united_grid (valid : string -> bool) (w h : Q) (i j : nat) :
  (144 <= w)%Q -> (144 <= h)%Q -> (i < 20)%nat -> (j < 20)%nat -> i <> j ->
  exists iw ih xi yi xj yj,
    (forall code, valid code = true ->
       unitedItem valid (ofZ 72) (colWidth (Fin w, Fin h)) (rowHeight (Fin w, Fin h))
         (itemWidth (Fin w, Fin h)) (itemHeight (Fin w, Fin h)) code i
       = ([barcode code; doc_svg code (Fin xi) (Fin yi) (Fin iw) (Fin ih)], Returned tt))
    /\ (forall code, valid code = true ->
          unitedItem valid (ofZ 72) (colWidth (Fin w, Fin h)) (rowHeight (Fin w, Fin h))
            (itemWidth (Fin w, Fin h)) (itemHeight (Fin w, Fin h)) code j
          = ([barcode code; doc_svg code (Fin xj) (Fin yj) (Fin iw) (Fin ih)], Returned tt))
    /\ (72 <= xi /\ xi + iw <= w - 72 /\ 72 <= yi /\ yi + ih <= h - 72)%Q
    /\ (xi + iw <= xj \/ xj + iw <= xi \/ yi + ih <= yj \/ yj + ih <= yi)%Q.
Proof.
  intros Hw Hh Hi Hj Hij.
  destruct (slot_centred w h (i / 4) (i mod 4))
    as (cw & rh & iw & ih & xi & yi & Hcw & Hrh & Hiw & Hih & Hxi & Hyi
        & Ecw & Erh & Eiw & Eih & Exi & Eyi).
  destruct (slot_centred w h (j / 4) (j mod 4))
    as (cw' & rh' & iw' & ih' & xj & yj & Hcw' & Hrh' & Hiw' & Hih' & Hxj & Hyj
        & _ & _ & _ & _ & Exj & Eyj).
  rewrite Hcw in Hcw'. rewrite Hrh in Hrh'. rewrite Hiw in Hiw'. rewrite Hih in Hih'.
  injection Hcw' as <-. injection Hrh' as <-. injection Hiw' as <-. injection Hih' as <-.
  assert (Hcell : (0 <= cw)%Q) by (rewrite Ecw; apply Qle_shift_div_l; [reflexivity | lra]).
  assert (Hrow : (0 <= rh)%Q) by (rewrite Erh; apply Qle_shift_div_l; [reflexivity | lra]).
  assert (Hiw0 : (0 <= iw /\ iw <= cw)%Q) by (rewrite Eiw; split; lra).
  assert (Hih0 : (0 <= ih /\ ih <= rh)%Q) by (rewrite Eih; split; lra).
  pose proof (Nat.mod_upper_bound i 4 ltac:(lia)) as Hci.
  pose proof (Nat.mod_upper_bound j 4 ltac:(lia)) as Hcj.
  assert (Hri : (i / 4 < 5)%nat) by (apply Nat.Div0.div_lt_upper_bound; lia).
  assert (Hrj : (j / 4 < 5)%nat) by (apply Nat.Div0.div_lt_upper_bound; lia).
  exists iw, ih, xi, yi, xj, yj. split; [|split; [|split]].
  - intros code Hv. rewrite unitedItem_valid by exact Hv. unfold slotOf.
    now rewrite Hxi, Hyi, Hiw, Hih.
  - intros code Hv. rewrite unitedItem_valid by exact Hv. unfold slotOf.
    now rewrite Hxj, Hyj, Hiw, Hih.
  - assert (X : (72 <= xi)%Q /\ (xi + iw <= w - 72)%Q)
      by (apply (axis_inside 4 (i mod 4) cw iw); tauto || lia || assumption).
    assert (Y : (72 <= yi)%Q /\ (yi + ih <= h - 72)%Q)
      by (apply (axis_inside 5 (i / 4) rh ih); tauto || lia || assumption).
    tauto.
  - pose proof (Nat.div_mod_eq i 4) as Di. pose proof (Nat.div_mod_eq j 4) as Dj.
    destruct (Nat.lt_total (i mod 4) (j mod 4)) as [Hlt|[Heq|Hgt]].
    + left. apply (axis_apart (i mod 4) (j mod 4) cw); tauto.
    + destruct (Nat.lt_total (i / 4) (j / 4)) as [Hlt|[Heq'|Hgt]]; [| lia |].
      * right. right. left. apply (axis_apart (i / 4) (j / 4) rh); tauto.
      * right. right. right. apply (axis_apart (j / 4) (i / 4) rh); tauto.
    + right. left. apply (axis_apart (j mod 4) (i mod 4) cw); tauto.
Qed.

Lemma united_grid_witness :
  exists iw ih xi yi xj yj,
    (forall code, CODE128 code = true ->
       unitedItem CODE128 (ofZ 72) (colWidth a4) (rowHeight a4)
         (itemWidth a4) (itemHeight a4) code 3
       = ([barcode code; doc_svg code (Fin xi) (Fin yi) (Fin iw) (Fin ih)], Returned tt))
    /\ (forall code, CODE128 code = true ->
          unitedItem CODE128 (ofZ 72) (colWidth a4) (rowHeight a4)
            (itemWidth a4) (itemHeight a4) code 4
          = ([barcode code; doc_svg code (Fin xj) (Fin yj) (Fin iw) (Fin ih)], Returned tt))
    /\ (72 <= xi /\ xi + iw <= (14882 # 25) - 72 /\ 72 <= yi
        /\ yi + ih <= (84189 # 100) - 72)%Q
    /\ (xi + iw <= xj \/ xj + iw <= xi \/ yi + ih <= yj \/ yj + ih <= yi)%Q.
Proof.
  apply (united_grid CODE128 (14882 # 25) (84189 # 100) 3 4);
    try lia; unfold Qle; simpl; lia.
Defined.
